(** * Event dispatch and RPC coordination of an OpenFlow controller

    A shallow embedding of the two controller cores of the repository:

    - [Pylibofp]: [pylibofp/controller.py] (xid allocation, the request
      table [_reqs] and its [_ReplyFuture] handles, the timeout sweeper
      [_idle], the phase machine [_set_phase] / [_cancel_tasks] and the
      start sequence [_start]);
    - [Zof]: [zof/controller.py] (datapath bookkeeping, handler lookup and
      dispatch, [on_exception], [zof_cleanup] and [run]);
    - [PylibofpTasks] and [PylibofpDispatch]: the task registry and the
      dispatcher of [pylibofp/controller.py] ([_dispatch_event] and the
      handlers it routes to), with [ensure_future] of
      [pylibofp/controllerapp.py];
    - [ZofAccessors]: the accessors of [zof/controller.py];
    - [ZofDriver]: [zof/driver.py] (numbering and framing of what is sent
      to the backend).

    Python objects that are shared and mutated (reply handles, asyncio
    futures, datapaths) live in explicit object stores and are referred to
    by address.  Methods are written in a state-and-exception monad: a
    raised exception keeps the mutations made before it, as in Python.

    The file is organised in two parts: all definitions first, then the
    facts proved about them. *)

From Stdlib Require Import ZArith QArith Lia Ascii.
From stdpp Require Import base option list strings gmap.

Local Open Scope Z_scope.
Set Warnings "-register-all".

(* ===================================================================== *)
(** * Part I: definitions *)
(* ===================================================================== *)

(** ** Python dictionaries

    A [dict] keeps its keys in insertion order, and the controllers iterate
    over [values()] and [items()], so a dictionary is an association list
    with at most one entry per key.  Assigning to a key that is present
    keeps its position. *)

Module PyDict.

Definition dict (K V : Type) : Type := list (K * V).

Section Ops.
Context {K V : Type} `{EqDecision K}.

Definition empty : dict K V := [].

(** [d.get(k)] *)
Fixpoint get (d : dict K V) (k : K) : option V :=
  match d with
  | [] => None
  | (k', v) :: d' => if decide (k' = k) then Some v else get d' k
  end.

(** [k in d] *)
Definition contains (d : dict K V) (k : K) : bool :=
  match get d k with Some _ => true | None => false end.

(** [d[k] = v] *)
Fixpoint setitem (d : dict K V) (k : K) (v : V) : dict K V :=
  match d with
  | [] => [(k, v)]
  | (k', v') :: d' =>
      if decide (k' = k) then (k, v) :: d' else (k', v') :: setitem d' k v
  end.

(** [del d[k]] where the caller has checked [k in d]; a missing key
    leaves the dictionary as it is (callers model the [KeyError]). *)
Fixpoint delitem (d : dict K V) (k : K) : dict K V :=
  match d with
  | [] => []
  | (k', v') :: d' =>
      if decide (k' = k) then d' else (k', v') :: delitem d' k
  end.

(** [d.pop(k)]: [None] stands for the [KeyError]. *)
Definition pop (d : dict K V) (k : K) : option (V * dict K V) :=
  match get d k with
  | Some v => Some (v, delitem d k)
  | None => None
  end.

Definition keys (d : dict K V) : list K := d.*1.
Definition values (d : dict K V) : list V := d.*2.
Definition items (d : dict K V) : list (K * V) := d.

(** One entry per key. *)
Definition wf (d : dict K V) : Prop := NoDup (keys d).

End Ops.

End PyDict.

(** ** Decoded JSON

    What both controllers receive from the backend: the payload of an
    event is free-form. *)

Module Json.

Inductive Value : Type :=
| VNone
| VBool (b : bool)
| VInt (n : Z)
| VStr (s : string)
| VList (items : list Value)
| VObj (fields : list (string * Value)).

Fixpoint assoc (fields : list (string * Value)) (k : string) : option Value :=
  match fields with
  | [] => None
  | (k', v) :: rest => if String.eqb k' k then Some v else assoc rest k
  end.

End Json.

(** ** A state-and-exception monad, generic in the exception and state *)

Module Py.

(** What running a piece of Python gives: a value, a raised exception,
    or a coroutine suspended on an asyncio future that is not resolved
    yet. *)
Inductive Result (E A : Type) : Type :=
| Ok (a : A)
| Raise (e : E)
| Blocked (fut : nat).
Arguments Ok {E A} a.
Arguments Raise {E A} e.
Arguments Blocked {E A} fut.

Definition M (E S A : Type) : Type := S → Result E A * S.

Section Monad.
Context {E S : Type}.

Definition ret {A} (a : A) : M E S A := λ s, (Ok a, s).

Definition bind {A B} (m : M E S A) (k : A → M E S B) : M E S B :=
  λ s, match m s with
       | (Ok a, s') => k a s'
       | (Raise e, s') => (Raise e, s')
       | (Blocked f, s') => (Blocked f, s')
       end.

Definition raise {A} (e : E) : M E S A := λ s, (Raise e, s).

Definition gets {A} (f : S → A) : M E S A := λ s, (Ok (f s), s).
Definition modify (f : S → S) : M E S unit := λ s, (Ok tt, f s).

(** [try: body  except <classes matched by catch> as ex: handler ex] *)
Definition try_except {A} (body : M E S A) (catch : E → bool)
    (handler : E → M E S A) : M E S A :=
  λ s, match body s with
       | (Raise e, s') => if catch e then handler e s' else (Raise e, s')
       | r => r
       end.

(** [for x in xs: body x] *)
Fixpoint for_each {A} (xs : list A) (body : A → M E S unit) : M E S unit :=
  match xs with
  | [] => ret tt
  | x :: xs' => bind (body x) (λ _, for_each xs' body)
  end.

(** [assert b] with the exception to raise. *)
Definition assert (b : bool) (err : E) : M E S unit :=
  if b then ret tt else raise err.

End Monad.

(** A computation that does not touch the state. *)
Definition lift {E S A} (r : Result E A) : M E S A := λ s, (r, s).

(** Running a method of an object stored in a component of the state. *)
Definition zoom {E S T A} (proj : S → T) (upd : T → S → S)
    (m : M E T A) : M E S A :=
  λ s, let '(r, t') := m (proj s) in (r, upd t' s).

Declare Scope py_scope.
Delimit Scope py_scope with py.
Notation "'let!' x ':=' c 'in' k" := (bind c (λ x, k))
  (at level 10, x name, c at level 100, k at level 200) : py_scope.
Notation "'let!' ' p ':=' c 'in' k" :=
  (bind c (λ x, match x with p => k end))
  (at level 10, p pattern, c at level 100, k at level 200) : py_scope.
Notation "c1 ';;;' c2" := (bind c1 (λ _, c2))
  (at level 100, c2 at level 200, right associativity) : py_scope.

End Py.

(** ** [pylibofp/controller.py] *)

Module Pylibofp.
Import Py Json.
Local Open Scope py_scope.

(** *** Events

    Events are [ObjectView]s over decoded JSON.  The module
    [pylibofp/objectview.py] is not part of the sources: attribute access
    on a missing key is taken to raise [AttributeError], [k in view] to
    test for the key. *)

(** [event.k], [None] standing for the [AttributeError]. *)
Definition getattr (v : Value) (k : string) : option Value :=
  match v with
  | VObj fields => assoc fields k
  | _ => None
  end.

(** [k in event] *)
Definition has_key (v : Value) (k : string) : bool :=
  match getattr v k with Some _ => true | None => false end.

Definition is_ObjectView (v : Value) : bool :=
  match v with VObj _ => true | _ => false end.

(** [make_event(event=name)] *)
Definition make_event (name : string) : Value := VObj [("event", VStr name)].

(** [needle in haystack] for two strings *)
Fixpoint str_contains (needle haystack : string) : bool :=
  String.prefix needle haystack ||
  match haystack with
  | EmptyString => false
  | String _ rest => str_contains needle rest
  end.

(** *** Exceptions

    The builtin exceptions the code can raise, and the classes of
    [pylibofp/exception.py] it names. *)

Inductive Exception : Type :=
| AssertionError
| AttributeError (name : string)
| KeyError (key : string)
| TypeError
| ValueError (msg : string)
| ReferenceError
| InvalidStateError (msg : string)
| StopAsyncIteration
| TimeoutException (xid : Z)
| RPCException (event : Value)
| ErrorException (event : Value)
| DeliveryException (event : Value).

(** Modelled from the spec: [pylibofp/exception.py] is missing from the
    sources.  The request errors of the taxonomy (RPC error, OF error,
    delivery alert, timeout) are the exceptions a reply handle delivers;
    they derive from [ControllerException], whose [message] the handlers of
    the start sequence read.  A builtin exception cannot derive from it. *)
Definition is_ControllerException (e : Exception) : bool :=
  match e with
  | TimeoutException _ | RPCException _ | ErrorException _
  | DeliveryException _ => true
  | _ => false
  end.

(** The exception classes handed to [_handle_xid] as [except_class]. *)
Inductive ExceptClass : Type := RPC | OFError | Delivery.

Definition instantiate (cls : ExceptClass) (event : Value) : Exception :=
  match cls with
  | RPC => RPCException event
  | OFError => ErrorException event
  | Delivery => DeliveryException event
  end.

(** *** Object store: reply handles and asyncio futures *)

(** An entry of [_ReplyFuture._results]: a result, or an [Exception]
    instance. *)
Inductive Reply : Type :=
| Res (v : Value)
| Exc (e : Exception).

(** [asyncio.Future] *)
Inductive AioFuture : Type :=
| Pending
| Finished (v : Value)
| Failed (e : Exception).

Module ReplyFuture.
Record t : Type := mk {
  _xid : Z;
  _results : list Reply;
  _future : option nat;
  _done : bool
}.
End ReplyFuture.

Record Heap : Type := mkHeap {
  handles : list ReplyFuture.t;
  futures : list AioFuture
}.

Abbreviation HM := (M Exception Heap).

Definition load (self : nat) : HM ReplyFuture.t :=
  λ h, match handles h !! self with
       | Some o => (Ok o, h)
       | None => (Raise ReferenceError, h)
       end.

Definition store (self : nat) (o : ReplyFuture.t) : HM unit :=
  modify (λ h, mkHeap (<[self := o]> (handles h)) (futures h)).

(** [asyncio.Future()] *)
Definition aio_new : HM nat :=
  λ h, (Ok (length (futures h)), mkHeap (handles h) (futures h ++ [Pending])).

(** [asyncio.Future.set_result] / [set_exception]: only a pending future
    can be resolved. *)
Definition aio_resolve (f : nat) (st : AioFuture) : HM unit :=
  λ h, match futures h !! f with
       | Some Pending => (Ok tt, mkHeap (handles h) (<[f := st]> (futures h)))
       | Some _ => (Raise (InvalidStateError "invalid state"), h)
       | None => (Raise ReferenceError, h)
       end.

(** A coroutine suspended on future [f] is resumed. *)
Definition resume (f : nat) : HM Value :=
  λ h, match futures h !! f with
       | Some (Finished v) => (Ok v, h)
       | Some (Failed e) => (Raise e, h)
       | Some Pending => (Blocked f, h)
       | None => (Raise ReferenceError, h)
       end.

(** *** [class _ReplyFuture] *)

(** [__init__] *)
Definition _ReplyFuture (xid : Z) : HM nat :=
  λ h, (Ok (length (handles h)),
        mkHeap (handles h ++ [ReplyFuture.mk xid [] None false]) (futures h)).

Definition done (self : nat) : HM bool :=
  let! o := load self in
  ret (match ReplyFuture._results o with [] => true | _ => false end
       && ReplyFuture._done o).

Definition set_done (self : nat) : HM unit :=
  let! o := load self in
  assert (negb (ReplyFuture._done o)) AssertionError ;;;
  store self (ReplyFuture.mk (ReplyFuture._xid o) (ReplyFuture._results o)
                (ReplyFuture._future o) true).

(** [set_result] and [set_exception] share their body; the assertion on
    the class of the argument holds by typing. *)
Definition deliver (self : nat) (r : Reply) : HM unit :=
  let! o := load self in
  match ReplyFuture._future o with
  | None =>
      store self (ReplyFuture.mk (ReplyFuture._xid o)
                    (ReplyFuture._results o ++ [r])
                    (ReplyFuture._future o) (ReplyFuture._done o))
  | Some f =>
      aio_resolve f (match r with Res v => Finished v | Exc e => Failed e end) ;;;
      store self (ReplyFuture.mk (ReplyFuture._xid o) (ReplyFuture._results o)
                    None (ReplyFuture._done o))
  end.

Definition set_result (self : nat) (result : Value) : HM unit :=
  deliver self (Res result).

Definition set_exception (self : nat) (exc : Exception) : HM unit :=
  deliver self (Exc exc).

(** The message of the [InvalidStateError] of [__await__]; the word
    await is in double quotes (character 34). *)
Definition await_too_many_times : string :=
  String.append "Called "
    (String "034"
       (String.append "await"
          (String "034" " too many times on _ReplyFuture"))).

(** What [__await__] hands back: the coroutine [_immediate_result(r)], or
    the asyncio future it has just installed. *)
Inductive Awaitable : Type :=
| Immediate (r : Reply)
| OnFuture (f : nat).

Definition __await__ (self : nat) : HM Awaitable :=
  let! o := load self in
  assert (match ReplyFuture._future o with None => true | Some _ => false end)
    AssertionError ;;;
  match ReplyFuture._results o with
  | r :: rest =>
      store self (ReplyFuture.mk (ReplyFuture._xid o) rest
                    (ReplyFuture._future o) (ReplyFuture._done o)) ;;;
      ret (Immediate r)
  | [] =>
      if ReplyFuture._done o then
        raise (InvalidStateError await_too_many_times)
      else
        let! f := aio_new in
        store self (ReplyFuture.mk (ReplyFuture._xid o) (ReplyFuture._results o)
                      (Some f) (ReplyFuture._done o)) ;;;
        ret (OnFuture f)
  end.

Definition _immediate_result (r : Reply) : HM Value :=
  match r with
  | Exc e => raise e
  | Res v => ret v
  end.

(** [await self] when nothing else runs before the coroutine goes on. *)
Definition await (self : nat) : HM Value :=
  let! a := __await__ self in
  match a with
  | Immediate r => _immediate_result r
  | OnFuture f => resume f
  end.

Definition __anext__ (self : nat) : HM Value :=
  let! d := done self in
  if d then raise StopAsyncIteration else await self.

(** [async for reply in self]: the replies handed to the loop body and
    the way the loop ends. *)
Inductive LoopEnd : Type :=
| LoopDone
| LoopRaised (e : Exception)
| LoopBlocked (f : nat)
| LoopOutOfFuel.

Fixpoint async_for (fuel : nat) (self : nat) (h : Heap)
    : list Value * LoopEnd * Heap :=
  match fuel with
  | O => ([], LoopOutOfFuel, h)
  | S fuel' =>
      match __anext__ self h with
      | (Ok v, h') =>
          let '(vs, e, h'') := async_for fuel' self h' in (v :: vs, e, h'')
      | (Raise StopAsyncIteration, h') => ([], LoopDone, h')
      | (Raise e, h') => ([], LoopRaised e, h')
      | (Blocked f, h') => ([], LoopBlocked f, h')
      end
  end.

(** *** [class Controller] *)

Definition _XID_TIMEOUT : Q := 10.0.
Definition _IDLE_INTERVAL : Q := 1.0.
Definition _MIN_XID : Z := 8092.
Definition _MAX_XID : Z := 0xFFFFFFFF.
Definition _API_VERSION : Z := 1.

(** An [asyncio.Task], known by its identity. *)
Definition Task : Type := nat.

Inductive Level : Type := ERROR | WARNING.

(** How the backend treats one RPC request: it answers with a result, it
    answers with an error, or it never answers and the sweeper ages the
    request out. *)
Inductive RpcOutcome : Type :=
| Replies (result : Value)
| Fails (error : Value)
| Silent.

(** The attributes of the controller the modelled methods use ([_conn],
    once made, is the connection with the frames sent over it), the
    object store, what the controller hands to its collaborators
    ([task.cancel()] calls, log records of level error and warning; debug
    and info records are left out), and its environment (the loop's clock
    and the backend's behaviour). *)
Record Controller : Type := mkController {
  _xid : Z;
  _reqs : PyDict.dict Z (nat * Q);
  _event_queue : option (list Value);
  _ofp_versions : Value;
  _tls_id : Value;
  _tasks : PyDict.dict string (list Task);
  _phase : string;
  _conn : option (list Value);
  heap : Heap;
  cancel_calls : list Task;
  logged : list (Level * string);
  clock : Q;
  backend : list RpcOutcome
}.

Abbreviation CM := (M Exception Controller).

Definition with_xid (v : Z) (c : Controller) : Controller :=
  mkController v (_reqs c) (_event_queue c) (_ofp_versions c) (_tls_id c)
    (_tasks c) (_phase c) (_conn c) (heap c) (cancel_calls c) (logged c)
    (clock c) (backend c).

Definition with_reqs (v : PyDict.dict Z (nat * Q)) (c : Controller) : Controller :=
  mkController (_xid c) v (_event_queue c) (_ofp_versions c) (_tls_id c)
    (_tasks c) (_phase c) (_conn c) (heap c) (cancel_calls c) (logged c)
    (clock c) (backend c).

Definition with_event_queue (v : option (list Value)) (c : Controller) : Controller :=
  mkController (_xid c) (_reqs c) v (_ofp_versions c) (_tls_id c)
    (_tasks c) (_phase c) (_conn c) (heap c) (cancel_calls c) (logged c)
    (clock c) (backend c).

Definition with_ofp_versions (v : Value) (c : Controller) : Controller :=
  mkController (_xid c) (_reqs c) (_event_queue c) v (_tls_id c)
    (_tasks c) (_phase c) (_conn c) (heap c) (cancel_calls c) (logged c)
    (clock c) (backend c).

Definition with_tls_id (v : Value) (c : Controller) : Controller :=
  mkController (_xid c) (_reqs c) (_event_queue c) (_ofp_versions c) v
    (_tasks c) (_phase c) (_conn c) (heap c) (cancel_calls c) (logged c)
    (clock c) (backend c).

Definition with_tasks (v : PyDict.dict string (list Task)) (c : Controller) : Controller :=
  mkController (_xid c) (_reqs c) (_event_queue c) (_ofp_versions c) (_tls_id c)
    v (_phase c) (_conn c) (heap c) (cancel_calls c) (logged c)
    (clock c) (backend c).

Definition with_phase (v : string) (c : Controller) : Controller :=
  mkController (_xid c) (_reqs c) (_event_queue c) (_ofp_versions c) (_tls_id c)
    (_tasks c) v (_conn c) (heap c) (cancel_calls c) (logged c)
    (clock c) (backend c).

Definition with_heap (v : Heap) (c : Controller) : Controller :=
  mkController (_xid c) (_reqs c) (_event_queue c) (_ofp_versions c) (_tls_id c)
    (_tasks c) (_phase c) (_conn c) v (cancel_calls c) (logged c)
    (clock c) (backend c).

Definition with_conn (v : option (list Value)) (c : Controller) : Controller :=
  mkController (_xid c) (_reqs c) (_event_queue c) (_ofp_versions c) (_tls_id c)
    (_tasks c) (_phase c) v (heap c) (cancel_calls c) (logged c)
    (clock c) (backend c).

Definition with_cancel_calls (v : list Task) (c : Controller) : Controller :=
  mkController (_xid c) (_reqs c) (_event_queue c) (_ofp_versions c) (_tls_id c)
    (_tasks c) (_phase c) (_conn c) (heap c) v (logged c)
    (clock c) (backend c).

Definition with_logged (v : list (Level * string)) (c : Controller) : Controller :=
  mkController (_xid c) (_reqs c) (_event_queue c) (_ofp_versions c) (_tls_id c)
    (_tasks c) (_phase c) (_conn c) (heap c) (cancel_calls c) v
    (clock c) (backend c).

Definition with_clock (v : Q) (c : Controller) : Controller :=
  mkController (_xid c) (_reqs c) (_event_queue c) (_ofp_versions c) (_tls_id c)
    (_tasks c) (_phase c) (_conn c) (heap c) (cancel_calls c) (logged c)
    v (backend c).

Definition with_backend (v : list RpcOutcome) (c : Controller) : Controller :=
  mkController (_xid c) (_reqs c) (_event_queue c) (_ofp_versions c) (_tls_id c)
    (_tasks c) (_phase c) (_conn c) (heap c) (cancel_calls c) (logged c)
    (clock c) v.

(** A method of a stored object, run from the controller. *)
Definition on_heap {A} (m : HM A) : CM A := zoom heap with_heap m.

Definition LOGGER (lvl : Level) (msg : string) : CM unit :=
  modify (λ c, with_logged (logged c ++ [(lvl, msg)]) c).

(** [__init__], with the environment the controller starts in. *)
Definition init (now : Q) (script : list RpcOutcome) : Controller :=
  mkController _MIN_XID PyDict.empty None (VList []) (VInt 0) PyDict.empty
    "INIT" None (mkHeap [] []) [] [] now script.

(** [_timestamp()] *)
Definition _timestamp : CM Q := gets clock.

Definition _post_event (event : Value) : CM unit :=
  assert (is_ObjectView event) AssertionError ;;;
  let! q := gets _event_queue in
  match q with
  | None => raise (AttributeError "put_nowait")
  | Some evs => modify (with_event_queue (Some (evs ++ [event])))
  end.

Definition _next_xid : CM Z :=
  let! x := gets _xid in
  if bool_decide (x = _MAX_XID) then
    modify (with_xid _MIN_XID) ;;;
    gets _xid
  else
    modify (with_xid (x + 1)) ;;;
    gets _xid.

(** [_write]: [dump_event] is the identity on events here; the frame goes
    to the connection, and there is none before [_run] has made it. *)
Definition _write (event : Value) (xid : option Z) : CM (option nat) :=
  let! conn := gets _conn in
  match conn with
  | None => raise (AttributeError "write")
  | Some frames => modify (with_conn (Some (frames ++ [event])))
  end ;;;
  match xid with
  | None => ret None
  | Some xid =>
      assert (bool_decide (xid > 0)) AssertionError ;;;
      let! fut := on_heap (_ReplyFuture xid) in
      let! now := _timestamp in
      let expiration := (now + _XID_TIMEOUT)%Q in
      modify (λ c, with_reqs (PyDict.setitem (_reqs c) xid (fut, expiration)) c) ;;;
      ret (Some fut)
  end.

Definition _rpc_call (method : string) (params : list (string * Value))
    : CM (option nat) :=
  let! xid := _next_xid in
  let event := VObj [("id", VInt xid); ("method", VStr method);
                     ("params", VObj params)] in
  _write event (Some xid).

(** [_event_has_more]: the [AttributeError] of a missing [type] or
    [flags], or of a [type] without [startswith], gives [False]; a
    [flags] that supports no [in] raises [TypeError], which is not
    caught.  The function does not touch the controller. *)
Definition _event_has_more (event : Value) : Result Exception bool :=
  match getattr event "type" with
  | Some (VStr t) =>
      if String.prefix "REPLY." t then
        match getattr event "flags" with
        | Some (VList items) =>
            Ok (existsb (λ v, match v with
                              | VStr s => String.eqb s "MORE"
                              | _ => false
                              end) items)
        | Some (VStr s) => Ok (str_contains "MORE" s)
        | Some (VObj fields) =>
            Ok (match assoc fields "MORE" with Some _ => true | None => false end)
        | Some _ => Raise TypeError
        | None => Ok false
        end
      else Ok false
  | _ => Ok false
  end.

(** The key of [_reqs] a value used as xid denotes, if any ([True == 1]
    in Python); a list cannot be hashed. *)
Definition xid_key (xid : Value) : CM (option Z) :=
  match xid with
  | VInt n => ret (Some n)
  | VBool b => ret (Some (Z.b2z b))
  | VList _ => raise TypeError
  | _ => ret None
  end.

Definition _handle_xid (event : Value) (xid : Value)
    (except_class : option ExceptClass) : CM bool :=
  let! key := xid_key xid in
  let! reqs := gets _reqs in
  match key ≫= (λ k, (λ e, (k, e)) <$> PyDict.get reqs k) with
  | None => ret false
  | Some (xid, (fut, _)) =>
      match except_class with
      | Some cls => on_heap (set_exception fut (instantiate cls event))
      | None => on_heap (set_result fut event)
      end ;;;
      let! more := lift (_event_has_more event) in
      (if negb more || bool_decide (is_Some except_class) then
         on_heap (set_done fut) ;;;
         modify (λ c, with_reqs (PyDict.delitem (_reqs c) xid) c)
       else ret tt) ;;;
      ret true
  end.

Definition _handle_rpc_reply (event : Value) : CM unit :=
  let! '(result, except_class) :=
    (if has_key event "result" then
       match getattr event "result" with
       | Some r => ret (r, None)
       | None => raise (AttributeError "result")
       end
     else ret (event, Some RPC)) in
  let! id := match getattr event "id" with
             | Some i => ret i
             | None => raise (AttributeError "id")
             end in
  let! found := _handle_xid result id except_class in
  if found then ret tt
  else LOGGER WARNING "Unrecognized id in RPC reply: %s".

(** [_idle], called by the loop once a second; re-arming the timer is
    left to the loop. *)
Definition _idle : CM unit :=
  let! now := _timestamp in
  let! reqs := gets _reqs in
  let timed_out :=
    omap (λ '(xid, (fut, expiration)),
            if Qle_bool expiration now then Some (xid, fut) else None)
         (PyDict.items reqs) in
  for_each timed_out (λ '(xid, fut),
    on_heap (set_exception fut (TimeoutException xid)) ;;;
    modify (λ c, with_reqs (PyDict.delitem (_reqs c) xid) c)).

(** [task.cancel()] *)
Definition cancel (task : Task) : CM unit :=
  modify (λ c, with_cancel_calls (cancel_calls c ++ [task]) c).

Definition _cancel_tasks (scope_key : string) : CM unit :=
  (if bool_decide (scope_key = "START") || bool_decide (scope_key = "STOP") then
     let! tasks := gets _tasks in
     for_each (PyDict.values tasks) (λ task_list, for_each task_list cancel)
   else ret tt) ;;;
  let! tasks := gets _tasks in
  match PyDict.get tasks scope_key with
  | Some task_list => for_each task_list cancel
  | None => ret tt
  end.

Definition _set_phase (phase : string) : CM unit :=
  let! old := gets _phase in
  (if negb (bool_decide (old = "PRESTART")) then _cancel_tasks old
   else ret tt) ;;;
  modify (with_phase phase) ;;;
  let! q := gets _event_queue in
  match q with
  | Some _ => _post_event (make_event phase)
  | None => ret tt
  end.

(** [_ensure_future]: [task] is the task [asyncio.ensure_future] has made
    for the wrapped coroutine; an empty or missing scope key means the
    current phase.  [_tasks] is a [defaultdict(list)]. *)
Definition _ensure_future (task : Task) (scope_key : option string) : CM Task :=
  let! scope_key :=
    match scope_key with
    | Some k => if bool_decide (k = "") then gets _phase else ret k
    | None => gets _phase
    end in
  modify (λ c, with_tasks
                 (PyDict.setitem (_tasks c) scope_key
                    (default [] (PyDict.get (_tasks c) scope_key) ++ [task])) c) ;;;
  ret task.

(** *** The start sequence

    [_start] is a coroutine: at each [await] of an RPC it is suspended on
    the asyncio future of the handle, the event loop runs, and it goes on
    with what the future then holds.  Between suspension and resumption
    the backend treats the request as its script says, and the controller
    handles that in the event loop's task ([_handle_rpc_reply]) or in the
    timer ([_idle]). *)

(** Work done in another task: its exceptions are not the coroutine's. *)
Definition in_other_task (m : CM unit) : CM unit :=
  λ c, (Ok tt, (m c).2).

Definition backend_answers (xid : Z) : CM unit :=
  let! script := gets backend in
  match script with
  | [] => ret tt
  | outcome :: rest =>
      modify (with_backend rest) ;;;
      match outcome with
      | Replies result =>
          _handle_rpc_reply (VObj [("id", VInt xid); ("result", result)])
      | Fails error =>
          _handle_rpc_reply (VObj [("id", VInt xid); ("error", error)])
      | Silent =>
          modify (λ c, with_clock (clock c + _XID_TIMEOUT)%Q c) ;;;
          _idle
      end
  end.

(** [await fut] in a coroutine of the controller. *)
Definition await_reply (fut : option nat) : CM Value :=
  match fut with
  | None => raise TypeError
  | Some fut =>
      let! a := on_heap (__await__ fut) in
      match a with
      | Immediate r => on_heap (_immediate_result r)
      | OnFuture f =>
          let! o := on_heap (load fut) in
          in_other_task (backend_answers (ReplyFuture._xid o)) ;;;
          on_heap (resume f)
      end
  end.

(** [obj.k] *)
Definition attr (obj : Value) (k : string) : CM Value :=
  match getattr obj k with
  | Some v => ret v
  | None => raise (AttributeError k)
  end.

(** [d[k]] *)
Definition item (d : list (string * Value)) (k : string) : CM Value :=
  match assoc d k with
  | Some v => ret v
  | None => raise (KeyError k)
  end.

(** [v > n] for an integer [n] *)
Definition py_gt (v : Value) (n : Z) : CM bool :=
  match v with
  | VInt m => ret (bool_decide (m > n))
  | VBool b => ret (bool_decide (Z.b2z b > n))
  | _ => raise TypeError
  end.

Definition _get_description : CM unit :=
  try_except
    (let! fut := _rpc_call "OFP.DESCRIPTION" [] in
     let! result := await_reply fut in
     let! major := attr result "major_version" in
     let! unsupported := py_gt major _API_VERSION in
     (if unsupported then
        let! _ := attr result "minor_version" in
        LOGGER ERROR "Unsupported API version %d.%d" ;;;
        raise (ValueError "Unsupported API version")
      else ret tt) ;;;
     let! versions := attr result "ofp_versions" in
     modify (with_ofp_versions versions) ;;;
     let! _ := attr result "software_version" in
     ret tt)
    is_ControllerException
    (λ ex,
       LOGGER ERROR "Unable to get description from libofp %s" ;;;
       raise ex).

Definition _configure_tls (security : list (string * Value)) : CM unit :=
  try_except
    (let! cert := item security "cert" in
     let! cafile := item security "cafile" in
     let password := default (VStr "") (assoc security "password") in
     let! fut := _rpc_call "OFP.ADD_IDENTITY"
                   [("certificate", cert); ("verifier", cafile);
                    ("password", password)] in
     let! result := await_reply fut in
     let! params := attr result "params" in
     let! tls_id := attr params "tls_id" in
     modify (with_tls_id tls_id))
    is_ControllerException
    (λ ex,
       LOGGER ERROR "Unable to create TLS identity: %s" ;;;
       raise ex).

Definition _listen_on_endpoints (listen_endpoints : list Value) : CM unit :=
  let options := VList [VStr "FEATURES_REQ"] in
  let! ofversion := gets _ofp_versions in
  try_except
    (for_each listen_endpoints (λ endpt,
       let! tls_id := gets _tls_id in
       let! fut := _rpc_call "OFP.LISTEN"
                     [("endpoint", endpt); ("versions", ofversion);
                      ("tls_id", tls_id); ("options", options)] in
       let! result := await_reply fut in
       let! _ := attr result "conn_id" in
       ret tt))
    is_ControllerException
    (λ ex,
       LOGGER ERROR "Unable to listen on %s: %s" ;;;
       raise ex).

(** [_start]: an empty [security] or [listen_endpoints] is false, as is
    [None]. *)
Definition _start (listen_endpoints : list Value)
    (security : list (string * Value)) : CM unit :=
  try_except
    (_get_description ;;;
     (match security with
      | [] => ret tt
      | _ => _configure_tls security
      end) ;;;
     (match listen_endpoints with
      | [] => ret tt
      | _ => _listen_on_endpoints listen_endpoints
      end) ;;;
     _set_phase "START")
    is_ControllerException
    (λ _,
       _post_event (make_event "STARTFAIL") ;;;
       _post_event (make_event "EXIT")).

(** [_run] up to the point where it starts [_start], the event loop and
    the read loop: the queue is made, the connection opened, and the phase
    becomes PRESTART. *)
Definition _run_enter : CM unit :=
  modify (with_event_queue (Some [])) ;;;
  modify (with_conn (Some [])) ;;;
  _set_phase "PRESTART".

(** [_run] after the read loop has ended. *)
Definition _run_exit : CM unit :=
  _set_phase "STOP" ;;;
  modify (with_event_queue None).

(** [_shutdown_cleanly]: whatever the pending tasks do, the [finally]
    clause sets the last phase. *)
Definition _shutdown_cleanly : CM unit :=
  _set_phase "POSTSTOP".

End Pylibofp.

(** ** [zof/controller.py] *)

Module Zof.
Import Py Json.
Local Open Scope py_scope.

(** *** Events, keys and strings *)

(** An event is a [dict] from strings to decoded JSON. *)
Definition Event : Type := list (string * Value).

(** The hashable values, as keys of the connection table. *)
Inductive Key : Type :=
| KNone
| KInt (n : Z)
| KStr (s : string).

#[global] Instance Key_eq_dec : EqDecision Key.
Proof. solve_decision. Defined.

(** [hash(v)] succeeds; lists and dicts cannot be hashed. *)
Definition hashable (v : Value) : option Key :=
  match v with
  | VNone => Some KNone
  | VBool b => Some (KInt (Z.b2z b))
  | VInt n => Some (KInt n)
  | VStr s => Some (KStr s)
  | VList _ | VObj _ => None
  end.

(** [s.lower()] on ASCII letters *)
Definition lower_ascii (a : ascii) : ascii :=
  let n := nat_of_ascii a in
  if (65 <=? n)%nat && (n <=? 90)%nat then ascii_of_nat (n + 32) else a.

Fixpoint lower (s : string) : string :=
  match s with
  | EmptyString => EmptyString
  | String a rest => String (lower_ascii a) (lower rest)
  end.

(** [s.replace(':', '')] *)
Fixpoint remove_colons (s : string) : string :=
  match s with
  | EmptyString => EmptyString
  | String a rest =>
      if Ascii.eqb a ":" then remove_colons rest
      else String a (remove_colons rest)
  end.

Definition hex_digit (a : ascii) : option Z :=
  let n := Z.of_nat (nat_of_ascii a) in
  if (48 <=? n) && (n <=? 57) then Some (n - 48)
  else if (97 <=? n) && (n <=? 102) then Some (n - 87)
  else if (65 <=? n) && (n <=? 70) then Some (n - 55)
  else None.

Fixpoint hex_digits (s : string) (acc : Z) : option Z :=
  match s with
  | EmptyString => Some acc
  | String a rest =>
      match hex_digit a with
      | Some d => hex_digits rest (16 * acc + d)
      | None => None
      end
  end.

(** [int(s, 16)] on a plain run of hexadecimal digits, which is what a
    datapath id without its colons is; [None] stands for the
    [ValueError].  (Python's [int] would also take a sign, a [0x] prefix,
    surrounding blanks and single underscores.) *)
Definition int16 (s : string) : option Z :=
  match s with
  | EmptyString => None
  | _ => hex_digits s 0
  end.

(** *** Exceptions

    The exceptions of the model are instances of [Exception], which is
    what the [except Exception] clauses of the controller catch.  The
    cancellation of the task of [run] is modelled where the event loop
    waits for its queue, and nowhere else. *)

Inductive Exception : Type :=
| AssertionError
| AttributeError (name : string)
| KeyError (key : Key)
| TypeError
| ValueError (msg : string)
| RuntimeError (msg : string)
| ReferenceError
| UserError (msg : string).

(** *** Apps

    An app is an object with methods; [getattr(app, name, None)] finds
    them by name.  A method is a coroutine function or a plain one, and
    called it returns or raises.  Apps are passive: what a method does to
    the rest of the program is not part of the model. *)

Inductive Args : Type :=
| NoArgs
| EventArgs (dp : option nat) (event : Event)
| ExcArgs (exc : Exception).

Record Method : Type := mkMethod {
  is_coroutine : bool;
  behaviour : Args → option Exception
}.

Definition App : Type := list (string * Method).

Fixpoint getattr (app : App) (name : string) : option Method :=
  match app with
  | [] => None
  | (n, m) :: rest => if String.eqb n name then Some m else getattr rest name
  end.

(** What the handler cache holds: a bound method of an app, or the
    controller's own [on_channel_alert]. *)
Inductive Handler : Type :=
| AppHandler (app : nat) (name : string) (m : Method)
| default_on_channel_alert.

(** *** Datapaths, tasks and configuration *)

Definition Task : Type := nat.

(** Modelled from the spec: [zof/datapath.py] is missing from the
    sources.  A datapath holds its two keys, the [closed] flag, the tasks
    of its scope, the channel-up snapshot and what the port-status hook
    has been given. *)
Record Datapath : Type := mkDatapath {
  conn_id : Value;
  id : Z;
  closed : bool;
  zof_tasks : list Task;
  channel_up : option Event;
  port_status : list Event
}.

(** Modelled from the spec: [zof/configuration.py] is missing from the
    sources; these are the settings the controller reads. *)
Record Configuration : Type := mkConfiguration {
  listen_endpoints : list Value;
  listen_versions : list Z;
  tls_cert : string;
  tls_cacert : string;
  tls_privkey : string
}.

(** The code of the repository that the controller calls and that is not
    in the sources, taken as parameters: the packet normalisation hook
    (it rewrites the event), and the driver, an instance of the class
    the configuration names: its two RPCs, and what entering and leaving
    its context raise, if anything ([__aenter__] and [__aexit__];
    those of the [Driver] of [zof/driver.py] assert that the driver is
    not open, or is, and start or stop the subprocess). *)
Class Collaborators : Type := {
  Packet_zof_from_packet_in : Event → Exception + Event;
  Driver_add_identity : string → string → string → Exception + Value;
  Driver_listen : Value → list Z → Value → Exception + Value;
  Driver_aenter : option Exception;
  Driver_aexit : option Exception
}.

(** *** The controller *)

Inductive Level : Type := DEBUG | WARNING | CRITICAL.

(** What the controller does to the world, in order: calls of app
    methods, [task.cancel()], waiting for cancelled tasks, log records
    (the debug records of [ZOFDEBUG] are left out), and the cooperative
    yield of the event loop. *)
Inductive Effect : Type :=
| Called (app : nat) (name : string) (args : Args)
| Cancelled (task : Task)
| WaitCancelled (timeout : Q)
| Logged (lvl : Level) (msg : string) (exc : option Exception)
| Yielded.

Definition EXIT_STATUS_OKAY : Z := 0.
Definition EXIT_STATUS_ERROR : Z := 10.

(** [_tasks] is [None] outside [run]; inside, the [TaskList] is the list
    of its tasks.  Datapaths are shared objects: both indexes hold the
    address of the datapath in [datapaths]. *)
Record Controller : Type := mkController {
  apps : list App;
  _config : Configuration;
  _connections : PyDict.dict Key nat;
  _dpids : gmap Z nat;
  _tasks : option (list Task);
  _handler_cache : gmap string (list Handler);
  datapaths : list Datapath;
  trace : list Effect
}.

Abbreviation CM := (M Exception Controller).

Definition with_connections (v : PyDict.dict Key nat) (c : Controller) : Controller :=
  mkController (apps c) (_config c) v (_dpids c) (_tasks c)
    (_handler_cache c) (datapaths c) (trace c).

Definition with_dpids (v : gmap Z nat) (c : Controller) : Controller :=
  mkController (apps c) (_config c) (_connections c) v (_tasks c)
    (_handler_cache c) (datapaths c) (trace c).

Definition with_tasks (v : option (list Task)) (c : Controller) : Controller :=
  mkController (apps c) (_config c) (_connections c) (_dpids c) v
    (_handler_cache c) (datapaths c) (trace c).

Definition with_handler_cache (v : gmap string (list Handler)) (c : Controller) : Controller :=
  mkController (apps c) (_config c) (_connections c) (_dpids c) (_tasks c)
    v (datapaths c) (trace c).

Definition with_datapaths (v : list Datapath) (c : Controller) : Controller :=
  mkController (apps c) (_config c) (_connections c) (_dpids c) (_tasks c)
    (_handler_cache c) v (trace c).

Definition with_trace (v : list Effect) (c : Controller) : Controller :=
  mkController (apps c) (_config c) (_connections c) (_dpids c) (_tasks c)
    (_handler_cache c) (datapaths c) v.

Definition emit (e : Effect) : CM unit :=
  modify (λ c, with_trace (trace c ++ [e]) c).

Definition of_sum {A} (r : Exception + A) : CM A :=
  match r with
  | inl e => raise e
  | inr a => ret a
  end.

(** A call that raises [e], if there is an [e], and returns otherwise. *)
Definition raised (e : option Exception) : CM unit :=
  match e with
  | Some e => raise e
  | None => ret tt
  end.

(** [event[k]] *)
Definition item (event : Event) (k : string) : CM Value :=
  match assoc event k with
  | Some v => ret v
  | None => raise (KeyError (KStr k))
  end.

(** [v == s] for a string literal [s] *)
Definition is_str (v : Value) (s : string) : bool :=
  match v with
  | VStr t => String.eqb t s
  | _ => false
  end.

(** The key a value denotes in a dictionary operation. *)
Definition key_of (v : Value) : CM Key :=
  match hashable v with
  | Some k => ret k
  | None => raise TypeError
  end.

(** Reading and writing a datapath object. *)
Definition load (dp : nat) : CM Datapath :=
  λ c, match datapaths c !! dp with
       | Some o => (Ok o, c)
       | None => (Raise ReferenceError, c)
       end.

Definition store (dp : nat) (o : Datapath) : CM unit :=
  modify (λ c, with_datapaths (<[dp := o]> (datapaths c)) c).

(** [dp.closed = True] *)
Definition set_closed (dp : nat) : CM unit :=
  let! o := load dp in
  store dp (mkDatapath (conn_id o) (id o) true (zof_tasks o)
              (channel_up o) (port_status o)).

(** [Datapath(self, conn_id, dp_id)] *)
Definition new_Datapath (conn : Value) (dp_id : Z) : CM nat :=
  λ c, (Ok (length (datapaths c)),
        with_datapaths
          (datapaths c ++ [mkDatapath conn dp_id false [] None []]) c).

(** Modelled from the spec: [Datapath.zof_from_channel_up] (missing)
    keeps the channel-up snapshot. *)
Definition zof_from_channel_up (dp : nat) (event : Event) : CM unit :=
  let! o := load dp in
  store dp (mkDatapath (conn_id o) (id o) (closed o) (zof_tasks o)
              (Some event) (port_status o)).

(** Modelled from the spec: [Datapath.zof_from_port_status] (missing) is
    the port-table update hook; the datapath keeps what it was given. *)
Definition zof_from_port_status (dp : nat) (event : Event) : CM unit :=
  let! o := load dp in
  store dp (mkDatapath (conn_id o) (id o) (closed o) (zof_tasks o)
              (channel_up o) (port_status o ++ [event])).

(** Modelled from the spec: [Datapath.zof_cancel_tasks] (missing) cancels
    every task of the datapath's scope. *)
Definition zof_cancel_tasks (dp : nat) : CM unit :=
  let! o := load dp in
  for_each (zof_tasks o) (λ task, emit (Cancelled task)).

(** Modelled from the spec: [Datapath.create_task] (missing) spawns under
    the datapath's scope key. *)
Definition Datapath_create_task (dp : nat) (task : Task) : CM Task :=
  let! o := load dp in
  store dp (mkDatapath (conn_id o) (id o) (closed o) (zof_tasks o ++ [task])
              (channel_up o) (port_status o)) ;;;
  ret task.

(** Modelled from the spec: [Datapath.close] (missing): with [force], the
    datapath is marked closed and its tasks are cancelled at once. *)
Definition Datapath_close (dp : nat) (force : bool) : CM unit :=
  if force then set_closed dp ;;; zof_cancel_tasks dp else ret tt.

(** Modelled from the spec: [zof/tasklist.py] is missing from the
    sources.  [TaskList.cancel] cancels every task of the list,
    [wait_cancelled] waits for them up to the timeout, [create_task] adds
    one. *)
Definition TaskList_cancel : CM unit :=
  let! tasks := gets _tasks in
  match tasks with
  | None => raise (AttributeError "cancel")
  | Some ts => for_each ts (λ task, emit (Cancelled task))
  end.

Definition TaskList_wait_cancelled (timeout : Q) : CM unit :=
  let! tasks := gets _tasks in
  match tasks with
  | None => raise (AttributeError "wait_cancelled")
  | Some _ => emit (WaitCancelled timeout)
  end.

(** [Controller.__init__]: the apps are fixed; [_check_apps] warns about
    an app without any [on_] attribute. *)
Definition _check_apps (apps : list App) : list Effect :=
  omap (λ app : App,
          if existsb (λ '(name, _), String.prefix "on_" name) app then None
          else Some (Logged WARNING "App does not have any handlers: %r" None))
       apps.

Definition init (apps : list App) (config : Configuration) : Controller :=
  mkController apps config PyDict.empty ∅ None ∅ [] (_check_apps apps).

Definition create_task (task : Task) : CM Task :=
  let! tasks := gets _tasks in
  match tasks with
  | None => raise (RuntimeError "Controller is not running.")
  | Some ts => modify (with_tasks (Some (ts ++ [task]))) ;;; ret task
  end.

(** Calling a method of app number [app]. *)
Definition call (app : nat) (name : string) (m : Method) (args : Args) : CM unit :=
  emit (Called app name args) ;;;
  match behaviour m args with
  | Some e => raise e
  | None => ret tt
  end.

(** [on_exception]: the loop over the apps, from app number [i] on. *)
Fixpoint on_exception_from (i : nat) (apps : list App) (exc : Exception) : CM unit :=
  match apps with
  | [] => emit (Logged CRITICAL "Exception in zof handler: %r" (Some exc))
  | app :: rest =>
      match getattr app "on_exception" with
      | Some exc_handler =>
          assert (negb (is_coroutine exc_handler)) AssertionError ;;;
          call i "on_exception" exc_handler (ExcArgs exc)
      | None => on_exception_from (S i) rest exc
      end
  end.

Definition on_exception (exc : Exception) : CM unit :=
  let! apps := gets apps in
  on_exception_from 0 apps exc.

(** [on_channel_alert], the default handler *)
Definition on_channel_alert (dp : option nat) (event : Event) : CM unit :=
  emit (Logged WARNING "CHANNEL_ALERT %r %r" None).

(** [zof_find_handlers]: the loop over the apps, from app number [i]. *)
Fixpoint collect_handlers (i : nat) (apps : list App) (handler_name : string)
    : CM (list Handler) :=
  match apps with
  | [] => ret []
  | app :: rest =>
      match getattr app handler_name with
      | Some handler =>
          assert (negb (is_coroutine handler)) AssertionError ;;;
          let! handlers := collect_handlers (S i) rest handler_name in
          ret (AppHandler i handler_name handler :: handlers)
      | None => collect_handlers (S i) rest handler_name
      end
  end.

Definition zof_find_handlers (event_type : Value) : CM (list Handler) :=
  let! handler_name :=
    match event_type with
    | VStr t => ret ("on_" +:+ lower t)
    | _ => raise (AttributeError "lower")
    end in
  let! cache := gets _handler_cache in
  match cache !! handler_name with
  | Some handlers => ret handlers
  | None =>
      let! apps := gets apps in
      let! found := collect_handlers 0 apps handler_name in
      let handlers :=
        if String.eqb handler_name "on_channel_alert"
           && match found with [] => true | _ => false end
        then found ++ [default_on_channel_alert]
        else found in
      modify (λ c, with_handler_cache (<[handler_name := handlers]> (_handler_cache c)) c) ;;;
      ret handlers
  end.

(** [handler(dp, event)] *)
Definition invoke (handler : Handler) (dp : option nat) (event : Event) : CM unit :=
  match handler with
  | AppHandler app name m => call app name m (EventArgs dp event)
  | default_on_channel_alert => on_channel_alert dp event
  end.

Definition zof_dispatch_event (event_type : Value) (dp : option nat)
    (event : Event) : CM unit :=
  let! handlers := zof_find_handlers event_type in
  for_each handlers (λ handler,
    try_except (invoke handler dp event) (λ _, true) on_exception).

Definition zof_channel_up (event : Event) : CM nat :=
  let! conn := item event "conn_id" in
  let! dpid_str := item event "datapath_id" in
  let! dp_id :=
    match dpid_str with
    | VStr s =>
        match int16 (remove_colons s) with
        | Some n => ret n
        | None => raise (ValueError "invalid literal for int() with base 16")
        end
    | _ => raise (AttributeError "replace")
    end in
  let! key := key_of conn in
  let! conns := gets _connections in
  assert (negb (PyDict.contains conns key)) AssertionError ;;;
  let! dpids := gets _dpids in
  assert (bool_decide (dpids !! dp_id = None)) AssertionError ;;;
  let! dp := new_Datapath conn dp_id in
  zof_from_channel_up dp event ;;;
  modify (λ c, with_connections (PyDict.setitem (_connections c) key dp) c) ;;;
  modify (λ c, with_dpids (<[dp_id := dp]> (_dpids c)) c) ;;;
  ret dp.

Definition zof_channel_down (event : Event) : CM (option nat) :=
  let! conn := item event "conn_id" in
  let! key := key_of conn in
  let! conns := gets _connections in
  match PyDict.pop conns key with
  | None => raise (KeyError key)
  | Some (dp, conns') =>
      modify (with_connections conns') ;;;
      let! o := load dp in
      let was_closed := closed o in
      let! dpids := gets _dpids in
      match dpids !! id o with
      | None => raise (KeyError (KInt (id o)))
      | Some _ =>
          modify (with_dpids (delete (id o) dpids)) ;;;
          zof_cancel_tasks dp ;;;
          if was_closed then ret None
          else set_closed dp ;;; ret (Some dp)
      end
  end.

Definition zof_find_dp (event : Event) : CM (option nat) :=
  match assoc event "conn_id" with
  | None | Some VNone => ret None
  | Some conn =>
      let! key := key_of conn in
      let! conns := gets _connections in
      match PyDict.get conns key with
      | Some dp => ret (Some dp)
      | None => emit (Logged WARNING "Unknown conn_id %r" None) ;;; ret None
      end
  end.

(** [_channel_down()] *)
Definition _channel_down : Event := [("type", VStr "CHANNEL_DOWN")].

Definition zof_cleanup : CM unit :=
  let! conns := gets _connections in
  for_each (PyDict.values conns) (λ dp,
    let! o := load dp in
    if negb (closed o) then
      set_closed dp ;;;
      zof_cancel_tasks dp ;;;
      zof_dispatch_event (VStr "CHANNEL_DOWN") (Some dp) _channel_down
    else ret tt) ;;;
  TaskList_cancel ;;;
  TaskList_wait_cancelled 3.0.

Definition zof_invoke_lifecycle (event_type : string) : CM unit :=
  let handler_name := "on_" +:+ lower event_type in
  let! apps := gets apps in
  for_each (imap (λ i app, (i, app)) apps) (λ '(i, app),
    match getattr app handler_name with
    | Some handler => call i handler_name handler NoArgs
    | None => ret tt
    end).

Section WithCollaborators.
Context `{Collaborators}.

(** One turn of the loop of [zof_event_loop], from the event taken off
    the queue to the yield; [continue] ends the turn without dispatch. *)
Definition zof_event_loop_turn (event : Event) : CM unit :=
  let! event_type := item event "type" in
  let! next :=
    (if is_str event_type "CHANNEL_UP" then
       let! dp := zof_channel_up event in
       ret (Some (Some dp, event))
     else if is_str event_type "CHANNEL_DOWN" then
       let! dp := zof_channel_down event in
       match dp with
       | None => ret None
       | Some dp => ret (Some (Some dp, event))
       end
     else
       let! dp := zof_find_dp event in
       let! is_closed :=
         match dp with
         | Some a => let! o := load a in ret (closed o)
         | None => ret false
         end in
       if is_closed then ret None
       else if is_str event_type "PACKET_IN" then
         let! event' := of_sum (Packet_zof_from_packet_in event) in
         ret (Some (dp, event'))
       else
         match dp with
         | Some a =>
             (if is_str event_type "PORT_STATUS"
              then zof_from_port_status a event else ret tt) ;;;
             ret (Some (dp, event))
         | None => ret (Some (dp, event))
         end) in
  match next with
  | None => ret tt
  | Some (dp, event) =>
      zof_dispatch_event event_type dp event ;;;
      emit Yielded
  end.

(** [zof_event_loop] on the events the queue delivers before the task is
    cancelled: an exception of a turn is logged and the loop goes on; the
    cancellation ends it. *)
Fixpoint zof_event_loop (queue : list Event) : CM unit :=
  match queue with
  | [] => emit (Logged DEBUG "Event loop cancelled" None)
  | event :: rest =>
      try_except (zof_event_loop_turn event) (λ _, true)
        (λ ex, emit (Logged CRITICAL "Exception in zof_event_loop: %r" (Some ex))) ;;;
      zof_event_loop rest
  end.

(** [zof_listen]; [asyncio.gather] starts the calls in the order of the
    endpoints. *)
Definition zof_listen : CM unit :=
  let! config := gets _config in
  match listen_endpoints config with
  | [] => ret tt
  | endpoints =>
      let! tls_id :=
        (if bool_decide (tls_cert config = "") then ret (VInt 0)
         else of_sum (Driver_add_identity (tls_cert config)
                        (tls_cacert config) (tls_privkey config))) in
      for_each endpoints (λ endpoint,
        let! _ := of_sum (Driver_listen endpoint (listen_versions config) tls_id) in
        ret tt)
  end.

(** [run], for the events the queue holds until the task is cancelled.
    [zof_run_context] makes the task list on entry and drops it on exit;
    it has no [finally], so an exception that leaves the driver's
    context, on entry or on exit, leaves [run] with the task list still
    set.  The [try] block is inside the driver's context. *)
Definition run (queue : list Event) : CM Z :=
  modify (with_tasks (Some [])) ;;;
  raised Driver_aenter ;;;
  let! exit_status :=
    try_except
      (zof_invoke_lifecycle "START" ;;;
       zof_listen ;;;
       zof_event_loop queue ;;;
       zof_cleanup ;;;
       zof_invoke_lifecycle "STOP" ;;;
       ret EXIT_STATUS_OKAY)
      (λ _, true)
      (λ ex,
         emit (Logged CRITICAL "Exception in run: %r" (Some ex)) ;;;
         ret EXIT_STATUS_ERROR) in
  raised Driver_aexit ;;;
  modify (with_tasks None) ;;;
  ret exit_status.

End WithCollaborators.

End Zof.

(** ** Predicates and sample inputs for [pylibofp] *)

Module PylibofpProps.
Import Py Json Pylibofp.

(** The handle at address [fut] is in the request table. *)
Definition in_table (c : Controller) (fut : nat) : Prop :=
  ∃ xid expiration, (xid, (fut, expiration)) ∈ _reqs c.

(** The handle at address [fut] is marked done. *)
Definition marked_done (c : Controller) (fut : nat) : Prop :=
  ∃ o, handles (heap c) !! fut = Some o ∧ ReplyFuture._done o = true.

(** A registered handle is in the table and not marked done, or out of
    the table and marked done. *)
Definition tracked (c : Controller) (fut : nat) : Prop :=
  (in_table c fut ∧ ¬ marked_done c fut) ∨
  (¬ in_table c fut ∧ marked_done c fut).

(** The [_done] flags of the handles, by address. *)
Definition done_flags (h : Heap) : list bool :=
  ReplyFuture._done <$> handles h.

(** The requests [_idle] finds expired. *)
Definition timed_out (c : Controller) : list (Z * nat) :=
  omap (λ '(xid, (fut, expiration)),
          if Qle_bool expiration (clock c) then Some (xid, fut) else None)
       (PyDict.items (_reqs c)).

(** The heap with the handle at [self] replaced by [o]. *)
Definition put (self : nat) (o : ReplyFuture.t) (h : Heap) : Heap :=
  mkHeap (<[self := o]> (handles h)) (futures h).

(** The controller with the handle at [fut] replaced by [o]. *)
Definition put_handle (fut : nat) (o : ReplyFuture.t) (c : Controller)
    : Controller :=
  with_heap (put fut o (heap c)) c.

(** The event loop hands the replies [rs] for [xid] to [_handle_xid], one
    after the other. *)
Definition deliver_replies (xid : Z) (rs : list Value) : CM unit :=
  for_each rs (λ r, let! _ := _handle_xid r (VInt xid) None in ret tt)%py.

(** The task that iterates a handle with [async for]: the asyncio future
    it is suspended on, if it is; the replies its loop body has been
    given; and how the loop has ended, if it has. *)
Record Iterator : Type := mkIterator {
  suspended_on : option nat;
  received : list Value;
  finished : option LoopEnd
}.

Definition fresh_iterator : Iterator := mkIterator None [] None.

(** The iterating task gets one turn: it is resumed on the future it
    waits for, or it calls [__anext__]; a reply goes to the loop body,
    [StopAsyncIteration] ends the loop, and an unresolved future leaves
    the task suspended. *)
Definition iterator_runs (fut : nat) (k : Iterator) (h : Heap)
    : Iterator * Heap :=
  match finished k with
  | Some _ => (k, h)
  | None =>
      let '(r, h') := match suspended_on k with
                      | Some f => resume f h
                      | None => __anext__ fut h
                      end in
      match r with
      | Ok v => (mkIterator None (received k ++ [v]) None, h')
      | Raise StopAsyncIteration =>
          (mkIterator None (received k) (Some LoopDone), h')
      | Raise e => (mkIterator None (received k) (Some (LoopRaised e)), h')
      | Blocked f => (mkIterator (Some f) (received k) None, h')
      end
  end.

(** What the scheduler runs next: the event loop with a reply for the
    request, or the iterating task. *)
Inductive Turn : Type :=
| Arrives (reply : Value)
| Iterates.

Fixpoint interleave (xid : Z) (fut : nat) (schedule : list Turn)
    (k : Iterator) (c : Controller) : Iterator * Controller :=
  match schedule with
  | [] => (k, c)
  | Arrives reply :: rest =>
      interleave xid fut rest k (_handle_xid reply (VInt xid) None c).2
  | Iterates :: rest =>
      let '(k', h') := iterator_runs fut k (heap c) in
      interleave xid fut rest k' (with_heap h' c)
  end.

(** The replies of a schedule, in order. *)
Definition arrivals (schedule : list Turn) : list Value :=
  omap (λ t, match t with Arrives reply => Some reply | Iterates => None end)
       schedule.

(** The replies the iterating task has not been given yet: the one in
    the resolved future it is about to be resumed on, and the FIFO. *)
Definition owed (h : Heap) (k : Iterator) (o : ReplyFuture.t) : list Reply :=
  match suspended_on k with
  | Some f =>
      match futures h !! f with
      | Some (Finished x) => [Res x]
      | Some (Failed e) => [Exc e]
      | _ => []
      end
  | None => []
  end ++ ReplyFuture._results o.

(** The state of a handle and of the task that iterates it, after the
    replies [delivered], the last of which has arrived or not. *)
Definition iteration_inv (xid : Z) (fut : nat) (c : Controller)
    (k : Iterator) (delivered : list Value) (arrived : bool) : Prop :=
  ∃ o, handles (heap c) !! fut = Some o ∧
    ReplyFuture._done o = arrived ∧
    (arrived = false → ∃ exp, PyDict.get (_reqs c) xid = Some (fut, exp)) ∧
    (Res <$> received k) ++ owed (heap c) k o = Res <$> delivered ∧
    match finished k with
    | Some e =>
        e = LoopDone ∧ arrived = true ∧ suspended_on k = None ∧
        ReplyFuture._future o = None ∧ ReplyFuture._results o = []
    | None =>
        match suspended_on k with
        | None => ReplyFuture._future o = None
        | Some f =>
            (ReplyFuture._future o = Some f ∧
             futures (heap c) !! f = Some Pending ∧
             ReplyFuture._results o = [] ∧ arrived = false) ∨
            (ReplyFuture._future o = None ∧
             ∃ x, futures (heap c) !! f = Some (Finished x))
        end
    end.

(** The tasks [_cancel_tasks scope_key] calls [cancel()] on, in order. *)
Definition cancelled_by (c : Controller) (scope_key : string) : list Task :=
  (if bool_decide (scope_key = "START") || bool_decide (scope_key = "STOP")
   then concat (PyDict.values (_tasks c)) else []) ++
  default [] (PyDict.get (_tasks c) scope_key).

(** The result of [OFP.DESCRIPTION] for a backend of the given major API
    version. *)
Definition description (major : Z) : Value :=
  VObj [("major_version", VInt major); ("minor_version", VInt 0);
        ("ofp_versions", VList [VInt 1; VInt 4]);
        ("software_version", VStr "0.1")].

(** A controller that has entered [_run], with the given backend. *)
Definition running (script : list RpcOutcome) : Controller :=
  (_run_enter (init 0 script)).2.

(** A controller in PRESTART with task 7 in the scope of that phase. *)
Definition prestart_with_task : Controller :=
  (_ensure_future 7%nat None (running [])).2.

(** A started controller with task 3 in the scope of START and task 5 in
    the scope of a datapath. *)
Definition started_with_tasks : Controller :=
  ((_start [] [] ;;;
    _ensure_future 3%nat None ;;;
    _ensure_future 5%nat (Some "Datapath 00:00:00:00:00:00:00:01"))%py
     (running [Replies (description 1)])).2.

(** A TLS configuration. *)
Definition tls : list (string * Value) :=
  [("cert", VStr "ctl.pem"); ("cafile", VStr "ca.pem")].

(** A controller with one outstanding request, registered at time 0
    under xid 8093 with the handle at address 0. *)
Definition one_request : Controller :=
  (_rpc_call "OFP.DESCRIPTION" [] (running [])).2.

(** A multi-reply chunk: [MORE] in its flags or not. *)
Definition chunk (n : Z) (more : bool) : Value :=
  VObj [("type", VStr "REPLY.FLOW_DESC");
        ("flags", VList (if more then [VStr "MORE"] else []));
        ("msg", VInt n)].

End PylibofpProps.

(** ** Predicates and sample inputs for [zof] *)

Module ZofProps.
Import Py Json Zof.

(** The controller after the effects [l]. *)
Definition add_trace (l : list Effect) (c : Controller) : Controller :=
  with_trace (trace c ++ l) c.

(** The first app, from number [i] on, that has an attribute [name], with
    its number. *)
Fixpoint first_defining (i : nat) (apps : list App) (name : string)
    : option (nat * Method) :=
  match apps with
  | [] => None
  | app :: rest =>
      match getattr app name with
      | Some m => Some (i, m)
      | None => first_defining (S i) rest name
      end
  end.

(** Where [on_exception] sends an exception: to the first app that has
    an [on_exception], or to the log. *)
Definition routed (apps : list App) (exc : Exception) : Effect :=
  match first_defining 0 apps "on_exception" with
  | Some (i, _) => Called i "on_exception" (ExcArgs exc)
  | None => Logged CRITICAL "Exception in zof handler: %r" (Some exc)
  end.

(** The exception handler in charge is a plain function that returns. *)
Definition quiet_on_exception (apps : list App) : Prop :=
  match first_defining 0 apps "on_exception" with
  | Some (_, h) =>
      is_coroutine h = false ∧ ∀ exc, behaviour h (ExcArgs exc) = None
  | None => True
  end.

(** What the dispatch of [event] to one handler does: the call, and the
    routing of the exception if the handler raises one. *)
Definition handler_effects (apps : list App) (dp : option nat) (event : Event)
    (handler : Handler) : list Effect :=
  match handler with
  | AppHandler app name m =>
      Called app name (EventArgs dp event) ::
      match behaviour m (EventArgs dp event) with
      | Some exc => [routed apps exc]
      | None => []
      end
  | default_on_channel_alert => [Logged WARNING "CHANNEL_ALERT %r %r" None]
  end.

Definition dispatch_effects (apps : list App) (dp : option nat) (event : Event)
    (handlers : list Handler) : list Effect :=
  concat (handler_effects apps dp event <$> handlers).

(** The handlers of the apps for [name], from app number [i] on; [None]
    if one of them is a coroutine function. *)
Fixpoint handlers_of (i : nat) (apps : list App) (name : string)
    : option (list Handler) :=
  match apps with
  | [] => Some []
  | app :: rest =>
      match getattr app name with
      | Some m =>
          if is_coroutine m then None
          else (λ hs, AppHandler i name m :: hs) <$> handlers_of (S i) rest name
      | None => handlers_of (S i) rest name
      end
  end.

(** The handlers [zof_find_handlers] answers with for the handler name
    [name]: the cached ones, or those of the apps. *)
Definition found_handlers (c : Controller) (name : string)
    : option (list Handler) :=
  match _handler_cache c !! name with
  | Some hs => Some hs
  | None =>
      (λ found,
         if String.eqb name "on_channel_alert"
            && match found with [] => true | _ => false end
         then found ++ [default_on_channel_alert] else found)
      <$> handlers_of 0 (apps c) name
  end.

(** The handler returns when it is called with [dp] and [event]. *)
Definition returns (dp : option nat) (event : Event) (handler : Handler)
    : Prop :=
  match handler with
  | AppHandler _ _ m => behaviour m (EventArgs dp event) = None
  | default_on_channel_alert => True
  end.

(** The loop of [zof_dispatch_event] over [handlers]. *)
Definition dispatch_to (handlers : list Handler) (dp : option nat)
    (event : Event) : CM unit :=
  for_each handlers (λ handler,
    try_except (invoke handler dp event) (λ _, true) on_exception).

(** Methods for the examples: a plain function that returns, one that
    raises, and a coroutine function. *)
Definition returning : Method := mkMethod false (λ _, None).
Definition raising : Method := mkMethod false (λ _, Some (UserError "FAIL")).
Definition coroutine : Method := mkMethod true (λ _, None).

(** Apps for the examples: the first has a channel-up handler that
    raises, the other two have an [on_exception], and the last a
    channel-up handler as well. *)
Definition reporting_apps : list App :=
  [[("on_channel_up", raising)];
   [("on_exception", returning)];
   [("on_exception", returning); ("on_channel_up", returning)]].

(** The same with an [on_exception] in the first app that is a coroutine
    function. *)
Definition coroutine_reporting_apps : list App :=
  [[("on_channel_up", raising); ("on_exception", coroutine)];
   [("on_exception", returning)];
   [("on_exception", returning); ("on_channel_up", returning)]].

(** Collaborators for the examples: a packet hook that leaves the event
    as it is, and a driver whose calls succeed. *)
Definition plain_collaborators : Collaborators :=
  {| Packet_zof_from_packet_in := inr;
     Driver_add_identity := λ _ _ _, inr (VInt 1);
     Driver_listen := λ _ _ _, inr (VInt 1);
     Driver_aenter := None;
     Driver_aexit := None |}.

(** An app that handles channel-down and nothing else, and the controller
    made from it. *)
Definition down_app : App := [("on_channel_down", mkMethod false (λ _, None))].

Definition no_config : Configuration := mkConfiguration [] [] "" "" "".

(** The backend's events for one switch. *)
Definition up_event : Event :=
  [("type", VStr "CHANNEL_UP"); ("conn_id", VInt 2);
   ("datapath_id", VStr "00:00:00:00:00:00:00:01")].

Definition down_event : Event :=
  [("type", VStr "CHANNEL_DOWN"); ("conn_id", VInt 2)].

(** A running controller after the bookkeeping of [up_event], with task
    9 in the scope of the datapath and task 4 in the controller's own
    list. *)
Definition connected : Controller :=
  ((let! dp := zof_channel_up up_event in
    let! _ := Datapath_create_task dp 9%nat in
    create_task 4%nat)%py
     (with_tasks (Some []) (init [down_app] no_config))).2.

(** The same after the app has force-closed the datapath. *)
Definition force_closed : Controller :=
  (Datapath_close 0 true connected).2.

(** The backend's CHANNEL_UP for a second switch. *)
Definition up_event_2 : Event :=
  [("type", VStr "CHANNEL_UP"); ("conn_id", VInt 3);
   ("datapath_id", VStr "00:00:00:00:00:00:00:02")].

(** An app whose [on_channel_down] raises and whose [on_exception]
    raises as well, and an app whose [on_channel_down] is a coroutine
    function. *)
Definition failing_app : App :=
  [("on_channel_down", mkMethod false (λ _, Some (UserError "FAIL")));
   ("on_exception", mkMethod false (λ _, Some (UserError "FAIL AGAIN")))].

Definition coroutine_app : App :=
  [("on_channel_down", mkMethod true (λ _, None))].

(** A running controller of [apps] after the bookkeeping of the
    CHANNEL_UP of two switches, with task 9 in the scope of the first
    datapath and task 4 in the controller's own list. *)
Definition two_connected (apps : list App) : Controller :=
  ((let! dp := zof_channel_up up_event in
    let! _ := Datapath_create_task dp 9%nat in
    let! _ := zof_channel_up up_event_2 in
    create_task 4%nat)%py
     (with_tasks (Some []) (init apps no_config))).2.

(** How [run] leaves the driver's context and the run context with an
    exit status: the exception of [__aexit__], with the task list still
    set, or the status, with the task list dropped. *)
Definition run_leaves `{Collaborators} (status : Z) (c : Controller)
    : Result Exception Z * Controller :=
  match Driver_aexit with
  | Some e => (Raise e, c)
  | None => (Ok status, with_tasks None c)
  end.

(** How [run] ends once the part of its [try] block that follows the
    event loop has run: the exit status is 0, or 10 after the critical
    log record of an exception. *)
Definition run_ends `{Collaborators}
    (after : Result Exception unit * Controller)
    : Result Exception Z * Controller :=
  match after with
  | (Ok _, c) => run_leaves EXIT_STATUS_OKAY c
  | (Raise ex, c) =>
      run_leaves EXIT_STATUS_ERROR
        (add_trace [Logged CRITICAL "Exception in run: %r" (Some ex)] c)
  | (Blocked f, c) => (Blocked f, c)
  end.



(** The calls of app methods in a trace. *)
Definition is_call (e : Effect) : bool :=
  match e with Called _ _ _ => true | _ => false end.

(** The datapaths among [addrs] that are not closed, with their
    addresses; for the connection table, in the order of the table. *)
Definition open_among (ds : list Datapath) (addrs : list nat)
    : list (nat * Datapath) :=
  omap (λ a, match ds !! a with
             | Some o => if closed o then None else Some (a, o)
             | None => None
             end)
       addrs.

Definition open_datapaths (c : Controller) : list (nat * Datapath) :=
  open_among (datapaths c) (PyDict.values (_connections c)).

(** The datapath with its [closed] flag set. *)
Definition close_datapath (o : Datapath) : Datapath :=
  mkDatapath (conn_id o) (id o) true (zof_tasks o) (channel_up o)
    (port_status o).

(** The body of the loop of [zof_cleanup]. *)
Definition cleanup_turn (dp : nat) : CM unit :=
  (let! o := load dp in
   if negb (closed o) then
     set_closed dp ;;;
     zof_cancel_tasks dp ;;;
     zof_dispatch_event (VStr "CHANNEL_DOWN") (Some dp) _channel_down
   else ret tt)%py.

(** The two indexes agree: the connection table has one entry per key and
    per datapath, and every datapath it holds is allocated and is the one
    the datapath-id index has for its id. *)
Definition table_ok (c : Controller) : Prop :=
  PyDict.wf (_connections c) ∧
  NoDup (PyDict.values (_connections c)) ∧
  ∀ key a, (key, a) ∈ _connections c →
    ∃ o, datapaths c !! a = Some o ∧ _dpids c !! id o = Some a.

(** [c'] has the indexes of [c], and its datapaths have kept their
    ids. *)
Definition same_tables (c c' : Controller) : Prop :=
  _connections c' = _connections c ∧
  _dpids c' = _dpids c ∧
  ∀ a o, datapaths c !! a = Some o →
    ∃ o', datapaths c' !! a = Some o' ∧ id o' = id o.

(** A piece of code that leaves the indexes alone, however it ends. *)
Definition framed {A} (m : CM A) : Prop := ∀ c, same_tables c (m c).2.

(** A piece of code that keeps a property of the controller, however it
    ends. *)
Definition keeps {A} (I : Controller → Prop) (m : CM A) : Prop :=
  ∀ c, I c → I (m c).2.

(** Every datapath of the connection table is allocated. *)
Definition connections_allocated (c : Controller) : Prop :=
  ∀ a, a ∈ PyDict.values (_connections c) → is_Some (datapaths c !! a).

(** What [zof_cleanup] does for one open datapath. *)
Definition cleanup_effects (apps : list App) (handlers : list Handler)
    (entry : nat * Datapath) : list Effect :=
  (Cancelled <$> zof_tasks entry.2) ++
  dispatch_effects apps (Some entry.1) _channel_down handlers.

End ZofProps.

(** ** [pylibofp/controller.py]: the task registry *)

Module PylibofpTasks.
Import Py Json Pylibofp.
Local Open Scope py_scope.

(** [l.remove(x)]: the first occurrence goes; [None] stands for the
    [ValueError]. *)
Fixpoint list_remove (x : Task) (l : list Task) : option (list Task) :=
  match l with
  | [] => None
  | y :: rest =>
      if decide (y = x) then Some rest else cons y <$> list_remove x rest
  end.

(** [_task_callback]: [_tasks] is a [defaultdict(list)], so looking the
    scope key up makes an empty list for a key that is missing, before
    [remove] fails on it.  The counter that is bumped afterwards belongs
    to the app of the task. *)
Definition _task_callback (task : Task) (scope_key : string) : CM unit :=
  let! tasks := gets _tasks in
  let task_list := default [] (PyDict.get tasks scope_key) in
  modify (with_tasks (PyDict.setitem tasks scope_key task_list)) ;;;
  match list_remove task task_list with
  | Some rest =>
      modify (λ c, with_tasks (PyDict.setitem (_tasks c) scope_key rest) c)
  | None => raise (ValueError "list.remove(x): x not in list")
  end.

(** [tasks()] *)
Definition tasks : CM (list Task) :=
  let! task_lists := gets _tasks in
  ret (concat (PyDict.values task_lists)).


End PylibofpTasks.

(** ** More predicates for [pylibofp] *)

Module PylibofpMoreProps.
Import Py Json Pylibofp.
Local Open Scope py_scope.

(** The counter is in the range of the user xids. *)
Definition xid_in_range (x : Z) : Prop := _MIN_XID ≤ x ≤ _MAX_XID.

(** [n] calls of [_next_xid], one after the other. *)
Fixpoint next_xids (n : nat) : CM (list Z) :=
  match n with
  | O => ret []
  | S n' =>
      let! x := _next_xid in
      let! xs := next_xids n' in
      ret (x :: xs)
  end.

(** The xid [k] calls after the counter was [x]. *)
Definition xid_after (x k : Z) : Z :=
  _MIN_XID + (x - _MIN_XID + k) mod (_MAX_XID - _MIN_XID + 1).

(** The xid that follows [x]. *)
Definition next_of (x : Z) : Z :=
  if bool_decide (x = _MAX_XID) then _MIN_XID else x + 1.

(** The frame [_rpc_call] writes. *)
Definition rpc_frame (xid : Z) (method : string) (params : list (string * Value))
    : Value :=
  VObj [("id", VInt xid); ("method", VStr method); ("params", VObj params)].

(** A coroutine makes an RPC call and awaits the reply. *)
Definition call_and_await (method : string) (params : list (string * Value))
    : CM Value :=
  let! fut := _rpc_call method params in
  await_reply fut.

(** The controller a coroutine finds when it goes on after
    [call_and_await]: the xid is used, the frame is sent, the handle and
    the asyncio future of the call are at the end of the heap, in the
    state the answer has left them in, the request is out of the table
    again, and the backend has the rest of its script. *)
Definition answered (c : Controller) (frame : Value) (o : ReplyFuture.t)
    (answer : AioFuture) (script : list RpcOutcome) (now : Q) : Controller :=
  mkController (next_of (_xid c)) (_reqs c) (_event_queue c) (_ofp_versions c)
    (_tls_id c) (_tasks c) (_phase c)
    (Some (default [] (_conn c) ++ [frame]))
    (mkHeap (handles (heap c) ++ [o]) (futures (heap c) ++ [answer]))
    (cancel_calls c) (logged c) now script.

(** The frame of the LISTEN call for one endpoint. *)
Definition listen_frame (xid : Z) (endpt versions tls_id : Value) : Value :=
  rpc_frame xid "OFP.LISTEN"
    [("endpoint", endpt); ("versions", versions); ("tls_id", tls_id);
     ("options", VList [VStr "FEATURES_REQ"])].

(** A result the start sequence accepts as the backend's description:
    a major API version that is supported, the OpenFlow versions, the
    software version, and no MORE flag. *)
Definition acceptable_description (result versions : Value) : Prop :=
  (∃ major, getattr result "major_version" = Some (VInt major) ∧
            major ≤ _API_VERSION) ∧
  getattr result "ofp_versions" = Some versions ∧
  is_Some (getattr result "software_version") ∧
  _event_has_more result = Ok false.

(** A result the start sequence accepts as the answer to LISTEN. *)
Definition acceptable_listen_reply (result : Value) : Prop :=
  is_Some (getattr result "conn_id") ∧ _event_has_more result = Ok false.

(** The exception an awaiting caller gets when the backend does not
    answer its call with a result. *)
Definition failure_of (outcome : RpcOutcome) (xid : Z) : option Exception :=
  match outcome with
  | Replies _ => None
  | Fails error =>
      Some (RPCException (VObj [("id", VInt xid); ("error", error)]))
  | Silent => Some (TimeoutException xid)
  end.


End PylibofpMoreProps.

(** ** [zof/controller.py]: the accessors *)

Module ZofAccessors.
Import Py Json Zof.
Local Open Scope py_scope.

(** [find_datapath(dp_id)] *)
Definition find_datapath (dp_id : Z) : CM (option nat) :=
  let! dpids := gets _dpids in
  ret (dpids !! dp_id).

(** [get_datapaths()] *)
Definition get_datapaths : CM (list nat) :=
  let! conns := gets _connections in
  ret (PyDict.values conns).

(** [get_config()] *)
Definition get_config : CM Configuration := gets _config.

End ZofAccessors.

(** ** More predicates for [zof] *)

Module ZofMoreProps.
Import Py Json Zof ZofProps.
Local Open Scope py_scope.

(** Every datapath the datapath-id index holds is in the connection
    table, and is stored with that id. *)
Definition dpids_connected (c : Controller) : Prop :=
  ∀ dp_id a, _dpids c !! dp_id = Some a →
    ∃ key o, (key, a) ∈ _connections c ∧ datapaths c !! a = Some o ∧
             id o = dp_id.

(** The two indexes hold the same datapaths. *)
Definition indexes_agree (c : Controller) : Prop :=
  table_ok c ∧ dpids_connected c.

(** A call of an event handler. *)
Definition is_event_call (e : Effect) : bool :=
  match e with
  | Called _ _ (EventArgs _ _) => true
  | _ => false
  end.

(** The numbers of the apps, from number [i] on, that have an attribute
    [name]. *)
Fixpoint defining (i : nat) (apps : list App) (name : string) : list nat :=
  match apps with
  | [] => []
  | app :: rest =>
      match getattr app name with
      | Some _ => i :: defining (S i) rest name
      | None => defining (S i) rest name
      end
  end.

(** The type of an event is neither of the two channel notifications
    that change the tables. *)
Definition plain_type (t : string) : Prop :=
  t ≠ "CHANNEL_UP" ∧ t ≠ "CHANNEL_DOWN".


End ZofMoreProps.

(** ** [pylibofp/controller.py]: the dispatcher *)

Module PylibofpDispatch.
Import Py Json Pylibofp.
Local Open Scope py_scope.

(** The exceptions that travel through the dispatcher: those of the
    controller, and the two control-flow classes of
    [pylibofp/exception.py] that the dispatcher names. *)
Inductive Signal : Type :=
| Core (e : Exception)
| ExitException
| BreakException.

(** An app as the controller sees it: [app.event(event)] and
    [app.message(params)] return or raise.  Apps are passive: what a
    method does to the rest of the program is not part of the model. *)
Record App : Type := mkApp {
  on_event : Value → option Signal;
  on_message : Value → option Signal
}.

Inductive Call : Type :=
| EventCall (app : nat) (event : Value)
| MessageCall (app : nat) (params : Value).

(** The library code the dispatcher calls on the values of an event,
    taken as parameters: [datetime.fromtimestamp(float(v))], ['%s' % v]
    (which gives a string as it is), [v.hex()] and [len(v)]. *)
Class Library : Type := {
  fromtimestamp : Value → Exception + Value;
  py_str : Value → string;
  py_str_VStr : ∀ s, py_str (VStr s) = s;
  bytes_hex : Value → Exception + string;
  py_len : Value → Exception + Z
}.

(** The controller with its apps, and the calls of app methods it has
    made. *)
Record Dispatcher : Type := mkDispatcher {
  controller : Controller;
  apps : list App;
  calls : list Call
}.

Abbreviation DM := (M Signal Dispatcher).

(** A method of the controller that does not call the apps. *)
Definition on_controller {A} (m : CM A) : DM A :=
  λ s, let '(r, c') := m (controller s) in
       (match r with
        | Ok a => Ok a
        | Raise e => Raise (Core e)
        | Blocked f => Blocked f
        end,
        mkDispatcher c' (apps s) (calls s)).

Definition call_app (c : Call) (outcome : option Signal) : DM unit :=
  modify (λ s, mkDispatcher (controller s) (apps s) (calls s ++ [c])) ;;;
  match outcome with
  | Some e => raise e
  | None => ret tt
  end.

(** [for app in self.apps: app.event(event)] *)
Definition apps_event (event : Value) : DM unit :=
  let! apps := gets apps in
  for_each (imap (λ i app, (i, app)) apps) (λ '(i, app),
    call_app (EventCall i event) (on_event app event)).

(** [for app in self.apps: app.message(params)] *)
Definition apps_message (params : Value) : DM unit :=
  let! apps := gets apps in
  for_each (imap (λ i app, (i, app)) apps) (λ '(i, app),
    call_app (MessageCall i params) (on_message app params)).

(** [v == s] for a string literal [s] *)
Definition is_str (v : Value) (s : string) : bool :=
  match v with
  | VStr t => String.eqb t s
  | _ => false
  end.

(** [bool(v)]; an [ObjectView] is taken to be true, as an object without
    [__bool__] and [__len__] is. *)
Definition truthy (v : Value) : bool :=
  match v with
  | VNone => false
  | VBool b => b
  | VInt n => negb (n =? 0)
  | VStr s => negb (String.eqb s "")
  | VList items => match items with [] => false | _ => true end
  | VObj _ => true
  end.

(** Modelled from the spec: [params('k')], the accessor of
    [pylibofp/objectview.py] (missing) that treats a missing field as
    absence. *)
Definition view_get (params : Value) (k : string) : Value :=
  default VNone (getattr params k).

(** [a.startswith(prefix)] *)
Definition startswith (v : Value) (prefix : string) : CM bool :=
  match v with
  | VStr s => ret (String.prefix prefix s)
  | _ => raise (AttributeError "startswith")
  end.

(** [params.time = v] *)
Definition set_time (params : Value) (v : Value) : Value :=
  match params with
  | VObj fields => VObj (PyDict.setitem fields "time" v)
  | other => other
  end.

Definition _handle_internal_event (event : Value) : DM unit :=
  let! name :=
    on_controller (match getattr event "event" with
                   | Some v => ret v
                   | None => raise (KeyError "event")
                   end) in
  if is_str name "EXIT" then raise ExitException
  else apps_event event.

Section WithLibrary.
Context `{Library}.

Definition of_library {A} (r : Exception + A) : DM A :=
  match r with
  | inl e => raise (Core e)
  | inr a => ret a
  end.

Definition _handle_message (params : Value) : DM unit :=
  let! type_ := on_controller (attr params "type") in
  let except_class := if is_str type_ "ERROR" then Some OFError else None in
  let! xid := on_controller (attr params "xid") in
  let! found := on_controller (_handle_xid params xid except_class) in
  if found then ret tt
  else
    apps_message params ;;;
    let! type_ := on_controller (attr params "type") in
    if is_str type_ "ERROR" then on_controller (LOGGER ERROR "ERROR: %s")
    else ret tt.

(** The arguments of the info record are read; the record itself is left
    out. *)
Definition _handle_channel (params : Value) : DM unit :=
  let dpid := view_get params "datapath_id" in
  let! scope_key :=
    (if truthy dpid then ret ("Datapath " +:+ py_str dpid)
     else
       let! conn_id := on_controller (attr params "conn_id") in
       ret ("Channel " +:+ py_str conn_id)) in
  let! _ := on_controller (attr params "type") in
  let! _ := on_controller (attr params "conn_id") in
  let! _ := on_controller (attr params "version") in
  let! type_ := on_controller (attr params "type") in
  (if is_str type_ "CHANNEL_DOWN" then on_controller (_cancel_tasks scope_key)
   else ret tt) ;;;
  apps_message params.

Definition _handle_alert (params : Value) : DM unit :=
  let! xid := on_controller (attr params "xid") in
  let! handled :=
    (if truthy xid then
       let! xid := on_controller (attr params "xid") in
       on_controller (_handle_xid params xid (Some Delivery))
     else ret false) in
  if handled then ret tt
  else
    let! data := on_controller (attr params "data") in
    let! _ := of_library (bytes_hex data) in
    let! _ := on_controller (attr params "alert") in
    let! data := on_controller (attr params "data") in
    let! _ := of_library (py_len data) in
    let! _ := on_controller (attr params "conn_id") in
    let! _ := on_controller (attr params "xid") in
    on_controller
      (LOGGER WARNING
         "Alert: %s data=%s (%d bytes) [conn_id=%s, datapath_id=%s, xid=%d]") ;;;
    apps_message params.

Definition _dispatch_event (event : Value) : DM unit :=
  try_except
    (if has_key event "event" then _handle_internal_event event
     else if has_key event "id" then on_controller (_handle_rpc_reply event)
     else
       let! method := on_controller (attr event "method") in
       if is_str method "OFP.MESSAGE" then
         let! params := on_controller (attr event "params") in
         let! time := on_controller (attr params "time") in
         let! time := of_library (fromtimestamp time) in
         let! params := on_controller (attr event "params") in
         let params := set_time params time in
         let! type_ := on_controller (attr params "type") in
         let! is_channel := on_controller (startswith type_ "CHANNEL_") in
         if negb is_channel then _handle_message params
         else if is_str type_ "CHANNEL_ALERT" then _handle_alert params
         else _handle_channel params
       else on_controller (LOGGER WARNING "Unhandled event: %r"))
    (λ e, match e with BreakException => true | _ => false end)
    (λ _, ret tt).

End WithLibrary.

End PylibofpDispatch.

(** ** Predicates for the dispatcher *)

Module PylibofpDispatchProps.
Import Py Json Pylibofp PylibofpProps PylibofpDispatch.

(** The outcome of a method of the controller, as the dispatcher passes
    it on. *)
Definition passed_on {A} (r : Result Exception A) : Result Signal unit :=
  match r with
  | Ok _ => Ok tt
  | Raise e => Raise (Core e)
  | Blocked f => Blocked f
  end.

(** The calls of [message] for [params], one per app. *)
Definition message_calls (apps : list App) (params : Value) : list Call :=
  imap (λ i _, MessageCall i params) apps.

(** A library for the examples: times are kept as they are, strings
    print as themselves and everything else as a question mark. *)
Definition plain_library : Library :=
  {| fromtimestamp := inr;
     py_str := λ v, match v with VStr s => s | _ => "?" end;
     py_str_VStr := λ s, eq_refl;
     bytes_hex := λ _, inr "";
     py_len := λ _, inr 0 |}.

(** An app that takes everything. *)
Definition quiet_app : App := mkApp (λ _, None) (λ _, None).

(** An [OFP.MESSAGE] notification. *)
Definition notification (params : list (string * Value)) : Value :=
  VObj [("method", VStr "OFP.MESSAGE"); ("params", VObj params)].


End PylibofpDispatchProps.

(** ** [zof/driver.py] *)

Module ZofDriver.
Import Py Json Zof.
Local Open Scope py_scope.

(** Modelled from the spec: [zof/oftr.py] is missing from the sources.
    The protocol object is the way to the backend: outgoing frames are
    written to it, and a request is answered by the backend's reply
    frame. *)
Record Protocol : Type := mkProtocol {
  written : list Value
}.

(** What the backend replies to a request frame, and how the subprocess
    stops, taken as parameters. *)
Class Backend : Type := {
  reply_to : Value → Exception + Value;
  OftrProtocol_stop : option Exception
}.

Record Driver : Type := mkDriver {
  event_queue : option (list Event);
  pid : option Z;
  _debug : bool;
  _protocol : option Protocol;
  _last_xid : Z
}.

Abbreviation DM := (M Exception Driver).

Definition with_event_queue (v : option (list Event)) (d : Driver) : Driver :=
  mkDriver v (pid d) (_debug d) (_protocol d) (_last_xid d).

Definition with_pid (v : option Z) (d : Driver) : Driver :=
  mkDriver (event_queue d) v (_debug d) (_protocol d) (_last_xid d).

Definition with_protocol (v : option Protocol) (d : Driver) : Driver :=
  mkDriver (event_queue d) (pid d) (_debug d) v (_last_xid d).

Definition with_last_xid (v : Z) (d : Driver) : Driver :=
  mkDriver (event_queue d) (pid d) (_debug d) (_protocol d) v.

(** [__init__] *)
Definition init (debug : bool) : Driver := mkDriver None None debug None 0.

Definition given {A} (r : Exception + A) : DM A :=
  match r with
  | inl e => raise e
  | inr a => ret a
  end.

(** [k in event] *)
Definition has (event : Event) (k : string) : bool :=
  match assoc event k with Some _ => true | None => false end.

(** [__aenter__]; [spawned] is what [loop.subprocess_exec] gives: the
    process id of the subprocess, or an exception. *)
Definition __aenter__ (spawned : Exception + Z) : DM unit :=
  let! protocol := gets _protocol in
  assert (negb (bool_decide (is_Some protocol))) AssertionError ;;;
  modify (with_event_queue (Some [])) ;;;
  let! process := given spawned in
  modify (with_protocol (Some (mkProtocol []))) ;;;
  modify (with_pid (Some process)).

(** [self._assign_xid()] *)
Definition _assign_xid : DM Z :=
  modify (λ d, with_last_xid (_last_xid d + 1) d) ;;;
  gets _last_xid.

(** [_ofp_send]: the event in the frame is the caller's [dict], which
    has the xid from now on. *)
Definition _ofp_send (event : Event) : DM Event :=
  (if negb (has event "type") then raise (ValueError "Invalid event: %r")
   else ret tt) ;;;
  let! event :=
    (if negb (has event "xid") then
       let! xid := _assign_xid in
       ret (PyDict.setitem event "xid" (VInt xid))
     else ret event) in
  ret [("method", VStr "OFP.SEND"); ("params", VObj event)].

Definition _ofp_listen (endpoint options versions : Value) : DM Event :=
  let! xid := _assign_xid in
  ret [("id", VInt xid); ("method", VStr "OFP.LISTEN");
       ("params", VObj [("endpoint", endpoint); ("options", options);
                        ("versions", versions)])].

Definition _ofp_connect (endpoint : Value) : DM Event :=
  let! xid := _assign_xid in
  ret [("id", VInt xid); ("method", VStr "OFP.CONNECT");
       ("params", VObj [("endpoint", endpoint)])].

Definition _ofp_close (conn_id : Value) : DM Event :=
  let! xid := _assign_xid in
  ret [("id", VInt xid); ("method", VStr "OFP.CLOSE");
       ("params", VObj [("conn_id", conn_id)])].

(** Modelled from the spec: [OftrProtocol.send] (missing) writes the
    frame to the backend. *)
Definition OftrProtocol_send (event : Event) : DM unit :=
  let! protocol := gets _protocol in
  match protocol with
  | Some p => modify (with_protocol (Some (mkProtocol (written p ++ [VObj event]))))
  | None => raise (AttributeError "send")
  end.

(** [send] *)
Definition send (event : Event) : DM unit :=
  let! protocol := gets _protocol in
  assert (bool_decide (is_Some protocol)) AssertionError ;;;
  let! event :=
    (if negb (has event "method") then _ofp_send event else ret event) in
  OftrProtocol_send event.

(** [post_event] *)
Definition post_event (event : Event) : DM unit :=
  assert (has event "type") AssertionError ;;;
  let! queue := gets event_queue in
  match queue with
  | Some events => modify (with_event_queue (Some (events ++ [event])))
  | None => raise (AttributeError "put_nowait")
  end.

(** [reply[k]] *)
Definition subscript (reply : Value) (k : string) : DM Value :=
  match reply with
  | VObj fields =>
      match assoc fields k with
      | Some v => ret v
      | None => raise (KeyError (KStr k))
      end
  | _ => raise TypeError
  end.

Section WithBackend.
Context `{Backend}.

(** [__aexit__] *)
Definition __aexit__ : DM unit :=
  let! protocol := gets _protocol in
  assert (bool_decide (is_Some protocol)) AssertionError ;;;
  match OftrProtocol_stop with
  | Some e => raise e
  | None => ret tt
  end ;;;
  modify (with_protocol None) ;;;
  modify (with_pid None).

(** Modelled from the spec: [OftrProtocol.request] (missing) writes the
    frame, and the coroutine that awaits it goes on with the backend's
    reply. *)
Definition OftrProtocol_request (event : Event) : DM Value :=
  OftrProtocol_send event ;;;
  given (reply_to (VObj event)).

(** [request] *)
Definition request (event : Event) : DM Value :=
  let! protocol := gets _protocol in
  assert (bool_decide (is_Some protocol)) AssertionError ;;;
  let! event :=
    (if negb (has event "method") then _ofp_send event else ret event) in
  OftrProtocol_request event.

Definition listen (endpoint options versions : Value) : DM Value :=
  let! request_ := _ofp_listen endpoint options versions in
  let! reply := request request_ in
  subscript reply "conn_id".

Definition connect (endpoint : Value) : DM Value :=
  let! request_ := _ofp_connect endpoint in
  let! reply := request request_ in
  subscript reply "conn_id".

Definition close (conn_id : Value) : DM Value :=
  let! request_ := _ofp_close conn_id in
  let! reply := request request_ in
  subscript reply "count".

End WithBackend.

End ZofDriver.

(** ** Predicates for the driver *)

Module ZofDriverProps.
Import Py Json Zof ZofDriver.
Local Open Scope py_scope.

(** A call of the driver's interface by an app. *)
Inductive Op : Type :=
| Send (event : Event)
| Request (event : Event)
| Listen (endpoint options versions : Value)
| Connect (endpoint : Value)
| Close (conn_id : Value).

(** The call leaves it to the driver to number the frame: it gives an
    OpenFlow message (with a type, not an RPC) that has no xid, or asks
    for one of the driver's own RPCs. *)
Definition numbered_by_driver (op : Op) : Prop :=
  match op with
  | Send event | Request event =>
      has event "type" = true ∧ has event "method" = false ∧
      has event "xid" = false
  | _ => True
  end.

Section WithBackend.
Context `{Backend}.

Definition perform (op : Op) : DM unit :=
  match op with
  | Send event => send event
  | Request event => let! _ := request event in ret tt
  | Listen endpoint options versions =>
      let! _ := listen endpoint options versions in ret tt
  | Connect endpoint => let! _ := connect endpoint in ret tt
  | Close conn_id => let! _ := close conn_id in ret tt
  end.

(** A caller that makes the calls one after the other and goes on when
    one of them raises. *)
Definition attempt_all (ops : list Op) : DM unit :=
  for_each ops (λ op, try_except (perform op) (λ _, true) (λ _, ret tt)).

End WithBackend.

(** The number a frame carries: the [id] of an RPC, the [xid] of the
    message of an [OFP.SEND]. *)
Definition frame_number (frame : Value) : option Value :=
  match frame with
  | VObj fields =>
      match assoc fields "id" with
      | Some v => Some v
      | None =>
          match assoc fields "params" with
          | Some (VObj params) => assoc params "xid"
          | _ => None
          end
      end
  | _ => None
  end.

(** A backend for the examples: it answers every request with an empty
    result. *)
Definition mute_backend : Backend :=
  {| reply_to := λ _, inr (VObj []);
     OftrProtocol_stop := None |}.

End ZofDriverProps.

(* ===================================================================== *)
(** * Part II: facts *)
(* ===================================================================== *)

(** ** Lists *)

Module ListFacts.

Lemma elem_of_concat {A} (x : A) (ls : list (list A)) :
  x ∈ concat ls ↔ ∃ l, l ∈ ls ∧ x ∈ l.
Proof.
  induction ls as [|l0 ls IH]; simpl.
  - split; [intros Hin; by apply elem_of_nil in Hin|].
    intros (l & Hin & _). by apply elem_of_nil in Hin.
  - rewrite elem_of_app, IH. split.
    + intros [Hin | (l & Hl & Hin)].
      * exists l0. split; [apply list_elem_of_here | done].
      * exists l. split; [by apply list_elem_of_further | done].
    + intros (l & Hl & Hin). apply elem_of_cons in Hl as [-> | Hl].
      * by left.
      * right. by exists l.
Qed.

End ListFacts.

(** ** Dictionaries *)

Module PyDictFacts.
Import PyDict.

Section Facts.
Context {K V : Type} `{EqDecision K}.
Implicit Types (d : dict K V) (k : K) (v : V).

Lemma get_setitem_eq d k v : get (setitem d k v) k = Some v.
Proof.
  induction d as [|[k' v'] d IH]; simpl.
  - by rewrite decide_True.
  - destruct (decide (k' = k)) as [->|Hne]; simpl.
    + by rewrite decide_True.
    + by rewrite decide_False.
Qed.

Lemma get_setitem_ne d k k' v : k ≠ k' → get (setitem d k v) k' = get d k'.
Proof.
  intros Hne. induction d as [|[k0 v0] d IH]; simpl.
  - by rewrite decide_False.
  - destruct (decide (k0 = k)) as [->|Hk]; simpl.
    + by rewrite !decide_False.
    + destruct (decide (k0 = k')); [done | apply IH].
Qed.

Lemma get_delitem_ne d k k' : k ≠ k' → get (delitem d k) k' = get d k'.
Proof.
  intros Hne. induction d as [|[k0 v0] d IH]; simpl; [done|].
  destruct (decide (k0 = k)) as [->|Hk]; simpl.
  - by rewrite decide_False.
  - destruct (decide (k0 = k')); [done | apply IH].
Qed.

Lemma get_None_not_in d k : get d k = None ↔ k ∉ keys d.
Proof.
  unfold keys. induction d as [|[k0 v0] d IH]; simpl.
  - split; [intros _; apply not_elem_of_nil | done].
  - rewrite not_elem_of_cons. destruct (decide (k0 = k)) as [->|Hk].
    + split; [done | intros [? _]; done].
    + rewrite IH. split; [intros ?; split; [congruence | done] | by intros [_ ?]].
Qed.

Lemma get_Some_in d k v : get d k = Some v → (k, v) ∈ d.
Proof.
  induction d as [|[k0 v0] d IH]; simpl; [done|].
  destruct (decide (k0 = k)) as [->|Hk].
  - intros [= ->]. apply list_elem_of_here.
  - intros Hg. apply list_elem_of_further, IH, Hg.
Qed.

Lemma in_get_Some d k v : wf d → (k, v) ∈ d → get d k = Some v.
Proof.
  unfold wf, keys. induction d as [|[k0 v0] d IH]; simpl.
  - intros _ Hin. by apply elem_of_nil in Hin.
  - rewrite NoDup_cons. intros [Hnotin Hnd] Hin.
    apply elem_of_cons in Hin as [[= <- <-]|Hin].
    + by rewrite decide_True.
    + destruct (decide (k0 = k)) as [->|Hk]; [|by apply IH].
      exfalso. apply Hnotin. apply list_elem_of_fmap. by exists (k, v).
Qed.

Lemma get_delitem_eq d k : wf d → get (delitem d k) k = None.
Proof.
  unfold wf, keys. induction d as [|[k0 v0] d IH]; simpl; [done|].
  rewrite NoDup_cons. intros [Hnotin Hnd].
  destruct (decide (k0 = k)) as [->|Hk]; simpl.
  - by apply get_None_not_in.
  - rewrite decide_False by done. by apply IH.
Qed.

Lemma keys_setitem_in d k v k' :
  k' ∈ keys (setitem d k v) ↔ k' = k ∨ k' ∈ keys d.
Proof.
  unfold keys. induction d as [|[k0 v0] d IH]; simpl.
  - rewrite list_elem_of_singleton. split; [by left | intros [?|Hin]; [done|]].
    by apply elem_of_nil in Hin.
  - destruct (decide (k0 = k)) as [->|Hk]; simpl.
    + rewrite !elem_of_cons. tauto.
    + rewrite !elem_of_cons, IH. tauto.
Qed.

Lemma wf_setitem d k v : wf d → wf (setitem d k v).
Proof.
  unfold wf. induction d as [|[k0 v0] d IH]; simpl.
  - intros _. apply NoDup_singleton.
  - unfold keys in *. simpl. rewrite NoDup_cons. intros [Hnotin Hnd].
    destruct (decide (k0 = k)) as [->|Hk]; simpl; rewrite NoDup_cons.
    + done.
    + split; [|by apply IH].
      intros Hin. apply (keys_setitem_in d k v k0) in Hin as [?|?]; done.
Qed.

Lemma keys_delitem_in d k k' : k' ∈ keys (delitem d k) → k' ∈ keys d.
Proof.
  unfold keys. induction d as [|[k0 v0] d IH]; simpl; [done|].
  destruct (decide (k0 = k)); simpl; rewrite !elem_of_cons; intuition.
Qed.

Lemma values_setitem_fresh d k v :
  get d k = None → values (setitem d k v) = values d ++ [v].
Proof.
  unfold values. induction d as [|[k0 v0] d IH]; intros Hget; [done|].
  cbn [get setitem] in *. destruct (decide (k0 = k)); [done|].
  rewrite !fmap_cons. by rewrite IH.
Qed.

Lemma in_setitem_fresh d k v k' v' :
  get d k = None →
  (k', v') ∈ setitem d k v → (k' = k ∧ v' = v) ∨ (k', v') ∈ d.
Proof.
  induction d as [|[k0 v0] d IH]; simpl.
  - intros _ Hin. apply list_elem_of_singleton in Hin as [= -> ->]. by left.
  - destruct (decide (k0 = k)) as [->|Hk]; [done|].
    intros Hget. rewrite !elem_of_cons. intros [Heq|Hin]; [by right; left|].
    destruct (IH Hget Hin) as [?|?]; [by left | by right; right].
Qed.

Lemma in_delitem d k k' v' : (k', v') ∈ delitem d k → (k', v') ∈ d.
Proof.
  induction d as [|[k0 v0] d IH]; simpl; [done|].
  destruct (decide (k0 = k)); rewrite !elem_of_cons; intuition.
Qed.

Lemma values_delitem_sublist d k : sublist (values (delitem d k)) (values d).
Proof.
  unfold values. induction d as [|[k0 v0] d IH]; [done|].
  cbn [delitem]. destruct (decide (k0 = k)); rewrite ?fmap_cons.
  - by apply sublist_cons.
  - by apply sublist_skip.
Qed.

(** With one entry per value, the value of a deleted key is gone. *)
Lemma value_not_in_delitem d k v :
  NoDup (values d) → get d k = Some v → v ∉ values (delitem d k).
Proof.
  unfold values. induction d as [|[k0 v0] d IH]; [done|].
  rewrite fmap_cons, NoDup_cons. cbn [get delitem]. intros [Hnotin Hnd].
  destruct (decide (k0 = k)) as [->|Hk].
  - by intros [= <-].
  - intros Hget. rewrite fmap_cons, not_elem_of_cons. split; [|by apply IH].
    simpl. intros ->. apply Hnotin. apply list_elem_of_fmap.
    exists (k, v0). split; [done|]. by apply get_Some_in.
Qed.

Lemma get_delitem_None d k k' :
  get d k' = None → get (delitem d k) k' = None.
Proof.
  rewrite !get_None_not_in. intros Hnot Hin.
  by apply keys_delitem_in in Hin.
Qed.

Lemma wf_delitem d k : wf d → wf (delitem d k).
Proof.
  unfold wf. induction d as [|[k0 v0] d IH]; simpl; [done|].
  unfold keys in *. simpl. rewrite NoDup_cons. intros [Hnotin Hnd].
  destruct (decide (k0 = k)); simpl; [done|].
  rewrite NoDup_cons. split; [|by apply IH].
  intros Hin. by apply (keys_delitem_in d k k0) in Hin.
Qed.

End Facts.
End PyDictFacts.

(** ** [pylibofp]: xids, phases, the start sequence *)

Module PylibofpFacts.
Import Py Json Pylibofp PylibofpProps ListFacts.
Local Open Scope py_scope.

(** *** Xid allocation *)

Lemma next_xid_increments (c : Controller) :
  _xid c ≠ _MAX_XID →
  _next_xid c = (Ok (_xid c + 1), with_xid (_xid c + 1) c).
Proof.
  intros Hne. unfold _next_xid, bind, gets, modify. simpl.
  by rewrite bool_decide_eq_false_2.
Qed.

Lemma next_xid_wraps (c : Controller) :
  _xid c = 4294967295 →
  _next_xid c = (Ok 8092, with_xid 8092 c).
Proof.
  intros Heq. unfold _next_xid, bind, gets, modify. simpl.
  by rewrite bool_decide_eq_true_2.
Qed.

(** C4, on the code: the counter starts at 8092 and is incremented before
    it is returned, so the first xid a fresh controller assigns is 8093;
    8092 itself is only assigned after the wrap at 2^32 - 1. *)
Theorem first_xid_is_8093 (now : Q) (script : list RpcOutcome) :
  (_next_xid (init now script)).1 = Ok 8093 ∧
  (_next_xid (with_xid 4294967295 (init now script))).1 = Ok 8092.
Proof. split; reflexivity. Qed.

(** *** Phases and task cancellation *)

Lemma with_cancel_calls_id (c : Controller) :
  with_cancel_calls (cancel_calls c) c = c.
Proof. by destruct c. Qed.

Lemma for_each_cancel (ts : list Task) (c : Controller) :
  for_each ts cancel c = (Ok tt, with_cancel_calls (cancel_calls c ++ ts) c).
Proof.
  revert c. induction ts as [|t ts IH]; intros c; simpl.
  - by rewrite app_nil_r, with_cancel_calls_id.
  - unfold bind, cancel at 1, modify. simpl. rewrite IH. simpl.
    by rewrite <- app_assoc.
Qed.

Lemma for_each_cancel_lists (tss : list (list Task)) (c : Controller) :
  for_each tss (λ task_list, for_each task_list cancel) c
  = (Ok tt, with_cancel_calls (cancel_calls c ++ concat tss) c).
Proof.
  revert c. induction tss as [|ts tss IH]; intros c; simpl.
  - by rewrite app_nil_r, with_cancel_calls_id.
  - unfold bind. rewrite for_each_cancel, IH. simpl.
    by rewrite <- app_assoc.
Qed.

Lemma cancel_tasks_spec (scope_key : string) (c : Controller) :
  _cancel_tasks scope_key c
  = (Ok tt, with_cancel_calls (cancel_calls c ++ cancelled_by c scope_key) c).
Proof.
  unfold _cancel_tasks, cancelled_by, bind, gets.
  destruct (bool_decide (scope_key = "START") || bool_decide (scope_key = "STOP")).
  - rewrite for_each_cancel_lists. simpl.
    destruct (PyDict.get (_tasks c) scope_key) as [ts|]; simpl.
    + rewrite for_each_cancel. simpl. by rewrite <- app_assoc.
    + by rewrite app_nil_r.
  - simpl. destruct (PyDict.get (_tasks c) scope_key) as [ts|]; simpl.
    + by rewrite for_each_cancel.
    + by rewrite app_nil_r, with_cancel_calls_id.
Qed.

Lemma cancelled_by_scope (c : Controller) (scope_key : string) ts t :
  PyDict.get (_tasks c) scope_key = Some ts → t ∈ ts →
  t ∈ cancelled_by c scope_key.
Proof.
  intros Hget Hin. unfold cancelled_by. rewrite Hget. simpl.
  apply elem_of_app. by right.
Qed.

Lemma set_phase_spec (phase : string) (c : Controller) :
  _set_phase phase c =
  (Ok tt,
   let c1 := if bool_decide (_phase c = "PRESTART") then c
             else with_cancel_calls
                    (cancel_calls c ++ cancelled_by c (_phase c)) c in
   with_event_queue ((λ q, q ++ [make_event phase]) <$> _event_queue c)
     (with_phase phase c1)).
Proof.
  unfold _set_phase, bind, gets. simpl.
  destruct (bool_decide (_phase c = "PRESTART")); simpl.
  - unfold modify, _post_event, bind, gets, assert, ret.
    destruct c as [? ? [q|] ? ? ? ? ? ? ? ? ? ?]; reflexivity.
  - rewrite cancel_tasks_spec. unfold modify, _post_event, bind, gets, assert, ret.
    destruct c as [? ? [q|] ? ? ? ? ? ? ? ? ? ?]; reflexivity.
Qed.

(** C3, as the code has it: [_set_phase] cancels the tasks in the scope
    of the previous phase unless the previous phase is PRESTART.  So the
    cancellation happens on INIT->PRESTART, START->STOP and
    STOP->POSTSTOP, and it does not happen on the way out of PRESTART.
    When [_set_phase] returns, [cancel()] has been called on the tasks
    that [cancelled_by] lists, those of the scope of the previous phase
    among them, the tasks are still registered, the phase is the new one
    and the event of the new phase is the last of the queue, still to be
    taken by the event loop. *)
Theorem set_phase_cancels_unless_leaving_PRESTART
    (c : Controller) (phase : string) :
  ∃ c', _set_phase phase c = (Ok tt, c') ∧
    _phase c' = phase ∧
    _tasks c' = _tasks c ∧
    _event_queue c' = (λ q, q ++ [make_event phase]) <$> _event_queue c ∧
    (_phase c ≠ "PRESTART" →
       ∃ new, cancel_calls c' = cancel_calls c ++ new ∧
         new = cancelled_by c (_phase c) ∧
         ∀ ts t, PyDict.get (_tasks c) (_phase c) = Some ts → t ∈ ts → t ∈ new) ∧
    (_phase c = "PRESTART" → cancel_calls c' = cancel_calls c).
Proof.
  rewrite set_phase_spec. eexists. split; [reflexivity|].
  simpl. repeat split.
  - by destruct (bool_decide (_phase c = "PRESTART")).
  - intros Hne. rewrite bool_decide_eq_false_2 by done. simpl.
    eexists. split; [reflexivity|]. split; [reflexivity|].
    intros ts t Hget Hin. by eapply cancelled_by_scope.
  - intros Heq. by rewrite bool_decide_eq_true_2.
Qed.

Lemma set_phase_cancels_witness :
  _phase started_with_tasks ≠ "PRESTART" ∧
  ∃ c', _set_phase "STOP" started_with_tasks = (Ok tt, c') ∧
        _phase c' = "STOP" ∧ 3%nat ∈ cancel_calls c'.
Proof.
  split; [by vm_compute|].
  destruct (set_phase_cancels_unless_leaving_PRESTART started_with_tasks "STOP")
    as (c' & Hrun & Hphase & _ & _ & Hcancel & _).
  exists c'. split; [exact Hrun|]. split; [exact Hphase|].
  destruct Hcancel as (new & Hnew & _ & Hin); [by vm_compute|].
  rewrite Hnew. apply elem_of_app. right.
  apply (Hin [3%nat]); [reflexivity | apply list_elem_of_here].
Defined.

(** C3 as stated fails: on PRESTART->START the task in the scope of
    PRESTART gets no [cancel()]. *)
Lemma leaving_PRESTART_cancels_nothing :
  ¬ (∀ (c : Controller) (phase : string), phase ≠ "PRESTART" →
       ∀ ts t, PyDict.get (_tasks c) (_phase c) = Some ts → t ∈ ts →
               t ∈ cancel_calls (_set_phase phase c).2).
Proof.
  intros Hclaim.
  specialize (Hclaim prestart_with_task "START" ltac:(done) [7%nat] 7%nat
                eq_refl ltac:(apply list_elem_of_here)).
  vm_compute in Hclaim. by apply elem_of_nil in Hclaim.
Qed.

(** When the previous phase is START or STOP, every task of every scope
    is cancelled. *)
Lemma set_phase_from_START_or_STOP_cancels_all (c : Controller) (phase : string) :
  _phase c = "START" ∨ _phase c = "STOP" →
  ∀ k ts t, (k, ts) ∈ _tasks c → t ∈ ts →
            t ∈ cancel_calls (_set_phase phase c).2.
Proof.
  intros Hphase k ts t Hk Ht. rewrite set_phase_spec. simpl.
  rewrite bool_decide_eq_false_2 by (destruct Hphase as [-> | ->]; done).
  simpl. apply elem_of_app. right. unfold cancelled_by.
  replace (bool_decide (_phase c = "START") || bool_decide (_phase c = "STOP"))
    with true
    by (destruct Hphase as [-> | ->]; reflexivity).
  apply elem_of_app. left. apply elem_of_concat.
  exists ts. split; [|done]. unfold PyDict.values.
  apply list_elem_of_fmap. by exists (k, ts).
Qed.

(** *** The start sequence *)

(** C1, on the code: when the backend's description has a major API
    version above 1, [_get_description] raises the builtin [ValueError],
    which neither its own handler nor the one of [_start] catches: the
    coroutine ends with the exception, nothing is posted to the event
    queue (no STARTFAIL, no EXIT) and the phase stays PRESTART. *)
Theorem unsupported_api_version_posts_nothing
    (major : Z) (minor versions software : Value)
    (listen_endpoints : list Value) (security : list (string * Value))
    (script : list RpcOutcome) :
  major > 1 →
  let result := VObj [("major_version", VInt major); ("minor_version", minor);
                      ("ofp_versions", versions);
                      ("software_version", software)] in
  let c := running (Replies result :: script) in
  let after := _start listen_endpoints security c in
  after.1 = Raise (ValueError "Unsupported API version") ∧
  _event_queue after.2 = _event_queue c ∧
  _event_queue after.2 = Some [make_event "PRESTART"] ∧
  _phase after.2 = "PRESTART".
Proof.
  intros Hmajor result c after. subst result c after.
  destruct major as [|[p|p|]|p]; try lia; vm_compute; auto.
Qed.

Lemma unsupported_api_version_witness :
  2 > 1 ∧
  (_start [] [] (running [Replies (description 2)])).1
  = Raise (ValueError "Unsupported API version").
Proof.
  split; [lia|].
  exact (proj1 (unsupported_api_version_posts_nothing 2 (VInt 0)
                  (VList [VInt 1; VInt 4]) (VStr "0.1") [] [] [] ltac:(lia))).
Defined.

(** The sibling paths: a failed TLS identity install and a failed listen
    (an error reply, or no reply until the request times out) end in the
    handler of [_start], which posts STARTFAIL and then EXIT. *)
Lemma tls_failure_posts_STARTFAIL_EXIT
    (error : Value) (listen_endpoints : list Value) :
  let c := running [Replies (description 1); Fails error] in
  let after := _start listen_endpoints tls c in
  after.1 = Ok tt ∧
  _event_queue after.2
  = Some [make_event "PRESTART"; make_event "STARTFAIL"; make_event "EXIT"] ∧
  _phase after.2 = "PRESTART".
Proof. vm_compute. auto. Qed.

Lemma listen_failure_posts_STARTFAIL_EXIT (error endpoint : Value) :
  let c := running [Replies (description 1); Fails error] in
  let after := _start [endpoint] [] c in
  after.1 = Ok tt ∧
  _event_queue after.2
  = Some [make_event "PRESTART"; make_event "STARTFAIL"; make_event "EXIT"] ∧
  _phase after.2 = "PRESTART".
Proof. vm_compute. auto. Qed.

Lemma listen_timeout_posts_STARTFAIL_EXIT (endpoint : Value) :
  let c := running [Replies (description 1); Silent] in
  let after := _start [endpoint] [] c in
  after.1 = Ok tt ∧
  _event_queue after.2
  = Some [make_event "PRESTART"; make_event "STARTFAIL"; make_event "EXIT"] ∧
  _phase after.2 = "PRESTART".
Proof. vm_compute. auto. Qed.

Lemma description_failure_posts_STARTFAIL_EXIT
    (error : Value) (listen_endpoints : list Value)
    (security : list (string * Value)) :
  let c := running [Fails error] in
  let after := _start listen_endpoints security c in
  after.1 = Ok tt ∧
  _event_queue after.2
  = Some [make_event "PRESTART"; make_event "STARTFAIL"; make_event "EXIT"] ∧
  _phase after.2 = "PRESTART".
Proof. vm_compute. auto. Qed.

Lemma successful_start_posts_START (endpoint conn : Value) :
  let c := running [Replies (description 1);
                    Replies (VObj [("conn_id", conn)])] in
  let after := _start [endpoint] [] c in
  after.1 = Ok tt ∧
  _event_queue after.2 = Some [make_event "PRESTART"; make_event "START"] ∧
  _phase after.2 = "START".
Proof. vm_compute. auto. Qed.

(** *** The request table and the timeout sweeper *)

(** The request registered by [one_request]: in the table under xid 8093
    with deadline 10, handle 0 not marked done. *)
Lemma one_request_registered :
  _reqs one_request = [(8093, (0%nat, 10.0%Q))] ∧
  handles (heap one_request) = [ReplyFuture.mk 8093 [] None false] ∧
  tracked one_request 0.
Proof.
  assert (Hreqs : _reqs one_request = [(8093, (0%nat, 10.0%Q))])
    by (vm_compute; reflexivity).
  assert (Hhandles : handles (heap one_request)
                     = [ReplyFuture.mk 8093 [] None false])
    by (vm_compute; reflexivity).
  split; [exact Hreqs|]. split; [exact Hhandles|].
  left. split.
  - exists 8093, 10.0%Q. rewrite Hreqs. apply list_elem_of_here.
  - intros (o & Hload & Hdone). rewrite Hhandles in Hload.
    injection Hload as <-. discriminate Hdone.
Qed.

(** The sibling path: an error reply handled by [_handle_xid] removes the
    xid and marks the handle done. *)
Lemma error_reply_removes_and_marks_done (error : Value) :
  let reply := VObj [("id", VInt 8093); ("error", error)] in
  let after := (_handle_rpc_reply reply one_request).2 in
  _reqs after = [] ∧
  handles (heap after)
  = [ReplyFuture.mk 8093 [Exc (RPCException reply)] None true] ∧
  tracked after 0.
Proof.
  intros reply after.
  assert (Hreqs : _reqs after = []) by (vm_compute; reflexivity).
  assert (Hhandles : handles (heap after)
                     = [ReplyFuture.mk 8093 [Exc (RPCException reply)] None true])
    by (vm_compute; reflexivity).
  split; [exact Hreqs|]. split; [exact Hhandles|].
  right. split.
  - intros (xid & expiration & Hin). rewrite Hreqs in Hin.
    by apply elem_of_nil in Hin.
  - eexists. rewrite Hhandles. split; reflexivity.
Qed.

Lemma on_heap_reqs {A} (m : HM A) (c : Controller) :
  _reqs (on_heap m c).2 = _reqs c.
Proof. unfold on_heap, zoom. by destruct (m (heap c)). Qed.

(** The sibling path: a terminal delivery by [_handle_xid] (an error, or
    a result without MORE) that goes through takes the request out of the
    table and marks its handle done. *)
Lemma handle_xid_terminal (c c' : Controller) (event : Value) (xid : Z)
    (fut : nat) (expiration : Q) (except_class : option ExceptClass) :
  PyDict.wf (_reqs c) →
  PyDict.get (_reqs c) xid = Some (fut, expiration) →
  is_Some except_class ∨ _event_has_more event = Ok false →
  _handle_xid event (VInt xid) except_class c = (Ok true, c') →
  PyDict.get (_reqs c') xid = None ∧
  ∃ o', handles (heap c') !! fut = Some o' ∧ ReplyFuture._done o' = true.
Proof.
  intros Hwf Hget Hterminal Hrun.
  unfold _handle_xid, bind at 1 2, xid_key, ret, gets in Hrun. simpl in Hrun.
  rewrite Hget in Hrun. simpl in Hrun. unfold bind at 1 in Hrun.
  set (delivery := match except_class with
                   | Some cls => on_heap (set_exception fut (instantiate cls event))
                   | None => on_heap (set_result fut event)
                   end) in Hrun.
  assert (Hreqs : _reqs (delivery c).2 = _reqs c)
    by (subst delivery; destruct except_class; apply on_heap_reqs).
  destruct (delivery c) as [[[]|e|f] c1]; simpl in Hreqs; [|done|done].
  unfold bind at 1, lift in Hrun.
  destruct (_event_has_more event) as [more|e|f] eqn:Hmore; [|done|done].
  assert (Hcond : negb more || bool_decide (is_Some except_class) = true).
  { destruct Hterminal as [Hcls | Hlast].
    - rewrite (bool_decide_eq_true_2 _ Hcls). apply orb_true_r.
    - by injection Hlast as ->. }
  rewrite Hcond in Hrun. unfold bind at 1 2, on_heap, zoom in Hrun.
  unfold set_done, bind, load in Hrun.
  destruct (handles (heap c1) !! fut) as [o1|] eqn:Hload; [|done].
  simpl in Hrun. destruct (ReplyFuture._done o1); [done|].
  simpl in Hrun. injection Hrun as <-. simpl. split.
  - rewrite Hreqs. by apply PyDictFacts.get_delitem_eq.
  - exists (ReplyFuture.mk (ReplyFuture._xid o1) (ReplyFuture._results o1)
              (ReplyFuture._future o1) true).
    split; [|reflexivity]. simpl.
    apply list_lookup_insert_eq. by eapply lookup_lt_Some.
Qed.

(** *** The sweeper, on any request table *)

Lemma deliver_done_flags (self : nat) (r : Reply) (h : Heap) :
  done_flags (deliver self r h).2 = done_flags h.
Proof.
  unfold deliver, bind, load, done_flags.
  destruct (handles h !! self) as [o|] eqn:Hload; [|done].
  assert (Hsame : ∀ o' fs,
    ReplyFuture._done o' = ReplyFuture._done o →
    ReplyFuture._done <$> handles (store self o' (mkHeap (handles h) fs)).2
    = ReplyFuture._done <$> handles h).
  { intros o' fs Hdone. unfold store, modify. simpl.
    rewrite list_fmap_insert, Hdone. apply list_insert_id.
    by rewrite list_lookup_fmap, Hload. }
  destruct (ReplyFuture._future o) as [f|].
  - unfold aio_resolve.
    destruct (futures h !! f) as [[| |]|]; try done.
    by apply Hsame.
  - destruct h as [hs fs]. by apply Hsame.
Qed.

Lemma sweep_done_flags (timed_out : list (Z * nat)) :
  ∀ c : Controller,
  done_flags
    (heap (for_each timed_out (λ '(xid, fut),
             on_heap (set_exception fut (TimeoutException xid)) ;;;
             modify (λ c, with_reqs (PyDict.delitem (_reqs c) xid) c)) c).2)
  = done_flags (heap c).
Proof.
  induction timed_out as [|[xid fut] timed_out IH]; intros c; [done|].
  simpl. unfold bind at 1 2, on_heap, zoom, set_exception.
  pose proof (deliver_done_flags fut (Exc (TimeoutException xid)) (heap c))
    as Hflags.
  destruct (deliver fut (Exc (TimeoutException xid)) (heap c)) as [[[]|e|f] h'];
    simpl in *; [|done|done].
  rewrite IH. exact Hflags.
Qed.

(** [_idle] never changes the [_done] flag of a handle. *)
Lemma idle_done_flags (c : Controller) :
  done_flags (heap (_idle c).2) = done_flags (heap c).
Proof. unfold _idle, bind, _timestamp, gets. simpl. apply sweep_done_flags. Qed.

Lemma sweep_removes (l : list (Z * nat)) :
  ∀ c c' : Controller,
  for_each l (λ '(xid, fut),
    on_heap (set_exception fut (TimeoutException xid)) ;;;
    modify (λ c, with_reqs (PyDict.delitem (_reqs c) xid) c)) c = (Ok tt, c') →
  PyDict.wf (_reqs c) →
  ∀ xid, xid ∈ l.*1 ∨ PyDict.get (_reqs c) xid = None →
         PyDict.get (_reqs c') xid = None.
Proof.
  induction l as [|[x f] l IH]; intros c c' Hrun Hwf xid Hxid.
  - injection Hrun as <-. destruct Hxid as [Hin|?]; [|done].
    by apply elem_of_nil in Hin.
  - simpl in Hrun. unfold bind at 1 2, on_heap, zoom, set_exception in Hrun.
    destruct (deliver f (Exc (TimeoutException x)) (heap c)) as [[[]|e|b] h'];
      simpl in Hrun; [|done|done].
    apply (IH _ _ Hrun); [by apply PyDictFacts.wf_delitem|]. simpl.
    destruct Hxid as [Hin | Hnone].
    + rewrite fmap_cons in Hin. apply elem_of_cons in Hin as [-> | Hin].
      * right. by apply PyDictFacts.get_delitem_eq.
      * by left.
    + right. by apply PyDictFacts.get_delitem_None.
Qed.

Lemma timed_out_spec (c : Controller) (xid : Z) (fut : nat) (expiration : Q) :
  PyDict.get (_reqs c) xid = Some (fut, expiration) →
  Qle_bool expiration (clock c) = true →
  xid ∈ (timed_out c).*1.
Proof.
  intros Hget Hexp. apply list_elem_of_fmap. exists (xid, fut). split; [done|].
  apply list_elem_of_omap. exists (xid, (fut, expiration)).
  split; [by apply PyDictFacts.get_Some_in|]. simpl. by rewrite Hexp.
Qed.

(** A sweep that goes through takes every expired request out of the
    table and leaves the [_done] flag of its handle as it was. *)
Lemma idle_removes_and_keeps_flag (c c' : Controller) (xid : Z) (fut : nat)
    (expiration : Q) (o : ReplyFuture.t) :
  PyDict.wf (_reqs c) →
  PyDict.get (_reqs c) xid = Some (fut, expiration) →
  Qle_bool expiration (clock c) = true →
  handles (heap c) !! fut = Some o →
  _idle c = (Ok tt, c') →
  PyDict.get (_reqs c') xid = None ∧
  ∃ o', handles (heap c') !! fut = Some o' ∧
        ReplyFuture._done o' = ReplyFuture._done o.
Proof.
  intros Hwf Hget Hexp Hload Hrun. split.
  - unfold _idle, bind, _timestamp, gets in Hrun. simpl in Hrun.
    apply (sweep_removes _ _ _ Hrun Hwf). left.
    by eapply timed_out_spec.
  - pose proof (idle_done_flags c) as Hflags. rewrite Hrun in Hflags.
    simpl in Hflags. unfold done_flags in Hflags.
    assert (Hflag : (ReplyFuture._done <$> handles (heap c')) !! fut
                    = Some (ReplyFuture._done o))
      by (by rewrite Hflags, list_lookup_fmap, Hload).
    rewrite list_lookup_fmap in Hflag.
    destruct (handles (heap c') !! fut) as [o'|]; [|done].
    exists o'. split; [done|]. by injection Hflag.
Qed.

(** C2, on the code: the sweeper gives the handle the timeout and deletes
    the xid, but it does not call [set_done].  Whatever the table holds, a
    sweep that goes through leaves an expired request out of the table
    with the [_done] flag of its handle still unset; for the request of
    [one_request] the handle is tracked before the sweep and is neither
    in the table nor marked done after it. *)
Theorem timeout_sweep_does_not_mark_done :
  (∀ (c c' : Controller) (xid : Z) (fut : nat) (expiration : Q)
     (o : ReplyFuture.t),
     PyDict.wf (_reqs c) →
     PyDict.get (_reqs c) xid = Some (fut, expiration) →
     Qle_bool expiration (clock c) = true →
     handles (heap c) !! fut = Some o →
     ReplyFuture._done o = false →
     _idle c = (Ok tt, c') →
     PyDict.get (_reqs c') xid = None ∧
     ∃ o', handles (heap c') !! fut = Some o' ∧
           ReplyFuture._done o' = false) ∧
  let swept := (_idle (with_clock 10 one_request)).2 in
  tracked one_request 0 ∧
  _reqs swept = [] ∧
  handles (heap swept)
  = [ReplyFuture.mk 8093 [Exc (TimeoutException 8093)] None false] ∧
  ¬ in_table swept 0 ∧ ¬ marked_done swept 0 ∧ ¬ tracked swept 0.
Proof.
  split.
  { intros c c' xid fut expiration o Hwf Hget Hexp Hload Hdone Hrun.
    destruct (idle_removes_and_keeps_flag c c' xid fut expiration o
                Hwf Hget Hexp Hload Hrun) as (Hgone & o' & Hload' & Hflag).
    split; [exact Hgone|]. exists o'. split; [exact Hload'|].
    by rewrite Hflag. }
  intros swept.
  assert (Hreqs : _reqs swept = []) by (vm_compute; reflexivity).
  assert (Hhandles : handles (heap swept)
                     = [ReplyFuture.mk 8093 [Exc (TimeoutException 8093)]
                          None false])
    by (vm_compute; reflexivity).
  assert (Hout : ¬ in_table swept 0).
  { intros (xid & expiration & Hin). rewrite Hreqs in Hin.
    by apply elem_of_nil in Hin. }
  assert (Hundone : ¬ marked_done swept 0).
  { intros (o & Hload & Hdone). rewrite Hhandles in Hload.
    injection Hload as <-. discriminate Hdone. }
  split; [apply one_request_registered|].
  split; [exact Hreqs|]. split; [exact Hhandles|].
  split; [exact Hout|]. split; [exact Hundone|].
  intros [[Hin _] | [_ Hdone]]; [by apply Hout | by apply Hundone].
Qed.

Lemma timeout_sweep_witness :
  let c := with_clock 10 one_request in
  PyDict.wf (_reqs c) ∧
  PyDict.get (_reqs c) 8093 = Some (0%nat, 10.0%Q) ∧
  Qle_bool 10.0 (clock c) = true ∧
  handles (heap c) !! 0%nat = Some (ReplyFuture.mk 8093 [] None false) ∧
  PyDict.get (_reqs (_idle c).2) 8093 = None ∧
  ∃ o', handles (heap (_idle c).2) !! 0%nat = Some o' ∧
        ReplyFuture._done o' = false.
Proof.
  intros c.
  assert (Hwf : PyDict.wf (_reqs c))
    by (vm_compute; apply NoDup_singleton).
  assert (Hget : PyDict.get (_reqs c) 8093 = Some (0%nat, 10.0%Q))
    by (vm_compute; reflexivity).
  assert (Hexp : Qle_bool 10.0 (clock c) = true) by (vm_compute; reflexivity).
  assert (Hload : handles (heap c) !! 0%nat
                  = Some (ReplyFuture.mk 8093 [] None false))
    by (vm_compute; reflexivity).
  assert (Hrun : _idle c = (Ok tt, (_idle c).2)) by (vm_compute; reflexivity).
  split; [exact Hwf|]. split; [exact Hget|]. split; [exact Hexp|].
  split; [exact Hload|].
  exact (proj1 timeout_sweep_does_not_mark_done c (_idle c).2 8093 0%nat
           10.0%Q (ReplyFuture.mk 8093 [] None false)
           Hwf Hget Hexp Hload eq_refl Hrun).
Defined.

(** C5, on the code: after a backend error and after a timeout the first
    [await] raises the delivered exception, but from then on the two
    handles differ: after the error the handle reports done and a further
    [await] raises [InvalidStateError]; after the timeout the handle does
    not report done and a further [await] installs a new future, on which
    the caller stays suspended since the xid is out of the table. *)
Theorem timeout_differs_from_backend_error :
  let reply := VObj [("id", VInt 8093); ("error", VStr "refused")] in
  let failed := heap (_handle_rpc_reply reply one_request).2 in
  let swept := heap (_idle (with_clock 10 one_request)).2 in
  (await 0 failed).1 = Raise (RPCException reply) ∧
  (await 0 swept).1 = Raise (TimeoutException 8093) ∧
  (done 0 (await 0 failed).2).1 = Ok true ∧
  (done 0 (await 0 swept).2).1 = Ok false ∧
  (await 0 (await 0 failed).2).1
  = Raise (InvalidStateError await_too_many_times) ∧
  (await 0 (await 0 swept).2).1 = Blocked 0 ∧
  (async_for 2 0 failed).1 = ([], LoopRaised (RPCException reply)) ∧
  (async_for 2 0 swept).1 = ([], LoopRaised (TimeoutException 8093)).
Proof. vm_compute. repeat split. Qed.

(** The same when the caller is already suspended on the handle at the
    time of the delivery: it is resumed with the exception in both
    cases, and then the handles differ as above. *)
Lemma timeout_differs_from_backend_error_suspended :
  let reply := VObj [("id", VInt 8093); ("error", VStr "refused")] in
  let waiting := with_heap (__await__ 0 (heap one_request)).2 one_request in
  let failed := heap (_handle_rpc_reply reply waiting).2 in
  let swept := heap (_idle (with_clock 10 waiting)).2 in
  (__await__ 0 (heap one_request)).1 = Ok (OnFuture 0) ∧
  (resume 0 failed).1 = Raise (RPCException reply) ∧
  (resume 0 swept).1 = Raise (TimeoutException 8093) ∧
  (done 0 failed).1 = Ok true ∧
  (done 0 swept).1 = Ok false ∧
  (await 0 failed).1
  = Raise (InvalidStateError await_too_many_times) ∧
  (await 0 swept).1 = Blocked 1.
Proof. vm_compute. repeat split. Qed.

(** *** Awaiting and iterating a reply handle *)

Lemma load_ok (h : Heap) (self : nat) (o : ReplyFuture.t) :
  handles h !! self = Some o → load self h = (Ok o, h).
Proof. intros Hload. unfold load. by rewrite Hload. Qed.

Lemma put_same (h : Heap) (self : nat) (o : ReplyFuture.t) :
  handles h !! self = Some o → put self o h = h.
Proof.
  intros Hload. unfold put. rewrite list_insert_id by done. by destruct h.
Qed.

Lemma put_lookup (h : Heap) (self : nat) (o o' : ReplyFuture.t) :
  handles h !! self = Some o → handles (put self o' h) !! self = Some o'.
Proof.
  intros Hload. unfold put. simpl. apply list_lookup_insert_eq.
  by eapply lookup_lt_Some.
Qed.

Lemma put_put (h : Heap) (self : nat) (o o' : ReplyFuture.t) :
  put self o' (put self o h) = put self o' h.
Proof. unfold put. simpl. by rewrite list_insert_insert_eq. Qed.

Lemma await_done_empty (h : Heap) (self : nat) (o : ReplyFuture.t) :
  handles h !! self = Some o →
  ReplyFuture._results o = [] → ReplyFuture._future o = None →
  ReplyFuture._done o = true →
  await self h
  = (Raise (InvalidStateError await_too_many_times), h).
Proof.
  intros Hload Hres Hfut Hdone.
  unfold await, __await__, bind. rewrite (load_ok h self o Hload).
  rewrite Hfut, Hres, Hdone. reflexivity.
Qed.

Lemma await_next (h : Heap) (self : nat) (o : ReplyFuture.t) r rest :
  handles h !! self = Some o →
  ReplyFuture._results o = r :: rest → ReplyFuture._future o = None →
  await self h
  = (match r with Res v => Ok v | Exc e => Raise e end,
     put self (ReplyFuture.mk (ReplyFuture._xid o) rest None
                 (ReplyFuture._done o)) h).
Proof.
  intros Hload Hres Hfut.
  unfold await, __await__, bind. rewrite (load_ok h self o Hload).
  rewrite Hfut, Hres. simpl. by destruct r.
Qed.

Lemma done_spec (h : Heap) (self : nat) (o : ReplyFuture.t) :
  handles h !! self = Some o →
  done self h
  = (Ok (match ReplyFuture._results o with [] => true | _ => false end
         && ReplyFuture._done o), h).
Proof.
  intros Hload. unfold done, bind. by rewrite (load_ok h self o Hload).
Qed.

(** Iterating a handle that is marked done and holds results only: the
    loop hands over every result in order and then stops. *)
Lemma async_for_drains (vs : list Value) :
  ∀ (h : Heap) (self : nat) (o : ReplyFuture.t) (fuel : nat),
  handles h !! self = Some o →
  ReplyFuture._results o = Res <$> vs → ReplyFuture._future o = None →
  ReplyFuture._done o = true →
  (length vs < fuel)%nat →
  async_for fuel self h
  = (vs, LoopDone, put self (ReplyFuture.mk (ReplyFuture._xid o) [] None true) h).
Proof.
  induction vs as [|v vs IH]; intros h self o fuel Hload Hres Hfut Hdone Hfuel.
  - destruct fuel as [|fuel]; [simpl in Hfuel; lia|].
    simpl. unfold __anext__, bind. rewrite (done_spec h self o Hload).
    rewrite Hres, Hdone. simpl. unfold raise.
    rewrite put_same; [done|]. rewrite Hload. f_equal.
    destruct o; simpl in *; congruence.
  - destruct fuel as [|fuel]; [simpl in Hfuel; lia|].
    simpl. unfold __anext__, bind. rewrite (done_spec h self o Hload).
    rewrite Hres. simpl.
    rewrite (await_next h self o (Res v) _ Hload Hres Hfut).
    erewrite IH; [|by eapply put_lookup|reflexivity|reflexivity|exact Hdone
                  |simpl in Hfuel; lia].
    simpl. by rewrite put_put.
Qed.

(** *** Delivery of replies by [_handle_xid] *)

Lemma put_handle_put_handle (c : Controller) (fut : nat) (o o' : ReplyFuture.t) :
  put_handle fut o' (put_handle fut o c) = put_handle fut o' c.
Proof. unfold put_handle. simpl. by rewrite put_put. Qed.

Lemma handle_xid_chunk (c : Controller) (xid : Z) (fut : nat) (exp : Q)
    (o : ReplyFuture.t) (v : Value) (more : bool) :
  PyDict.get (_reqs c) xid = Some (fut, exp) →
  handles (heap c) !! fut = Some o →
  ReplyFuture._future o = None → ReplyFuture._done o = false →
  _event_has_more v = Ok more →
  _handle_xid v (VInt xid) None c
  = (Ok true,
     if more then
       put_handle fut
         (ReplyFuture.mk (ReplyFuture._xid o) (ReplyFuture._results o ++ [Res v])
            None false) c
     else
       with_reqs (PyDict.delitem (_reqs c) xid)
         (put_handle fut
            (ReplyFuture.mk (ReplyFuture._xid o)
               (ReplyFuture._results o ++ [Res v]) None true) c)).
Proof.
  intros Hreq Hload Hfut Hdone Hmore.
  unfold _handle_xid, bind, xid_key, ret, gets. simpl. rewrite Hreq. simpl.
  unfold on_heap, zoom, set_result, deliver, bind.
  rewrite (load_ok _ _ _ Hload), Hfut. unfold store, modify, lift.
  rewrite Hmore. simpl.
  destruct more; simpl.
  - unfold put_handle, put. by rewrite Hdone.
  - unfold set_done, bind, load. simpl.
    rewrite list_lookup_insert_eq by (by eapply lookup_lt_Some).
    simpl. rewrite Hdone. simpl. unfold store, modify. simpl.
    rewrite list_insert_insert_eq. reflexivity.
Qed.

Lemma deliver_replies_last (vs : list Value) :
  ∀ (c : Controller) (xid : Z) (fut : nat) (exp : Q) (o : ReplyFuture.t)
    (v : Value),
  PyDict.get (_reqs c) xid = Some (fut, exp) →
  handles (heap c) !! fut = Some o →
  ReplyFuture._future o = None → ReplyFuture._done o = false →
  Forall (λ r, _event_has_more r = Ok true) vs →
  _event_has_more v = Ok false →
  deliver_replies xid (vs ++ [v]) c
  = (Ok tt,
     with_reqs (PyDict.delitem (_reqs c) xid)
       (put_handle fut
          (ReplyFuture.mk (ReplyFuture._xid o)
             (ReplyFuture._results o ++ (Res <$> vs ++ [v])) None true) c)).
Proof.
  induction vs as [|r vs IH];
    intros c xid fut exp o v Hreq Hload Hfut Hdone Hvs Hv.
  - unfold deliver_replies. simpl. unfold bind at 1 2.
    rewrite (handle_xid_chunk c xid fut exp o v false) by done. reflexivity.
  - apply Forall_cons in Hvs as [Hr Hvs].
    unfold deliver_replies in *. simpl. unfold bind at 1 2.
    rewrite (handle_xid_chunk c xid fut exp o r true) by done.
    unfold ret at 1.
    rewrite (IH _ xid fut exp
               (ReplyFuture.mk (ReplyFuture._xid o)
                  (ReplyFuture._results o ++ [Res r]) None false) v);
      [|exact Hreq|by eapply put_lookup|done|done|done|done].
    simpl. rewrite <- app_assoc. simpl.
    f_equal. by rewrite put_handle_put_handle.
Qed.

(** [_write] with an xid registers a fresh handle under it. *)
Lemma write_registers (c : Controller) (request : Value) (xid : Z) :
  is_Some (_conn c) →
  xid > 0 →
  let fut := length (handles (heap c)) in
  ∃ c', _write request (Some xid) c = (Ok (Some fut), c') ∧
        PyDict.get (_reqs c') xid = Some (fut, (clock c + _XID_TIMEOUT)%Q) ∧
        handles (heap c') !! fut = Some (ReplyFuture.mk xid [] None false).
Proof.
  intros [frames Hconn] Hxid fut. eexists. split.
  - unfold _write, bind, gets, modify, assert. rewrite Hconn. simpl.
    rewrite bool_decide_eq_true_2 by done. reflexivity.
  - simpl. split.
    + apply PyDictFacts.get_setitem_eq.
    + subst fut. rewrite lookup_app_r by done.
      by rewrite Nat.sub_diag.
Qed.

(** *** Iteration while the replies arrive *)

Lemma handle_xid_chunk_waiting (c : Controller) (xid : Z) (fut : nat) (exp : Q)
    (o : ReplyFuture.t) (f : nat) (v : Value) (more : bool) :
  PyDict.get (_reqs c) xid = Some (fut, exp) →
  handles (heap c) !! fut = Some o →
  ReplyFuture._future o = Some f →
  futures (heap c) !! f = Some Pending →
  ReplyFuture._done o = false →
  _event_has_more v = Ok more →
  _handle_xid v (VInt xid) None c
  = (Ok true,
     let c' :=
       with_heap
         (mkHeap
            (<[fut := ReplyFuture.mk (ReplyFuture._xid o)
                        (ReplyFuture._results o) None (negb more)]>
               (handles (heap c)))
            (<[f := Finished v]> (futures (heap c)))) c in
     if more then c' else with_reqs (PyDict.delitem (_reqs c) xid) c').
Proof.
  intros Hreq Hload Hfut Hpending Hdone Hmore.
  unfold _handle_xid, bind, xid_key, ret, gets. simpl. rewrite Hreq. simpl.
  unfold on_heap, zoom, set_result, deliver, bind.
  rewrite (load_ok _ _ _ Hload), Hfut.
  unfold aio_resolve. rewrite Hpending. unfold store, modify, lift.
  rewrite Hmore. simpl.
  destruct more; simpl.
  - by rewrite Hdone.
  - unfold set_done, bind, load. simpl.
    rewrite list_lookup_insert_eq by (by eapply lookup_lt_Some).
    simpl. rewrite Hdone. simpl. unfold store, modify. simpl.
    rewrite list_insert_insert_eq. reflexivity.
Qed.

Lemma anext_stops (h : Heap) (fut : nat) (o : ReplyFuture.t) :
  handles h !! fut = Some o →
  ReplyFuture._results o = [] → ReplyFuture._done o = true →
  __anext__ fut h = (Raise StopAsyncIteration, h).
Proof.
  intros Hload Hres Hdone. unfold __anext__, bind.
  rewrite (done_spec h fut o Hload), Hres, Hdone. reflexivity.
Qed.

Lemma anext_next (h : Heap) (fut : nat) (o : ReplyFuture.t) r rest :
  handles h !! fut = Some o →
  ReplyFuture._results o = r :: rest → ReplyFuture._future o = None →
  __anext__ fut h
  = (match r with Res v => Ok v | Exc e => Raise e end,
     put fut (ReplyFuture.mk (ReplyFuture._xid o) rest None
                (ReplyFuture._done o)) h).
Proof.
  intros Hload Hres Hfut. unfold __anext__, bind.
  rewrite (done_spec h fut o Hload), Hres. simpl.
  by apply await_next.
Qed.

Lemma anext_suspends (h : Heap) (fut : nat) (o : ReplyFuture.t) :
  handles h !! fut = Some o →
  ReplyFuture._results o = [] → ReplyFuture._future o = None →
  ReplyFuture._done o = false →
  __anext__ fut h
  = (Blocked (length (futures h)),
     mkHeap (<[fut := ReplyFuture.mk (ReplyFuture._xid o) []
                        (Some (length (futures h))) false]> (handles h))
       (futures h ++ [Pending])).
Proof.
  intros Hload Hres Hfut Hdone. unfold __anext__, bind.
  rewrite (done_spec h fut o Hload), Hres, Hdone. simpl.
  unfold await, __await__, bind. rewrite (load_ok h fut o Hload).
  rewrite Hfut, Hres, Hdone. simpl.
  unfold resume. simpl. rewrite lookup_app_r by done.
  by rewrite Nat.sub_diag.
Qed.

Lemma with_heap_id (c : Controller) : with_heap (heap c) c = c.
Proof. by destruct c. Qed.

Lemma Res_inj (l1 l2 : list Value) : Res <$> l1 = Res <$> l2 → l1 = l2.
Proof.
  revert l2. induction l1 as [|x l1 IH]; intros [|y l2]; try done.
  rewrite !fmap_cons. intros [= -> Heq]. f_equal. by apply IH.
Qed.

Lemma Res_middle (l1 l2 : list Reply) (r : Reply) (d : list Value) :
  l1 ++ r :: l2 = Res <$> d → ∃ v, r = Res v.
Proof.
  revert d. induction l1 as [|x l1 IH]; intros [|y d] Heq; try done.
  - rewrite fmap_cons in Heq. injection Heq as -> _. by exists y.
  - rewrite fmap_cons in Heq. injection Heq as _ Heq. by eapply IH.
Qed.

Section Iteration.
Variables (xid : Z) (fut : nat).

Lemma inv_arrives (c : Controller) (k : Iterator) (delivered : list Value)
    (reply : Value) (more : bool) :
  iteration_inv xid fut c k delivered false →
  _event_has_more reply = Ok more →
  iteration_inv xid fut (_handle_xid reply (VInt xid) None c).2 k
    (delivered ++ [reply]) (negb more).
Proof.
  intros (o & Hload & Hdone & Hreq & Hsum & Hshape) Hmore.
  destruct (Hreq eq_refl) as [exp Hget]. unfold owed in Hsum.
  destruct (finished k) as [e|] eqn:Hfin.
  { by destruct Hshape as (_ & ? & _). }
  assert (Hlt : (fut < length (handles (heap c)))%nat)
    by (by eapply lookup_lt_Some).
  destruct (suspended_on k) as [f|] eqn:Hsusp.
  - destruct Hshape as [(Hfut & Hpending & Hres & _) | (Hfut & x & Hresolved)].
    + rewrite (handle_xid_chunk_waiting c xid fut exp o f reply more) by done.
      assert (Hf : (f < length (futures (heap c)))%nat)
        by (by eapply lookup_lt_Some).
      rewrite Hpending, Hres in Hsum. simpl in Hsum. rewrite app_nil_r in Hsum.
      exists (ReplyFuture.mk (ReplyFuture._xid o) (ReplyFuture._results o) None
                (negb more)).
      destruct more; simpl.
      * split; [by apply list_lookup_insert_eq|]. split; [done|].
        split; [intros _; by exists exp|]. unfold owed. rewrite Hsusp, Hfin.
        simpl. rewrite list_lookup_insert_eq by done.
        rewrite Hres, fmap_app, <- Hsum. split; [done|].
        right. split; [done|]. by exists reply.
      * split; [by apply list_lookup_insert_eq|]. split; [done|].
        split; [done|]. unfold owed. rewrite Hsusp, Hfin.
        simpl. rewrite list_lookup_insert_eq by done.
        rewrite Hres, fmap_app, <- Hsum. split; [done|].
        right. split; [done|]. by exists reply.
    + rewrite (handle_xid_chunk c xid fut exp o reply more) by done.
      rewrite Hresolved in Hsum.
      exists (ReplyFuture.mk (ReplyFuture._xid o)
                (ReplyFuture._results o ++ [Res reply]) None (negb more)).
      destruct more; simpl.
      * split; [by apply list_lookup_insert_eq|]. split; [done|].
        split; [intros _; by exists exp|]. unfold owed. rewrite Hsusp, Hfin.
        simpl. rewrite Hresolved. rewrite fmap_app, <- Hsum. simpl.
        split; [by rewrite <- !app_assoc|].
        right. split; [done|]. by exists x.
      * split; [by apply list_lookup_insert_eq|]. split; [done|].
        split; [done|]. unfold owed. rewrite Hsusp, Hfin.
        simpl. rewrite Hresolved. rewrite fmap_app, <- Hsum. simpl.
        split; [by rewrite <- !app_assoc|].
        right. split; [done|]. by exists x.
  - rewrite (handle_xid_chunk c xid fut exp o reply more) by done.
    exists (ReplyFuture.mk (ReplyFuture._xid o)
              (ReplyFuture._results o ++ [Res reply]) None (negb more)).
    destruct more; simpl.
    + split; [by apply list_lookup_insert_eq|]. split; [done|].
      split; [intros _; by exists exp|]. unfold owed. rewrite Hsusp, Hfin.
      simpl. simpl in Hsum. rewrite fmap_app, <- Hsum.
      split; [by rewrite <- !app_assoc | done].
    + split; [by apply list_lookup_insert_eq|]. split; [done|].
      split; [done|]. unfold owed. rewrite Hsusp, Hfin.
      simpl. simpl in Hsum. rewrite fmap_app, <- Hsum.
      split; [by rewrite <- !app_assoc | done].
Qed.

Lemma inv_iterates (c : Controller) (k : Iterator) (delivered : list Value)
    (arrived : bool) :
  iteration_inv xid fut c k delivered arrived →
  iteration_inv xid fut (with_heap (iterator_runs fut k (heap c)).2 c)
    (iterator_runs fut k (heap c)).1 delivered arrived.
Proof.
  intros (o & Hload & Hdone & Hreq & Hsum & Hshape).
  unfold iterator_runs. unfold owed in Hsum.
  destruct (finished k) as [e|] eqn:Hfin.
  { simpl. rewrite with_heap_id. exists o. unfold owed. by rewrite Hfin. }
  assert (Hlt : (fut < length (handles (heap c)))%nat)
    by (by eapply lookup_lt_Some).
  destruct (suspended_on k) as [f|] eqn:Hsusp.
  - destruct Hshape as [(Hfut & Hpending & Hres & Harr) | (Hfut & x & Hresolved)].
    + unfold resume. rewrite Hpending. simpl. rewrite with_heap_id.
      exists o. unfold owed. simpl. rewrite Hpending.
      rewrite Hpending in Hsum. repeat (split; [done|]). by left.
    + unfold resume. rewrite Hresolved. simpl. rewrite with_heap_id.
      exists o. unfold owed. simpl. rewrite Hresolved in Hsum.
      repeat (split; [done|]). split; [|done].
      rewrite fmap_app, <- app_assoc. exact Hsum.
  - simpl in Hsum.
    destruct (ReplyFuture._results o) as [|r rest] eqn:Hres.
    + destruct arrived.
      * rewrite (anext_stops (heap c) fut o) by done. simpl.
        rewrite with_heap_id. exists o. unfold owed. simpl.
        rewrite Hres. repeat (split; [done|]). done.
      * rewrite (anext_suspends (heap c) fut o) by done. simpl.
        exists (ReplyFuture.mk (ReplyFuture._xid o) []
                  (Some (length (futures (heap c)))) false).
        split; [by apply list_lookup_insert_eq|]. split; [done|].
        split; [done|]. unfold owed. simpl.
        rewrite lookup_app_r by done. rewrite Nat.sub_diag. simpl.
        split; [done|]. left. repeat (split; [done|]). done.
    + destruct (Res_middle _ _ _ _ Hsum) as [v ->].
      rewrite (anext_next (heap c) fut o (Res v) rest) by done. simpl.
      exists (ReplyFuture.mk (ReplyFuture._xid o) rest None
                (ReplyFuture._done o)).
      split; [by apply list_lookup_insert_eq|]. split; [done|].
      split; [done|]. unfold owed. simpl.
      split; [|done]. rewrite fmap_app, <- app_assoc. exact Hsum.
Qed.

Lemma interleave_iterates (schedule : list Turn) :
  ∀ (c : Controller) (k : Iterator) (delivered : list Value) (arrived : bool),
  arrivals schedule = [] →
  iteration_inv xid fut c k delivered arrived →
  iteration_inv xid fut (interleave xid fut schedule k c).2
    (interleave xid fut schedule k c).1 delivered arrived.
Proof.
  induction schedule as [|[reply|] schedule IH];
    intros c k delivered arrived Harr Hinv; [done|done|].
  simpl. pose proof (inv_iterates c k delivered arrived Hinv) as Hstep.
  destruct (iterator_runs fut k (heap c)) as [k' h']. by apply IH.
Qed.

Lemma interleave_arrivals (schedule : list Turn) :
  ∀ (c : Controller) (k : Iterator) (delivered vs : list Value) (v : Value),
  arrivals schedule = vs ++ [v] →
  Forall (λ r, _event_has_more r = Ok true) vs →
  _event_has_more v = Ok false →
  iteration_inv xid fut c k delivered false →
  iteration_inv xid fut (interleave xid fut schedule k c).2
    (interleave xid fut schedule k c).1 (delivered ++ vs ++ [v]) true.
Proof.
  induction schedule as [|[reply|] schedule IH];
    intros c k delivered vs v Harr Hvs Hv Hinv.
  - by destruct vs.
  - change (arrivals (Arrives reply :: schedule))
      with (reply :: arrivals schedule) in Harr.
    destruct vs as [|r vs]; simpl in Harr; injection Harr as -> Harr.
    + simpl. apply interleave_iterates; [done|].
      exact (inv_arrives c k delivered v false Hinv Hv).
    + apply Forall_cons in Hvs as [Hr Hvs]. simpl.
      replace (delivered ++ r :: vs ++ [v])
        with ((delivered ++ [r]) ++ vs ++ [v])
        by (by rewrite <- app_assoc).
      apply IH; [done|done|done|].
      exact (inv_arrives c k delivered r true Hinv Hr).
  - simpl. pose proof (inv_iterates c k delivered false Hinv) as Hstep.
    destruct (iterator_runs fut k (heap c)) as [k' h'].
    by apply IH.
Qed.

(** Once every reply has arrived, the task needs one turn per reply it
    has not been given yet, and one more to see the end. *)
Lemma interleave_drains (n : nat) :
  ∀ (c : Controller) (k : Iterator) (delivered : list Value),
  iteration_inv xid fut c k delivered true →
  (length delivered - length (received k) < n)%nat →
  let after := interleave xid fut (replicate n Iterates) k c in
  iteration_inv xid fut after.2 after.1 delivered true ∧
  finished after.1 = Some LoopDone.
Proof.
  induction n as [|n IH]; intros c k delivered Hinv Hn; [lia|].
  simpl. pose proof (inv_iterates c k delivered true Hinv) as Hstep.
  destruct Hinv as (o & Hload & Hdone & _ & Hsum & Hshape).
  assert (Hlen : (length (received k) + length (owed (heap c) k o)
                  = length delivered)%nat).
  { rewrite <- (length_fmap Res (received k)), <- length_app, Hsum.
    by rewrite length_fmap. }
  unfold iterator_runs in *. unfold owed in Hsum, Hlen.
  destruct (finished k) as [e|] eqn:Hfin.
  { destruct Hshape as (-> & _ & Hsusp & _ & Hres).
    rewrite Hsusp, Hres in Hlen. simpl in Hlen.
    destruct n as [|n].
    - simpl. by rewrite Hfin.
    - apply IH; [done | lia]. }
  destruct (suspended_on k) as [f|] eqn:Hsusp.
  - destruct Hshape as [(_ & _ & _ & ?) | (Hfut & x & Hresolved)]; [done|].
    unfold resume in *. rewrite Hresolved in *. simpl in Hstep, Hlen |- *.
    apply IH; [done|]. simpl. rewrite length_app. simpl. lia.
  - simpl in Hlen, Hsum.
    destruct (ReplyFuture._results o) as [|r rest] eqn:Hres.
    + rewrite (anext_stops (heap c) fut o) in * by done.
      simpl in Hstep, Hlen |- *.
      destruct n as [|n]; [done|].
      apply IH; [done|]. simpl. lia.
    + destruct (Res_middle _ _ _ _ Hsum) as [v ->].
      rewrite (anext_next (heap c) fut o (Res v) rest) in * by done.
      simpl in Hstep, Hlen |- *.
      apply IH; [done|]. simpl. rewrite length_app. simpl. lia.
Qed.

Lemma interleave_app (s1 s2 : list Turn) :
  ∀ (k : Iterator) (c : Controller),
  interleave xid fut (s1 ++ s2) k c
  = interleave xid fut s2 (interleave xid fut s1 k c).1
      (interleave xid fut s1 k c).2.
Proof.
  induction s1 as [|[reply|] s1 IH]; intros k c; simpl; [done|apply IH|].
  destruct (iterator_runs fut k (heap c)) as [k' h']. apply IH.
Qed.

(** When the loop has ended, the task has been given every reply, and
    the handle is done with an empty FIFO. *)
Lemma inv_finished (c : Controller) (k : Iterator) (delivered : list Value) :
  iteration_inv xid fut c k delivered true →
  finished k = Some LoopDone →
  received k = delivered ∧
  ∃ o, handles (heap c) !! fut = Some o ∧ ReplyFuture._results o = [] ∧
       ReplyFuture._future o = None ∧ ReplyFuture._done o = true.
Proof.
  intros (o & Hload & Hdone & _ & Hsum & Hshape) Hfin.
  rewrite Hfin in Hshape. destruct Hshape as (_ & _ & Hsusp & Hfut & Hres).
  unfold owed in Hsum. rewrite Hsusp, Hres in Hsum. simpl in Hsum.
  rewrite app_nil_r in Hsum. split; [by apply Res_inj|]. by exists o.
Qed.

Lemma inv_registered (c : Controller) (exp : Q) :
  PyDict.get (_reqs c) xid = Some (fut, exp) →
  handles (heap c) !! fut = Some (ReplyFuture.mk xid [] None false) →
  iteration_inv xid fut c fresh_iterator [] false.
Proof.
  intros Hreq Hload. exists (ReplyFuture.mk xid [] None false).
  split; [done|]. split; [done|]. split; [intros _; by exists exp|]. done.
Qed.

End Iteration.

(** A request is registered; its replies arrive while a task iterates
    the handle, in any order of the two; then the task runs on. *)
Lemma iteration_under_any_schedule (c : Controller) (request : Value)
    (xid : Z) (schedule : list Turn) (vs : list Value) (v : Value) (n : nat) :
  is_Some (_conn c) →
  xid > 0 →
  arrivals schedule = vs ++ [v] →
  Forall (λ r, _event_has_more r = Ok true) vs →
  _event_has_more v = Ok false →
  (length (vs ++ [v]) < n)%nat →
  ∃ fut registered,
    _write request (Some xid) c = (Ok (Some fut), registered) ∧
    let after := interleave xid fut (schedule ++ replicate n Iterates)
                   fresh_iterator registered in
    received after.1 = vs ++ [v] ∧ finished after.1 = Some LoopDone ∧
    await fut (heap after.2)
    = (Raise (InvalidStateError await_too_many_times),
       heap after.2).
Proof.
  intros Hconn Hxid Harr Hvs Hv Hn.
  destruct (write_registers c request xid Hconn Hxid)
    as (c1 & Hwrite & Hreq & Hload).
  set (fut := length (handles (heap c))) in *.
  exists fut, c1. split; [exact Hwrite|]. simpl.
  rewrite interleave_app.
  pose proof (interleave_arrivals xid fut schedule c1 fresh_iterator [] vs v
                Harr Hvs Hv (inv_registered xid fut c1 _ Hreq Hload)) as Hinv.
  simpl in Hinv.
  destruct (interleave xid fut schedule fresh_iterator c1) as [k2 c2].
  simpl in *.
  destruct (interleave_drains xid fut n c2 k2 (vs ++ [v]) Hinv) as [Hend Hfin];
    [lia|].
  destruct (inv_finished xid fut _ _ _ Hend Hfin)
    as (Hgot & o & Hload' & Hres & Hfut & Hdone).
  split; [done|]. split; [done|]. by apply (await_done_empty _ fut o).
Qed.

(** The task starts first and suspends; it is resumed on the first
    reply, finds the second and third in the FIFO, and sees the end. *)
Example interleaved_iteration_runs :
  let after :=
    interleave 8093 0
      [Iterates; Arrives (chunk 1 true); Iterates; Arrives (chunk 2 true);
       Arrives (chunk 3 false); Iterates; Iterates; Iterates]
      fresh_iterator one_request in
  received after.1 = [chunk 1 true; chunk 2 true; chunk 3 false] ∧
  finished after.1 = Some LoopDone ∧
  PyDict.get (_reqs after.2) 8093 = None.
Proof. vm_compute. done. Qed.

(** C6: a handle that is marked done and has an empty FIFO fails a further
    [await] with [InvalidStateError]; a handle with pending entries gives
    the first one to the [await] (returned if it is a result, raised if
    it is an error) and keeps the rest in order; and a request that is
    registered and then receives N replies, all but the last with MORE,
    hands exactly these N values, in order, to an iteration, after which
    a further [await] fails with [InvalidStateError]; the same holds when
    the iteration starts before the replies and the task and the arrivals
    take turns in any order, the task suspending on an empty FIFO. *)
Theorem await_and_iteration_of_reply_handle :
  (∀ (h : Heap) (self : nat) (o : ReplyFuture.t),
     handles h !! self = Some o →
     ReplyFuture._results o = [] → ReplyFuture._future o = None →
     ReplyFuture._done o = true →
     await self h
     = (Raise (InvalidStateError await_too_many_times), h)) ∧
  (∀ (h : Heap) (self : nat) (o : ReplyFuture.t) (r : Reply) (rest : list Reply),
     handles h !! self = Some o →
     ReplyFuture._results o = r :: rest → ReplyFuture._future o = None →
     await self h
     = (match r with Res v => Ok v | Exc e => Raise e end,
        put self (ReplyFuture.mk (ReplyFuture._xid o) rest None
                    (ReplyFuture._done o)) h)) ∧
  (∀ (c : Controller) (request : Value) (xid : Z) (vs : list Value)
     (v : Value) (fuel : nat),
     is_Some (_conn c) →
     xid > 0 →
     Forall (λ r, _event_has_more r = Ok true) vs →
     _event_has_more v = Ok false →
     (length (vs ++ [v]) < fuel)%nat →
     ∃ fut registered h',
       _write request (Some xid) c = (Ok (Some fut), registered) ∧
       async_for fuel fut
         (heap (deliver_replies xid (vs ++ [v]) registered).2)
       = (vs ++ [v], LoopDone, h') ∧
       await fut h'
       = (Raise (InvalidStateError await_too_many_times), h')) ∧
  (∀ (c : Controller) (request : Value) (xid : Z) (schedule : list Turn)
     (vs : list Value) (v : Value) (n : nat),
     is_Some (_conn c) →
     xid > 0 →
     arrivals schedule = vs ++ [v] →
     Forall (λ r, _event_has_more r = Ok true) vs →
     _event_has_more v = Ok false →
     (length (vs ++ [v]) < n)%nat →
     ∃ fut registered,
       _write request (Some xid) c = (Ok (Some fut), registered) ∧
       let after := interleave xid fut (schedule ++ replicate n Iterates)
                      fresh_iterator registered in
       received after.1 = vs ++ [v] ∧ finished after.1 = Some LoopDone ∧
       await fut (heap after.2)
       = (Raise (InvalidStateError await_too_many_times),
          heap after.2)).
Proof.
  split; [exact await_done_empty|]. split; [exact await_next|].
  split; [|exact iteration_under_any_schedule].
  intros c request xid vs v fuel Hconn Hxid Hvs Hv Hfuel.
  destruct (write_registers c request xid Hconn Hxid)
    as (c1 & Hwrite & Hreq & Hload).
  set (fut := length (handles (heap c))) in *.
  exists fut, c1. eexists. split; [exact Hwrite|].
  rewrite (deliver_replies_last vs c1 xid fut _ _ v Hreq Hload) by done.
  simpl. split.
  - apply (async_for_drains (vs ++ [v]) _ fut
             (ReplyFuture.mk xid (Res <$> vs ++ [v]) None true));
      [by eapply put_lookup|reflexivity|reflexivity|reflexivity|exact Hfuel].
  - apply (await_done_empty _ fut (ReplyFuture.mk xid [] None true));
      [|reflexivity|reflexivity|reflexivity].
    eapply put_lookup. by eapply put_lookup.
Qed.

Lemma await_and_iteration_witness :
  is_Some (_conn (with_xid 8093 (running []))) ∧
  8093 > 0 ∧
  Forall (λ r, _event_has_more r = Ok true) [chunk 1 true; chunk 2 true] ∧
  _event_has_more (chunk 3 false) = Ok false ∧
  ∃ h',
    async_for 4 0
      (heap (deliver_replies 8093 [chunk 1 true; chunk 2 true; chunk 3 false]
               one_request).2)
    = ([chunk 1 true; chunk 2 true; chunk 3 false], LoopDone, h') ∧
    (await 0 h').1
    = Raise (InvalidStateError await_too_many_times).
Proof.
  assert (Hxid : 8093 > 0) by lia.
  assert (Hmore : Forall (λ r, _event_has_more r = Ok true)
                    [chunk 1 true; chunk 2 true])
    by (repeat constructor).
  assert (Hlast : _event_has_more (chunk 3 false) = Ok false) by reflexivity.
  assert (Hconn : is_Some (_conn (with_xid 8093 (running [])))) by (by eexists).
  split; [exact Hconn|].
  split; [exact Hxid|]. split; [exact Hmore|]. split; [exact Hlast|].
  destruct (proj1 (proj2 (proj2 await_and_iteration_of_reply_handle))
              (with_xid 8093 (running []))
              (VObj [("id", VInt 8093); ("method", VStr "OFP.DESCRIPTION");
                     ("params", VObj [])])
              8093 [chunk 1 true; chunk 2 true] (chunk 3 false) 4%nat
              Hconn Hxid Hmore Hlast ltac:(simpl; lia))
    as (fut & registered & h' & Hwrite & Hfor & Hawait).
  vm_compute in Hwrite. injection Hwrite as <- <-.
  exists h'. split; [exact Hfor | by rewrite Hawait].
Defined.

End PylibofpFacts.

(** ** [zof]: dispatch, bookkeeping and cleanup *)

Module ZofFacts.
Import Py Json Zof ZofProps ListFacts.
Local Open Scope py_scope.

(** *** The trace *)

Lemma add_trace_nil (c : Controller) : add_trace [] c = c.
Proof. unfold add_trace. rewrite app_nil_r. by destruct c. Qed.

Lemma add_trace_add_trace (l1 l2 : list Effect) (c : Controller) :
  add_trace l2 (add_trace l1 c) = add_trace (l1 ++ l2) c.
Proof. unfold add_trace. simpl. by rewrite app_assoc. Qed.

Lemma emit_spec (e : Effect) (c : Controller) :
  emit e c = (Ok tt, add_trace [e] c).
Proof. reflexivity. Qed.

Lemma for_each_emit {A} (f : A → Effect) (xs : list A) (c : Controller) :
  for_each xs (λ x, emit (f x)) c = (Ok tt, add_trace (f <$> xs) c).
Proof.
  revert c. induction xs as [|x xs IH]; intros c; simpl.
  - by rewrite add_trace_nil.
  - unfold bind. rewrite emit_spec, IH. by rewrite add_trace_add_trace.
Qed.

(** *** [on_exception] *)

Lemma first_defining_spec (apps : list App) (name : string) :
  ∀ (i : nat),
  match first_defining i apps name with
  | Some (j, m) =>
      (i ≤ j)%nat ∧
      (∃ app, apps !! (j - i)%nat = Some app ∧ getattr app name = Some m) ∧
      (∀ k app, (k < j - i)%nat → apps !! k = Some app → getattr app name = None)
  | None => ∀ app, app ∈ apps → getattr app name = None
  end.
Proof.
  induction apps as [|app0 apps IH]; intros i; simpl.
  - intros app Hin. by apply elem_of_nil in Hin.
  - destruct (getattr app0 name) as [m|] eqn:Hattr.
    + split; [lia|]. rewrite Nat.sub_diag. split.
      * by exists app0.
      * intros k app Hk. lia.
    + specialize (IH (S i)).
      destruct (first_defining (S i) apps name) as [[j m]|].
      * destruct IH as (Hle & (app & Hlook & Hget) & Hbefore).
        split; [lia|]. replace (j - i)%nat with (S (j - S i)) by lia.
        split; [by exists app|].
        intros [|k] app' Hk Hlook'; simpl in Hlook'.
        -- by injection Hlook' as <-.
        -- apply (Hbefore k); [lia | done].
      * intros app Hin. apply elem_of_cons in Hin as [-> | Hin]; [done|].
        by apply IH.
Qed.

Lemma on_exception_from_spec (apps : list App) (exc : Exception) :
  ∀ (i : nat) (c : Controller),
  on_exception_from i apps exc c
  = match first_defining i apps "on_exception" with
    | Some (j, h) =>
        if is_coroutine h then (Raise AssertionError, c)
        else (match behaviour h (ExcArgs exc) with
              | Some e => Raise e
              | None => Ok tt
              end,
              add_trace [Called j "on_exception" (ExcArgs exc)] c)
    | None =>
        (Ok tt,
         add_trace [Logged CRITICAL "Exception in zof handler: %r" (Some exc)] c)
    end.
Proof.
  induction apps as [|app apps IH]; intros i c; simpl; [done|].
  destruct (getattr app "on_exception") as [h|]; [|apply IH].
  unfold bind, assert, call. destruct (is_coroutine h); simpl; [done|].
  unfold bind. rewrite emit_spec.
  by destruct (behaviour h (ExcArgs exc)).
Qed.

Lemma on_exception_spec (exc : Exception) (c : Controller) :
  on_exception exc c
  = match first_defining 0 (apps c) "on_exception" with
    | Some (j, h) =>
        if is_coroutine h then (Raise AssertionError, c)
        else (match behaviour h (ExcArgs exc) with
              | Some e => Raise e
              | None => Ok tt
              end,
              add_trace [Called j "on_exception" (ExcArgs exc)] c)
    | None =>
        (Ok tt,
         add_trace [Logged CRITICAL "Exception in zof handler: %r" (Some exc)] c)
    end.
Proof. unfold on_exception, bind, gets. apply on_exception_from_spec. Qed.

(** *** Dispatch *)

Lemma attempt_spec (c : Controller) (dp : option nat) (event : Event)
    (handler : Handler) :
  quiet_on_exception (apps c) →
  try_except (invoke handler dp event) (λ _, true) on_exception c
  = (Ok tt, add_trace (handler_effects (apps c) dp event handler) c).
Proof.
  intros Hquiet. unfold try_except, invoke.
  destruct handler as [app name m|]; [|reflexivity].
  unfold call, bind. rewrite emit_spec. simpl.
  destruct (behaviour m (EventArgs dp event)) as [exc|]; [|reflexivity].
  unfold raise. rewrite on_exception_spec. simpl.
  unfold quiet_on_exception, routed in *.
  destruct (first_defining 0 (apps c) "on_exception") as [[i h]|].
  - destruct Hquiet as [-> Hreturns]. rewrite Hreturns.
    by rewrite add_trace_add_trace.
  - by rewrite add_trace_add_trace.
Qed.

Lemma attempts_spec (dp : option nat) (event : Event) (handlers : list Handler) :
  ∀ (c : Controller),
  quiet_on_exception (apps c) →
  for_each handlers (λ handler,
    try_except (invoke handler dp event) (λ _, true) on_exception) c
  = (Ok tt, add_trace (dispatch_effects (apps c) dp event handlers) c).
Proof.
  induction handlers as [|handler handlers IH]; intros c Hquiet; simpl.
  - by rewrite add_trace_nil.
  - unfold bind. rewrite attempt_spec by done.
    rewrite IH by done. simpl.
    by rewrite add_trace_add_trace.
Qed.

Lemma collect_handlers_spec (apps : list App) (name : string) :
  ∀ (i : nat) (c : Controller),
  collect_handlers i apps name c
  = match handlers_of i apps name with
    | Some hs => (Ok hs, c)
    | None => (Raise AssertionError, c)
    end.
Proof.
  induction apps as [|app apps IH]; intros i c; simpl; [done|].
  destruct (getattr app name) as [m|]; [|apply IH].
  unfold bind, assert. destruct (is_coroutine m); simpl; [done|].
  rewrite IH. by destruct (handlers_of (S i) apps name).
Qed.

Lemma with_handler_cache_id (c : Controller) :
  with_handler_cache (_handler_cache c) c = c.
Proof. by destruct c. Qed.

Lemma find_handlers_spec (t : string) (c : Controller) :
  zof_find_handlers (VStr t) c
  = match found_handlers c ("on_" +:+ lower t) with
    | Some hs =>
        (Ok hs,
         with_handler_cache (<["on_" +:+ lower t := hs]> (_handler_cache c)) c)
    | None => (Raise AssertionError, c)
    end.
Proof.
  unfold zof_find_handlers, found_handlers, bind, ret, gets. simpl.
  destruct (_handler_cache c !! ("on_" +:+ lower t)) as [hs|] eqn:Hcache.
  - rewrite insert_id by done. by rewrite with_handler_cache_id.
  - rewrite collect_handlers_spec.
    by destruct (handlers_of 0 (apps c) ("on_" +:+ lower t)).
Qed.

Lemma dispatch_spec (t : string) (dp : option nat) (event : Event)
    (c : Controller) (hs : list Handler) :
  found_handlers c ("on_" +:+ lower t) = Some hs →
  quiet_on_exception (apps c) →
  zof_dispatch_event (VStr t) dp event c
  = (Ok tt,
     add_trace (dispatch_effects (apps c) dp event hs)
       (with_handler_cache (<["on_" +:+ lower t := hs]> (_handler_cache c)) c)).
Proof.
  intros Hfound Hquiet. unfold zof_dispatch_event, bind.
  rewrite find_handlers_spec, Hfound.
  by rewrite attempts_spec.
Qed.

(** *** The exception of a handler *)

Lemma attempt_returns (c : Controller) (dp : option nat) (event : Event)
    (handler : Handler) :
  returns dp event handler →
  try_except (invoke handler dp event) (λ _, true) on_exception c
  = (Ok tt, add_trace (handler_effects (apps c) dp event handler) c).
Proof.
  intros Hreturns. unfold try_except, invoke.
  destruct handler as [app name m|]; [|reflexivity].
  unfold call, bind. rewrite emit_spec. simpl in *. by rewrite Hreturns.
Qed.

Lemma attempts_return (dp : option nat) (event : Event) (handlers : list Handler) :
  ∀ (c : Controller),
  Forall (returns dp event) handlers →
  dispatch_to handlers dp event c
  = (Ok tt, add_trace (dispatch_effects (apps c) dp event handlers) c).
Proof.
  unfold dispatch_to.
  induction handlers as [|handler handlers IH]; intros c Hreturn; simpl.
  - by rewrite add_trace_nil.
  - apply Forall_cons in Hreturn as [Hhandler Hreturn].
    unfold bind. rewrite attempt_returns by done.
    rewrite IH by done. simpl.
    by rewrite add_trace_add_trace.
Qed.

Lemma dispatch_to_app (pre rest : list Handler) (dp : option nat)
    (event : Event) :
  ∀ (c c1 : Controller),
  dispatch_to pre dp event c = (Ok tt, c1) →
  dispatch_to (pre ++ rest) dp event c = dispatch_to rest dp event c1.
Proof.
  unfold dispatch_to.
  induction pre as [|handler pre IH]; intros c c1 Hpre; simpl in *.
  - by injection Hpre as <-.
  - unfold bind in *.
    destruct (try_except (invoke handler dp event) (λ _, true) on_exception c)
      as [[[]|e|f] c2]; [|discriminate..].
    by apply IH.
Qed.

(** C9, as the code has it: when a handler raises in
    [zof_dispatch_event], the exception goes to [on_exception], which
    looks for the first app, in registration order, that has an
    [on_exception].  The dispatch gets to the handler when the handlers
    before it have returned, or when the exception handler in charge is
    a plain function that returns (or there is none).  If no app has one,
    the exception is logged and the dispatch goes on with the handlers
    that follow.  If that [on_exception] is a plain function, it is
    called once with the exception, no [on_exception] of a later app is
    called for it, and the dispatch goes on with the handlers that
    follow when the call returns; an exception of the call leaves
    [zof_dispatch_event].  If it is a coroutine function, it is not
    called: the assertion fails, [AssertionError] leaves
    [zof_dispatch_event], the exception of the handler is not logged
    and the handlers that follow are not called. *)
Theorem dispatch_hands_exception_to_first_on_exception
    (c : Controller) (t : string) (dp : option nat) (event : Event)
    (pre post : list Handler) (app : nat) (name : string) (m : Method)
    (exc : Exception) :
  found_handlers c ("on_" +:+ lower t)
  = Some (pre ++ AppHandler app name m :: post) →
  Forall (returns dp event) pre ∨ quiet_on_exception (apps c) →
  behaviour m (EventArgs dp event) = Some exc →
  let raised_at :=
    add_trace
      (dispatch_effects (apps c) dp event pre
       ++ [Called app name (EventArgs dp event)])
      (with_handler_cache
         (<["on_" +:+ lower t := pre ++ AppHandler app name m :: post]>
            (_handler_cache c)) c) in
  match first_defining 0 (apps c) "on_exception" with
  | Some (i, h) =>
      (∃ a, apps c !! i = Some a ∧ getattr a "on_exception" = Some h) ∧
      (∀ k a, (k < i)%nat → apps c !! k = Some a →
              getattr a "on_exception" = None) ∧
      zof_dispatch_event (VStr t) dp event c
      = if is_coroutine h then (Raise AssertionError, raised_at)
        else match behaviour h (ExcArgs exc) with
             | Some e =>
                 (Raise e,
                  add_trace [Called i "on_exception" (ExcArgs exc)] raised_at)
             | None =>
                 dispatch_to post dp event
                   (add_trace [Called i "on_exception" (ExcArgs exc)]
                      raised_at)
             end
  | None =>
      (∀ a, a ∈ apps c → getattr a "on_exception" = None) ∧
      zof_dispatch_event (VStr t) dp event c
      = dispatch_to post dp event
          (add_trace
             [Logged CRITICAL "Exception in zof handler: %r" (Some exc)]
             raised_at)
  end.
Proof.
  intros Hfound Hreached Hraises raised_at.
  set (c0 := with_handler_cache
               (<["on_" +:+ lower t := pre ++ AppHandler app name m :: post]>
                  (_handler_cache c)) c) in *.
  assert (Hpre : dispatch_to pre dp event c0
                 = (Ok tt, add_trace (dispatch_effects (apps c) dp event pre) c0)).
  { destruct Hreached as [Hreturn | Hquiet].
    - exact (attempts_return dp event pre c0 Hreturn).
    - exact (attempts_spec dp event pre c0 Hquiet). }
  assert (Hrun : zof_dispatch_event (VStr t) dp event c
                 = bind (on_exception exc)
                     (λ _, dispatch_to post dp event) raised_at).
  { unfold zof_dispatch_event, bind at 1.
    rewrite find_handlers_spec, Hfound.
    change (for_each ?hs _) with (dispatch_to hs dp event).
    rewrite (dispatch_to_app pre _ dp event c0 _ Hpre).
    unfold dispatch_to at 1. simpl.
    unfold bind at 1, try_except, invoke, call, bind at 1.
    rewrite emit_spec, Hraises. simpl.
    rewrite add_trace_add_trace. fold raised_at.
    unfold bind. by destruct (on_exception exc raised_at) as [[[]|e|f] c2]. }
  rewrite Hrun. unfold bind. rewrite on_exception_spec.
  change (apps raised_at) with (apps c).
  pose proof (first_defining_spec (apps c) "on_exception" 0%nat) as Hfirst.
  destruct (first_defining 0 (apps c) "on_exception") as [[i h]|].
  - destruct Hfirst as (_ & Hat & Hbefore). rewrite Nat.sub_0_r in Hat, Hbefore.
    split; [exact Hat|]. split; [exact Hbefore|].
    destruct (is_coroutine h); [reflexivity|].
    by destruct (behaviour h (ExcArgs exc)).
  - split; [exact Hfirst | reflexivity].
Qed.

Lemma dispatch_hands_exception_witness :
  trace (zof_dispatch_event (VStr "CHANNEL_UP") None []
           (init reporting_apps no_config)).2
  = [Called 0 "on_channel_up" (EventArgs None []);
     Called 1 "on_exception" (ExcArgs (UserError "FAIL"));
     Called 2 "on_channel_up" (EventArgs None [])].
Proof.
  pose proof (dispatch_hands_exception_to_first_on_exception
                (init reporting_apps no_config) "CHANNEL_UP" None []
                [] [AppHandler 2 "on_channel_up" returning]
                0 "on_channel_up" raising (UserError "FAIL")
                eq_refl (or_introl (Forall_nil_2 _)) eq_refl) as Hthm.
  change (first_defining 0 (apps (init reporting_apps no_config))
            "on_exception")
    with (Some (1%nat, returning)) in Hthm.
  destruct Hthm as (_ & _ & Hrun).
  exact (eq_trans (f_equal (λ r, trace r.2) Hrun) eq_refl).
Defined.

(** C9, counterexample: the first app that has an [on_exception] has a
    coroutine function under that name.  The exception of the channel-up
    handler of app 0 reaches no [on_exception], neither that one nor
    the one of a later app, and is not logged either: the assertion
    fails, and [AssertionError] ends the dispatch before the handler of
    app 2 is called. *)
Lemma coroutine_on_exception_is_not_called :
  first_defining 0 coroutine_reporting_apps "on_exception"
  = Some (0%nat, coroutine) ∧
  ∃ c', zof_dispatch_event (VStr "CHANNEL_UP") None []
          (init coroutine_reporting_apps no_config)
        = (Raise AssertionError, c') ∧
        trace c' = [Called 0 "on_channel_up" (EventArgs None [])].
Proof.
  split; [reflexivity|].
  eexists. split; [vm_compute; reflexivity | reflexivity].
Qed.

(** *** Channel bookkeeping in the event loop *)


Lemma zof_cancel_tasks_spec (dp : nat) (o : Datapath) (c : Controller) :
  datapaths c !! dp = Some o →
  zof_cancel_tasks dp c = (Ok tt, add_trace (Cancelled <$> zof_tasks o) c).
Proof.
  intros Hload. unfold zof_cancel_tasks, bind, load. rewrite Hload.
  apply for_each_emit.
Qed.

(** *** The two indexes agree in every state the controller reaches *)

Lemma same_tables_refl (c : Controller) : same_tables c c.
Proof. repeat split. intros a o Hload. by exists o. Qed.

(** For a state that differs from [c] in the trace, the handler cache or
    the task list only. *)
Ltac same_tables_by_computation :=
  split; [reflexivity|]; split; [reflexivity|];
  let a := fresh "a" in let o := fresh "o" in let Hload := fresh "Hload" in
  intros a o Hload; exists o; split; [exact Hload | reflexivity].

Lemma same_tables_trans (c1 c2 c3 : Controller) :
  same_tables c1 c2 → same_tables c2 c3 → same_tables c1 c3.
Proof.
  intros (Hc & Hd & Hs) (Hc' & Hd' & Hs'). split; [congruence|].
  split; [congruence|]. intros a o Hload.
  destruct (Hs a o Hload) as (o' & Hload' & Hid).
  destruct (Hs' a o' Hload') as (o'' & Hload'' & Hid').
  exists o''. split; [done | congruence].
Qed.

Lemma same_tables_table_ok (c c' : Controller) :
  same_tables c c' → table_ok c → table_ok c'.
Proof.
  intros (Hc & Hd & Hs) (Hwf & Hnd & Hagree). unfold table_ok.
  rewrite Hc, Hd. split; [done|]. split; [done|].
  intros key a Hin. destruct (Hagree key a Hin) as (o & Hload & Hdpid).
  destruct (Hs a o Hload) as (o' & Hload' & Hid).
  exists o'. split; [done|]. by rewrite Hid.
Qed.

Lemma framed_keeps {A} (m : CM A) : framed m → keeps table_ok m.
Proof. intros Hm c Hok. eapply same_tables_table_ok; [apply Hm | done]. Qed.

Lemma framed_ret {A} (a : A) : framed (ret a).
Proof. intros c. apply same_tables_refl. Qed.

Lemma framed_raise {A} (e : Exception) : framed (raise (A := A) e).
Proof. intros c. apply same_tables_refl. Qed.

Lemma framed_gets {A} (f : Controller → A) : framed (gets f).
Proof. intros c. apply same_tables_refl. Qed.

Lemma framed_assert (b : bool) (e : Exception) : framed (assert b e).
Proof. destruct b; [apply framed_ret | apply framed_raise]. Qed.

Lemma framed_bind {A B} (m : CM A) (k : A → CM B) :
  framed m → (∀ a, framed (k a)) → framed (bind m k).
Proof.
  intros Hm Hk c. unfold bind. specialize (Hm c).
  destruct (m c) as [[a|e|f] c1]; simpl in *; [|done..].
  eapply same_tables_trans; [exact Hm | apply Hk].
Qed.

Lemma framed_try_except {A} (body : CM A) (catch : Exception → bool)
    (handler : Exception → CM A) :
  framed body → (∀ e, framed (handler e)) →
  framed (try_except body catch handler).
Proof.
  intros Hbody Hhandler c. unfold try_except. specialize (Hbody c).
  destruct (body c) as [[a|e|f] c1]; simpl in *; [done| |done].
  destruct (catch e); [|done].
  eapply same_tables_trans; [exact Hbody | apply Hhandler].
Qed.

Lemma framed_for_each {A} (xs : list A) (body : A → CM unit) :
  (∀ x, framed (body x)) → framed (for_each xs body).
Proof.
  intros Hbody. induction xs as [|x xs IH]; simpl.
  - apply framed_ret.
  - apply framed_bind; [apply Hbody | intros _; apply IH].
Qed.

Lemma framed_emit (e : Effect) : framed (emit e).
Proof. intros c. same_tables_by_computation. Qed.

Lemma framed_of_sum {A} (r : Exception + A) : framed (of_sum r).
Proof. destruct r; [apply framed_raise | apply framed_ret]. Qed.

Lemma framed_item (event : Event) (k : string) : framed (item event k).
Proof. unfold item. destruct (assoc event k); [apply framed_ret | apply framed_raise]. Qed.

Lemma framed_key_of (v : Value) : framed (key_of v).
Proof. unfold key_of. destruct (hashable v); [apply framed_ret | apply framed_raise]. Qed.

Lemma framed_load (dp : nat) : framed (load dp).
Proof. intros c. unfold load. destruct (datapaths c !! dp); apply same_tables_refl. Qed.

(** Writing back a datapath with the id it had. *)
Lemma same_tables_store (c : Controller) (dp : nat) (o o' : Datapath) :
  datapaths c !! dp = Some o → id o' = id o →
  same_tables c (with_datapaths (<[dp := o']> (datapaths c)) c).
Proof.
  intros Hload Hid. split; [done|]. split; [done|]. simpl.
  intros a o0 Hload0. destruct (decide (a = dp)) as [->|Hne].
  - exists o'. rewrite list_lookup_insert_eq by (by eapply lookup_lt_Some).
    split; [done | congruence].
  - exists o0. by rewrite list_lookup_insert_ne.
Qed.

Lemma framed_update (dp : nat) (f : Datapath → Datapath) :
  (∀ o, id (f o) = id o) →
  framed (bind (load dp) (λ o, store dp (f o))).
Proof.
  intros Hid c. unfold bind, load.
  destruct (datapaths c !! dp) as [o|] eqn:Hload; [|apply same_tables_refl].
  by apply (same_tables_store c dp o).
Qed.

Lemma framed_set_closed (dp : nat) : framed (set_closed dp).
Proof. apply (framed_update dp (λ o, mkDatapath _ _ _ _ _ _)). done. Qed.

Lemma framed_zof_from_port_status (dp : nat) (event : Event) :
  framed (zof_from_port_status dp event).
Proof. apply (framed_update dp (λ o, mkDatapath _ _ _ _ _ _)). done. Qed.

Lemma framed_zof_from_channel_up (dp : nat) (event : Event) :
  framed (zof_from_channel_up dp event).
Proof. apply (framed_update dp (λ o, mkDatapath _ _ _ _ _ _)). done. Qed.

Lemma framed_zof_cancel_tasks (dp : nat) : framed (zof_cancel_tasks dp).
Proof.
  apply framed_bind; [apply framed_load|]. intros o.
  apply framed_for_each. intros t. apply framed_emit.
Qed.

Lemma framed_call (i : nat) (name : string) (m : Method) (args : Args) :
  framed (call i name m args).
Proof.
  apply framed_bind; [apply framed_emit|]. intros _.
  destruct (behaviour m args); [apply framed_raise | apply framed_ret].
Qed.

Lemma framed_on_exception (exc : Exception) : framed (on_exception exc).
Proof.
  apply framed_bind; [apply framed_gets|]. intros apps.
  generalize 0%nat. induction apps as [|app apps IH]; intros i; simpl.
  - apply framed_emit.
  - destruct (getattr app "on_exception"); [|apply IH].
    apply framed_bind; [apply framed_assert | intros _; apply framed_call].
Qed.

Lemma framed_collect_handlers (apps : list App) (name : string) (i : nat) :
  framed (collect_handlers i apps name).
Proof.
  revert i. induction apps as [|app apps IH]; intros i; simpl.
  - apply framed_ret.
  - destruct (getattr app name); [|apply IH].
    apply framed_bind; [apply framed_assert|]. intros _.
    apply framed_bind; [apply IH|]. intros hs. apply framed_ret.
Qed.

Lemma framed_zof_find_handlers (event_type : Value) :
  framed (zof_find_handlers event_type).
Proof.
  apply framed_bind.
  { destruct event_type; first [apply framed_ret | apply framed_raise]. }
  intros name. apply framed_bind; [apply framed_gets|]. intros cache.
  destruct (cache !! name); [apply framed_ret|].
  apply framed_bind; [apply framed_gets|]. intros apps.
  apply framed_bind; [apply framed_collect_handlers|]. intros found.
  apply framed_bind; [|intros _; apply framed_ret].
  intros c. same_tables_by_computation.
Qed.

Lemma framed_zof_dispatch_event (event_type : Value) (dp : option nat)
    (event : Event) :
  framed (zof_dispatch_event event_type dp event).
Proof.
  apply framed_bind; [apply framed_zof_find_handlers|]. intros handlers.
  apply framed_for_each. intros handler.
  apply framed_try_except; [|apply framed_on_exception].
  destruct handler; [apply framed_call | apply framed_emit].
Qed.

Lemma framed_zof_find_dp (event : Event) : framed (zof_find_dp event).
Proof.
  unfold zof_find_dp.
  destruct (assoc event "conn_id") as [conn|]; [|apply framed_ret].
  assert (Hlookup : framed
    (bind (key_of conn) (λ key, bind (gets _connections) (λ conns,
       match PyDict.get conns key with
       | Some dp => ret (Some dp)
       | None => bind (emit (Logged WARNING "Unknown conn_id %r" None))
                   (λ _, ret None)
       end)))).
  { apply framed_bind; [apply framed_key_of|]. intros key.
    apply framed_bind; [apply framed_gets|]. intros conns.
    destruct (PyDict.get conns key); [apply framed_ret|].
    apply framed_bind; [apply framed_emit | intros _; apply framed_ret]. }
  destruct conn; first [apply framed_ret | exact Hlookup].
Qed.

Lemma framed_zof_invoke_lifecycle (event_type : string) :
  framed (zof_invoke_lifecycle event_type).
Proof.
  apply framed_bind; [apply framed_gets|]. intros apps.
  apply framed_for_each. intros [i app].
  destruct (getattr app _); [apply framed_call | apply framed_ret].
Qed.

Lemma framed_zof_cleanup : framed zof_cleanup.
Proof.
  apply framed_bind; [apply framed_gets|]. intros conns.
  apply framed_bind.
  { apply framed_for_each. intros dp.
    apply framed_bind; [apply framed_load|]. intros o.
    destruct (negb (closed o)); [|apply framed_ret].
    apply framed_bind; [apply framed_set_closed|]. intros _.
    apply framed_bind; [apply framed_zof_cancel_tasks|]. intros _.
    apply framed_zof_dispatch_event. }
  intros _. apply framed_bind.
  { apply framed_bind; [apply framed_gets|]. intros [ts|].
    - apply framed_for_each. intros t. apply framed_emit.
    - apply framed_raise. }
  intros _. apply framed_bind; [apply framed_gets|]. intros [ts|].
  - apply framed_emit.
  - apply framed_raise.
Qed.

Lemma channel_down_keeps_table_ok (event : Event) :
  keeps table_ok (zof_channel_down event).
Proof.
  intros c Hok. pose proof Hok as (Hwf & Hnd & Hagree).
  unfold zof_channel_down, bind, item, key_of, gets, PyDict.pop.
  destruct (assoc event "conn_id") as [conn|]; [|exact Hok]. simpl.
  destruct (hashable conn) as [key|]; [|exact Hok]. simpl.
  destruct (PyDict.get (_connections c) key) as [dp|] eqn:Hget; [|exact Hok].
  simpl.
  destruct (Hagree key dp (PyDictFacts.get_Some_in _ _ _ Hget))
    as (o & Hload & Hdpid).
  unfold load. simpl. rewrite Hload. simpl. rewrite Hdpid.
  set (c2 := with_dpids (delete (id o) (_dpids c))
               (with_connections (PyDict.delitem (_connections c) key) c)).
  assert (Hok2 : table_ok c2).
  { split; [by apply PyDictFacts.wf_delitem|]. split.
    - eapply sublist_NoDup; [exact Hnd|].
      apply PyDictFacts.values_delitem_sublist.
    - intros k a Hin. simpl in Hin.
      destruct (Hagree k a (PyDictFacts.in_delitem _ _ _ _ Hin))
        as (o' & Hload' & Hdpid').
      exists o'. split; [exact Hload'|]. simpl.
      rewrite lookup_delete_ne; [exact Hdpid'|].
      intros Hid. rewrite Hid in Hdpid. rewrite Hdpid' in Hdpid.
      injection Hdpid as ->.
      apply (PyDictFacts.value_not_in_delitem (_connections c) key dp Hnd Hget).
      apply list_elem_of_fmap. by exists (k, dp). }
  assert (Hrest : framed
    (bind (zof_cancel_tasks dp) (λ _,
       if closed o then ret None
       else bind (set_closed dp) (λ _, ret (Some dp))))).
  { apply framed_bind; [apply framed_zof_cancel_tasks|]. intros _.
    destruct (closed o); [apply framed_ret|].
    apply framed_bind; [apply framed_set_closed | intros _; apply framed_ret]. }
  exact (framed_keeps _ Hrest c2 Hok2).
Qed.

Lemma channel_up_keeps_table_ok (event : Event) :
  keeps table_ok (zof_channel_up event).
Proof.
  intros c Hok. pose proof Hok as (Hwf & Hnd & Hagree).
  unfold zof_channel_up, bind, item, key_of, gets.
  destruct (assoc event "conn_id") as [conn|]; [|exact Hok]. simpl.
  destruct (assoc event "datapath_id") as [dpid_str|]; [|exact Hok]. simpl.
  assert (Hparse :
    (∃ e, (match dpid_str with
           | VStr s =>
               match int16 (remove_colons s) with
               | Some n => ret n
               | None => raise (ValueError "invalid literal for int() with base 16")
               end
           | _ => raise (AttributeError "replace")
           end : CM Z) c = (Raise e, c)) ∨
    (∃ n, (match dpid_str with
           | VStr s =>
               match int16 (remove_colons s) with
               | Some n => ret n
               | None => raise (ValueError "invalid literal for int() with base 16")
               end
           | _ => raise (AttributeError "replace")
           end : CM Z) c = (Ok n, c))).
  { destruct dpid_str as [| | |s| |]; try (left; eexists; reflexivity).
    destruct (int16 (remove_colons s)) as [n|].
    - right. by exists n.
    - left. eexists. reflexivity. }
  destruct Hparse as [[e ->] | [dp_id ->]]; [exact Hok|].
  destruct (hashable conn) as [key|]; [|exact Hok]. simpl.
  unfold PyDict.contains.
  destruct (PyDict.get (_connections c) key) as [?|] eqn:Hget; [exact Hok|].
  simpl.
  destruct (_dpids c !! dp_id) as [?|] eqn:Hdpid.
  { rewrite bool_decide_eq_false_2 by done. exact Hok. }
  rewrite bool_decide_eq_true_2 by done. simpl.
  unfold zof_from_channel_up, bind, load, store, modify. simpl.
  rewrite lookup_app_r by done. rewrite Nat.sub_diag. simpl.
  set (dp := length (datapaths c)).
  assert (Hold : ∀ a o, datapaths c !! a = Some o →
            <[dp := mkDatapath conn dp_id false [] (Some event) []]>
              (datapaths c ++ [mkDatapath conn dp_id false [] None []]) !! a
            = Some o).
  { intros a o Hload.
    assert (a < dp)%nat by (by eapply lookup_lt_Some).
    rewrite list_lookup_insert_ne by lia.
    by rewrite lookup_app_l. }
  split; [by apply PyDictFacts.wf_setitem|]. split.
  - simpl. rewrite PyDictFacts.values_setitem_fresh by done.
    apply NoDup_app. split; [exact Hnd|]. split; [|apply NoDup_singleton].
    intros a Hin Hdp. apply list_elem_of_singleton in Hdp.
    apply list_elem_of_fmap in Hin as ([k a'] & Ha & Hin).
    simpl in Ha. subst a'.
    destruct (Hagree k a Hin) as (o & Hload & _).
    apply lookup_lt_Some in Hload. unfold dp in Hdp. lia.
  - intros k a Hin. simpl in Hin.
    apply (PyDictFacts.in_setitem_fresh _ _ _ _ _ Hget) in Hin
      as [[-> ->] | Hin].
    + exists (mkDatapath conn dp_id false [] (Some event) []). simpl. split.
      * apply list_lookup_insert_eq. rewrite length_app. simpl. lia.
      * apply lookup_insert_eq.
    + destruct (Hagree k a Hin) as (o & Hload & Hid).
      exists o. simpl. split; [by apply Hold|].
      rewrite lookup_insert_ne; [done|].
      intros Heq. rewrite <- Heq in Hid. congruence.
Qed.

Section LoopKeepsTables.
Context `{Collaborators}.

Lemma turn_keeps_table_ok (event : Event) :
  keeps table_ok (zof_event_loop_turn event).
Proof.
  intros c Hok. unfold zof_event_loop_turn, bind at 1, item.
  destruct (assoc event "type") as [event_type|]; [|exact Hok]. simpl.
  assert (Hdispatch : ∀ (next : option (option nat * Event)),
    framed (match next with
            | None => ret tt
            | Some (dp, event) =>
                bind (zof_dispatch_event event_type dp event)
                  (λ _, emit Yielded)
            end)).
  { intros [[dp event']|]; [|apply framed_ret].
    apply framed_bind; [apply framed_zof_dispatch_event|].
    intros _. apply framed_emit. }
  unfold bind at 1.
  destruct (is_str event_type "CHANNEL_UP").
  { unfold bind at 1. pose proof (channel_up_keeps_table_ok event c Hok) as Hup.
    destruct (zof_channel_up event c) as [[dp|e|f] c1]; simpl in *; try done.
    exact (framed_keeps _ (Hdispatch (Some (Some dp, event))) c1 Hup). }
  destruct (is_str event_type "CHANNEL_DOWN").
  { unfold bind at 1.
    pose proof (channel_down_keeps_table_ok event c Hok) as Hdown.
    destruct (zof_channel_down event c) as [[[dp|]|e|f] c1]; simpl in *;
      try done.
    exact (framed_keeps _ (Hdispatch (Some (Some dp, event))) c1 Hdown). }
  assert (Hother : framed
    (bind (bind (zof_find_dp event) (λ dp,
       bind (match dp with
             | Some a => bind (load a) (λ o, ret (closed o))
             | None => ret false
             end)
         (λ is_closed : bool,
            if is_closed then ret None
            else if is_str event_type "PACKET_IN" then
              bind (of_sum (Packet_zof_from_packet_in event))
                (λ event', ret (Some (dp, event')))
            else
              match dp with
              | Some a =>
                  bind (if is_str event_type "PORT_STATUS"
                        then zof_from_port_status a event else ret tt)
                    (λ _, ret (Some (dp, event)))
              | None => ret (Some (dp, event))
              end)))
       (λ next,
          match next with
          | None => ret tt
          | Some (dp, event) =>
              bind (zof_dispatch_event event_type dp event) (λ _, emit Yielded)
          end))).
  { apply framed_bind; [|exact Hdispatch].
    apply framed_bind; [apply framed_zof_find_dp|]. intros dp.
    apply framed_bind.
    { destruct dp as [a|]; [|apply framed_ret].
      apply framed_bind; [apply framed_load | intros o; apply framed_ret]. }
    intros [|]; [apply framed_ret|].
    destruct (is_str event_type "PACKET_IN").
    { apply framed_bind; [apply framed_of_sum | intros ?; apply framed_ret]. }
    destruct dp as [a|]; [|apply framed_ret].
    apply framed_bind; [|intros _; apply framed_ret].
    destruct (is_str event_type "PORT_STATUS");
      [apply framed_zof_from_port_status | apply framed_ret]. }
  exact (framed_keeps _ Hother c Hok).
Qed.

Lemma event_loop_keeps_table_ok (queue : list Event) :
  keeps table_ok (zof_event_loop queue).
Proof.
  induction queue as [|event queue IH]; intros c Hok; simpl.
  - exact (framed_keeps _ (framed_emit _) c Hok).
  - unfold bind, try_except.
    pose proof (turn_keeps_table_ok event c Hok) as Hturn.
    destruct (zof_event_loop_turn event c) as [[[]|e|f] c1]; simpl in *.
    + by apply IH.
    + apply IH. exact (framed_keeps _ (framed_emit _) c1 Hturn).
    + exact Hturn.
Qed.

End LoopKeepsTables.

Lemma keeps_bind {A B} (I : Controller → Prop) (m : CM A) (k : A → CM B) :
  keeps I m → (∀ a, keeps I (k a)) → keeps I (bind m k).
Proof.
  intros Hm Hk c Hc. unfold bind. specialize (Hm c Hc).
  destruct (m c) as [[a|e|f] c1]; simpl in *; [|done..].
  by apply Hk.
Qed.

Section RunKeepsTables.
Context `{Collaborators}.

Lemma framed_zof_listen : framed zof_listen.
Proof.
  apply framed_bind; [apply framed_gets|]. intros config.
  destruct (listen_endpoints config) as [|endpoint endpoints];
    [apply framed_ret|].
  apply framed_bind.
  { destruct (bool_decide (tls_cert config = ""));
      [apply framed_ret | apply framed_of_sum]. }
  intros tls_id. apply framed_for_each. intros e.
  apply framed_bind; [apply framed_of_sum | intros ?; apply framed_ret].
Qed.

(** The indexes agree when [run] gets to the cleanup. *)
Lemma table_ok_after_event_loop (queue : list Event) (c0 : Controller) :
  table_ok c0 →
  table_ok ((zof_invoke_lifecycle "START" ;;; zof_listen ;;;
             zof_event_loop queue)%py (with_tasks (Some []) c0)).2.
Proof.
  intros Hok.
  assert (Hstart : table_ok (with_tasks (Some []) c0)).
  { eapply same_tables_table_ok; [|exact Hok]. same_tables_by_computation. }
  revert Hstart. generalize (with_tasks (Some []) c0).
  apply keeps_bind; [apply framed_keeps, framed_zof_invoke_lifecycle|].
  intros _. apply keeps_bind; [apply framed_keeps, framed_zof_listen|].
  intros _. apply event_loop_keeps_table_ok.
Qed.

End RunKeepsTables.

Lemma init_table_ok (apps : list App) (config : Configuration) :
  table_ok (init apps config).
Proof.
  split; [apply NoDup_nil_2|]. split; [apply NoDup_nil_2|].
  intros key a Hin. by apply elem_of_nil in Hin.
Qed.

Lemma table_ok_allocated (c : Controller) :
  table_ok c → connections_allocated c.
Proof.
  intros (_ & _ & Hagree) a Hin.
  apply list_elem_of_fmap in Hin as ([k a'] & -> & Hin).
  destruct (Hagree k a' Hin) as (o & Hload & _). by exists o.
Qed.

(** *** Channel-down in the event loop *)

Section WithCollaborators.
Context `{Collaborators}.

(** C8: a CHANNEL_DOWN whose connection id is not in the connection
    table makes the bookkeeping raise [KeyError] before anything is
    changed; the event loop catches it, logs it, calls no handler and
    goes on with the next event. *)
Theorem channel_down_of_unknown_connection
    (c : Controller) (event : Event) (rest : list Event)
    (conn : Value) (key : Key) :
  assoc event "type" = Some (VStr "CHANNEL_DOWN") →
  assoc event "conn_id" = Some conn →
  hashable conn = Some key →
  PyDict.get (_connections c) key = None →
  zof_channel_down event c = (Raise (KeyError key), c) ∧
  zof_event_loop (event :: rest) c
  = zof_event_loop rest
      (add_trace [Logged CRITICAL "Exception in zof_event_loop: %r"
                    (Some (KeyError key))] c).
Proof.
  intros Htype Hconn Hkey Hget.
  assert (Hdown : zof_channel_down event c = (Raise (KeyError key), c)).
  { unfold zof_channel_down, bind, item, key_of, gets, PyDict.pop.
    rewrite Hconn. simpl. rewrite Hkey. simpl. by rewrite Hget. }
  split; [exact Hdown|].
  simpl. unfold bind at 1, try_except, zof_event_loop_turn, bind at 1, item.
  rewrite Htype. simpl. unfold bind at 1 2. rewrite Hdown.
  reflexivity.
Qed.


End WithCollaborators.

Lemma channel_down_of_unknown_connection_witness :
  let c := init [down_app] no_config in
  let event := [("type", VStr "CHANNEL_DOWN"); ("conn_id", VInt 2)] in
  PyDict.get (_connections c) (KInt 2) = None ∧
  trace (zof_event_loop (H := plain_collaborators) [event] c).2
  = [Logged CRITICAL "Exception in zof_event_loop: %r" (Some (KeyError (KInt 2)));
     Logged DEBUG "Event loop cancelled" None].
Proof.
  intros c event. split; [reflexivity|].
  pose proof (channel_down_of_unknown_connection (H := plain_collaborators)
                c event [] (VInt 2) (KInt 2) eq_refl eq_refl eq_refl eq_refl)
    as [_ Hloop].
  exact (eq_trans (f_equal (λ r, trace r.2) Hloop) eq_refl).
Defined.

Lemma connected_table_ok : table_ok connected.
Proof.
  split; [apply NoDup_singleton|]. split; [apply NoDup_singleton|].
  intros key a Hin. change (_connections connected) with [(KInt 2, 0%nat)] in Hin.
  apply list_elem_of_singleton in Hin as [= -> ->].
  eexists. split; [reflexivity | by vm_compute].
Defined.




(** *** Cleanup *)

Lemma open_among_insert_notin (ds : list Datapath) (a : nat) (o : Datapath)
    (addrs : list nat) :
  a ∉ addrs → open_among (<[a := o]> ds) addrs = open_among ds addrs.
Proof.
  unfold open_among. induction addrs as [|a0 addrs IH]; intros Hnotin; [done|].
  apply not_elem_of_cons in Hnotin as [Hne Hnotin]. csimpl.
  rewrite list_lookup_insert_ne by done. by rewrite IH.
Qed.

Lemma bool_decide_elem_of_cons_ne (a0 a : nat) (addrs : list nat) :
  a0 ≠ a → bool_decide (a0 ∈ a :: addrs) = bool_decide (a0 ∈ addrs).
Proof.
  intros Hne. apply bool_decide_ext. rewrite elem_of_cons.
  split; [intros [?|?]; done | by right].
Qed.

Lemma close_datapath_closed (o : Datapath) :
  closed o = true → close_datapath o = o.
Proof. intros Hclosed. destruct o. simpl in *. by subst. Qed.

Lemma cleanup_turn_closed (c : Controller) (dp : nat) (o : Datapath) :
  datapaths c !! dp = Some o → closed o = true →
  cleanup_turn dp c = (Ok tt, c).
Proof.
  intros Hload Hclosed. unfold cleanup_turn, bind, load.
  by rewrite Hload, Hclosed.
Qed.

Lemma cleanup_turn_open (c : Controller) (dp : nat) (o : Datapath)
    (hs : list Handler) :
  datapaths c !! dp = Some o → closed o = false →
  found_handlers c "on_channel_down" = Some hs →
  quiet_on_exception (apps c) →
  cleanup_turn dp c
  = (Ok tt,
     add_trace (dispatch_effects (apps c) (Some dp) _channel_down hs)
       (with_handler_cache (<["on_channel_down" := hs]> (_handler_cache c))
          (add_trace (Cancelled <$> zof_tasks o)
             (with_datapaths (<[dp := close_datapath o]> (datapaths c)) c)))).
Proof.
  intros Hload Hclosed Hfound Hquiet.
  assert (Hlt : (dp < length (datapaths c))%nat) by (by eapply lookup_lt_Some).
  unfold cleanup_turn, bind at 1, load. rewrite Hload, Hclosed. simpl.
  unfold bind at 1, set_closed, bind at 1, load. rewrite Hload.
  unfold store, modify.
  unfold bind at 1.
  rewrite (zof_cancel_tasks_spec dp (close_datapath o))
    by (simpl; by apply list_lookup_insert_eq).
  by rewrite (dispatch_spec "CHANNEL_DOWN" (Some dp) _channel_down _ hs).
Qed.

Lemma cleanup_loop (hs : list Handler) (addrs : list nat) :
  ∀ (c : Controller),
  Forall (λ a, is_Some (datapaths c !! a)) addrs →
  NoDup addrs →
  found_handlers c "on_channel_down" = Some hs →
  quiet_on_exception (apps c) →
  ∃ c', for_each addrs cleanup_turn c = (Ok tt, c') ∧
    apps c' = apps c ∧ _tasks c' = _tasks c ∧
    _connections c' = _connections c ∧
    trace c'
    = trace c ++ concat (cleanup_effects (apps c) hs
                           <$> open_among (datapaths c) addrs) ∧
    (∀ a o, datapaths c !! a = Some o →
       datapaths c' !! a
       = Some (if bool_decide (a ∈ addrs) then close_datapath o else o)).
Proof.
  induction addrs as [|a addrs IH]; intros c Hall Hnd Hfound Hquiet.
  - exists c. simpl. repeat split; [by rewrite app_nil_r|].
    by intros a o Hload.
  - apply Forall_cons in Hall as [[o Hload] Hall].
    apply NoDup_cons in Hnd as [Hnotin Hnd].
    simpl. unfold bind at 1.
    destruct (closed o) eqn:Hclosed.
    + rewrite (cleanup_turn_closed c a o) by done.
      destruct (IH c Hall Hnd Hfound Hquiet)
        as (c' & Hrun & Happs & Htasks & Hconns & Htrace & Hstore).
      exists c'. split; [exact Hrun|]. repeat split; try done.
      * rewrite Htrace. unfold open_among at 2. simpl.
        by rewrite Hload, Hclosed.
      * intros a0 o0 Hload0. rewrite (Hstore a0 o0 Hload0).
        destruct (decide (a0 = a)) as [->|Hne].
        -- rewrite bool_decide_eq_false_2 by done.
           rewrite bool_decide_eq_true_2 by apply list_elem_of_here.
           rewrite Hload in Hload0. injection Hload0 as <-.
           by rewrite close_datapath_closed.
        -- by rewrite bool_decide_elem_of_cons_ne.
    + rewrite (cleanup_turn_open c a o hs) by done.
      set (c3 := add_trace _ _).
      assert (Hlt : (a < length (datapaths c))%nat) by (by eapply lookup_lt_Some).
      destruct (IH c3) as (c' & Hrun & Happs & Htasks & Hconns & Htrace & Hstore).
      * subst c3. simpl. eapply Forall_impl; [exact Hall|].
        intros a0 Hsome. simpl in Hsome. apply lookup_lt_is_Some.
        rewrite length_insert. by apply lookup_lt_is_Some.
      * exact Hnd.
      * subst c3. unfold found_handlers. simpl. by rewrite lookup_insert_eq.
      * exact Hquiet.
      * exists c'. split; [exact Hrun|]. repeat split; try done.
        -- rewrite Htrace. subst c3. simpl.
           rewrite open_among_insert_notin by done.
           unfold open_among at 2. simpl. rewrite Hload, Hclosed. simpl.
           unfold cleanup_effects at 2. simpl.
           by rewrite <- !app_assoc.
        -- intros a0 o0 Hload0.
           destruct (decide (a0 = a)) as [->|Hne].
           ++ rewrite Hload in Hload0. injection Hload0 as <-.
              rewrite (Hstore a (close_datapath o))
                by (subst c3; simpl; by apply list_lookup_insert_eq).
              rewrite bool_decide_eq_false_2 by done.
              by rewrite bool_decide_eq_true_2 by apply list_elem_of_here.
           ++ rewrite (Hstore a0 o0)
                by (subst c3; simpl; by rewrite list_lookup_insert_ne).
              by rewrite bool_decide_elem_of_cons_ne.
Qed.

Lemma call_spec (i : nat) (name : string) (m : Method) (args : Args)
    (c : Controller) :
  call i name m args c
  = (match behaviour m args with Some e => Raise e | None => Ok tt end,
     add_trace [Called i name args] c).
Proof.
  unfold call, bind. rewrite emit_spec. by destruct (behaviour m args).
Qed.

Lemma lifecycle_calls (name : string) (numbered : list (nat * App)) :
  ∀ (c : Controller),
  ∃ outcome calls,
    for_each numbered (λ '(i, app),
      match getattr app name with
      | Some handler => call i name handler NoArgs
      | None => ret tt
      end) c
    = (outcome, add_trace calls c) ∧
    Forall (λ e, ∃ i, e = Called i name NoArgs) calls.
Proof.
  induction numbered as [|[i app] numbered IH]; intros c; simpl.
  - exists (Ok tt), []. by rewrite add_trace_nil.
  - unfold bind at 1. destruct (getattr app name) as [handler|].
    + rewrite call_spec.
      destruct (behaviour handler NoArgs) as [e|].
      * exists (Raise e), [Called i name NoArgs]. split; [done|].
        apply Forall_singleton. by exists i.
      * destruct (IH (add_trace [Called i name NoArgs] c))
          as (outcome & calls & Hrun & Hcalls).
        exists outcome, (Called i name NoArgs :: calls).
        rewrite Hrun, add_trace_add_trace. split; [done|].
        apply Forall_cons. split; [by exists i | done].
    + simpl. apply IH.
Qed.

Lemma invoke_lifecycle_calls (event_type : string) (c : Controller) :
  ∃ outcome calls,
    zof_invoke_lifecycle event_type c = (outcome, add_trace calls c) ∧
    Forall (λ e, ∃ i, e = Called i ("on_" +:+ lower event_type) NoArgs) calls.
Proof.
  unfold zof_invoke_lifecycle, bind, gets. apply lifecycle_calls.
Qed.

(** *** [run] *)

Section Run.
Context `{Collaborators}.

(** When the driver's context is entered and the start notification, the
    listen setup and the event loop have run, [run] goes on with the
    cleanup and then the STOP notification, and leaves the driver's
    context. *)
Lemma run_after_event_loop (queue : list Event) (c0 c : Controller) :
  Driver_aenter = None →
  (zof_invoke_lifecycle "START" ;;; zof_listen ;;; zof_event_loop queue)
    (with_tasks (Some []) c0) = (Ok tt, c) →
  run queue c0
  = run_ends ((zof_cleanup ;;; zof_invoke_lifecycle "STOP") c).
Proof.
  intros Henter.
  unfold run, run_ends, run_leaves, raised, try_except, bind, modify, emit,
    ret, raise.
  rewrite Henter.
  destruct (zof_invoke_lifecycle "START" (with_tasks (Some []) c0))
    as [[[]|e|f] c1]; [|discriminate..].
  destruct (zof_listen c1) as [[[]|e|f] c2]; [|discriminate..].
  destruct (zof_event_loop queue c2) as [[[]|e|f] c3]; [|discriminate..].
  intros [= ->].
  destruct (zof_cleanup c) as [[[]|e|f] c4];
    [|by destruct Driver_aexit|reflexivity].
  destruct (zof_invoke_lifecycle "STOP" c4) as [[[]|e|f] c5];
    [by destruct Driver_aexit..|reflexivity].
Qed.

(** C10, as the code has it: when the [on_channel_down] handlers are
    found (they are cached, or no app has a coroutine function under
    that name) and the exception handler in charge, if there is one, is
    a plain function that returns, [zof_cleanup] marks every datapath of
    the connection table that is not closed as closed, cancels the tasks
    of its scope and gives the channel-down handlers the event
    [{'type': 'CHANNEL_DOWN'}], datapath after datapath in the order of
    the table; then it cancels the controller's tasks and waits for them
    up to 3 seconds; and in [run], once the driver's context is entered,
    the STOP notification of the apps comes after all of that.  The
    controller is running: its task list is set and its two indexes
    agree. *)
Theorem cleanup_closes_and_notifies_before_stop
    (c : Controller) (tasks : list Task) (handlers : list Handler) :
  _tasks c = Some tasks →
  table_ok c →
  found_handlers c "on_channel_down" = Some handlers →
  quiet_on_exception (apps c) →
  ∃ c' outcome stop_calls,
    zof_cleanup c = (Ok tt, c') ∧
    _channel_down = [("type", VStr "CHANNEL_DOWN")] ∧
    (∀ a o, a ∈ PyDict.values (_connections c) → datapaths c !! a = Some o →
       datapaths c' !! a = Some (close_datapath o)) ∧
    trace c'
    = trace c
      ++ concat (cleanup_effects (apps c) handlers <$> open_datapaths c)
      ++ (Cancelled <$> tasks) ++ [WaitCancelled 3.0] ∧
    (∀ a o, (a, o) ∈ open_datapaths c →
       (∀ t, t ∈ zof_tasks o → Cancelled t ∈ trace c') ∧
       (∀ app name m, AppHandler app name m ∈ handlers →
          Called app name (EventArgs (Some a) [("type", VStr "CHANNEL_DOWN")])
          ∈ trace c')) ∧
    (∀ t, t ∈ tasks → Cancelled t ∈ trace c') ∧
    (zof_cleanup ;;; zof_invoke_lifecycle "STOP") c
    = (outcome, add_trace stop_calls c') ∧
    Forall (λ e, ∃ i, e = Called i "on_stop" NoArgs) stop_calls ∧
    (∀ queue c0,
       Driver_aenter = None →
       (zof_invoke_lifecycle "START" ;;; zof_listen ;;; zof_event_loop queue)
         (with_tasks (Some []) c0) = (Ok tt, c) →
       run queue c0 = run_ends (outcome, add_trace stop_calls c')).
Proof.
  intros Htasks Hok Hfound Hquiet.
  pose proof (table_ok_allocated c Hok) as Halloc.
  destruct Hok as (_ & Hnd & _).
  destruct (cleanup_loop handlers (PyDict.values (_connections c)) c)
    as (c1 & Hloop & Happs1 & Htasks1 & Hconns1 & Htrace1 & Hstore1);
    [by apply Forall_forall | done | done | done |].
  set (c' := add_trace [WaitCancelled 3.0] (add_trace (Cancelled <$> tasks) c1)).
  assert (Hcleanup : zof_cleanup c = (Ok tt, c')).
  { unfold zof_cleanup, bind at 1, gets.
    change (for_each (PyDict.values (_connections c)) _)
      with (for_each (PyDict.values (_connections c)) cleanup_turn).
    unfold bind at 1. rewrite Hloop.
    unfold bind at 1, TaskList_cancel, bind at 1, gets.
    rewrite Htasks1, Htasks, for_each_emit.
    unfold TaskList_wait_cancelled, bind, gets. simpl.
    by rewrite Htasks1, Htasks. }
  assert (Htrace : trace c'
                   = trace c
                     ++ concat (cleanup_effects (apps c) handlers
                                  <$> open_datapaths c)
                     ++ (Cancelled <$> tasks) ++ [WaitCancelled 3.0]).
  { subst c'. simpl. rewrite Htrace1. unfold open_datapaths.
    by rewrite <- !app_assoc. }
  destruct (invoke_lifecycle_calls "STOP" c')
    as (outcome & stop_calls & Hstop & Hcalls).
  exists c', outcome, stop_calls.
  split; [exact Hcleanup|]. split; [reflexivity|].
  split.
  { intros a o Hin Hload. subst c'. simpl.
    rewrite (Hstore1 a o Hload). by rewrite bool_decide_eq_true_2. }
  split; [exact Htrace|].
  split.
  { intros a o Hopen.
    assert (Hpart : ∀ e, e ∈ cleanup_effects (apps c) handlers (a, o) →
                         e ∈ trace c').
    { intros e He. rewrite Htrace. apply elem_of_app. right.
      apply elem_of_app. left. apply elem_of_concat.
      exists (cleanup_effects (apps c) handlers (a, o)). split; [|done].
      apply list_elem_of_fmap. by exists (a, o). }
    split.
    - intros t Ht. apply Hpart. unfold cleanup_effects. simpl.
      apply elem_of_app. left. apply list_elem_of_fmap. by exists t.
    - intros app name m Hhandler. apply Hpart. unfold cleanup_effects. simpl.
      apply elem_of_app. right. unfold dispatch_effects.
      apply elem_of_concat.
      exists (handler_effects (apps c) (Some a) _channel_down
                (AppHandler app name m)).
      split; [|apply list_elem_of_here].
      apply list_elem_of_fmap. by exists (AppHandler app name m). }
  split.
  { intros t Ht. rewrite Htrace. apply elem_of_app. right.
    apply elem_of_app. right. apply elem_of_app. left.
    apply list_elem_of_fmap. by exists t. }
  assert (Htail : (zof_cleanup ;;; zof_invoke_lifecycle "STOP") c
                  = (outcome, add_trace stop_calls c')).
  { unfold bind. by rewrite Hcleanup. }
  split; [exact Htail|]. split; [exact Hcalls|].
  intros queue c0 Henter Hbefore.
  by rewrite (run_after_event_loop queue c0 c Henter Hbefore), Htail.
Qed.

(** An exception that escapes from the cleanup keeps the STOP
    notification from being delivered. *)
Lemma failed_cleanup_skips_stop (c c' : Controller) (e : Exception) :
  zof_cleanup c = (Raise e, c') →
  (zof_cleanup ;;; zof_invoke_lifecycle "STOP") c = (Raise e, c').
Proof. intros Hfail. unfold bind. by rewrite Hfail. Qed.

End Run.

(** C10, counterexample: the cleanup of a controller with two open
    datapaths and a task of its own.  With an app whose
    [on_channel_down] raises and whose [on_exception] raises as well,
    the second exception leaves [zof_cleanup] at the first datapath: the
    second datapath is not marked closed, its handlers get no event, the
    controller's task is not cancelled, nothing is waited for, and the
    STOP notification is not delivered.  With an app whose
    [on_channel_down] is a coroutine function, the assertion of
    [zof_find_handlers] does the same before any handler is called. *)
Lemma cleanup_ends_at_the_first_exception :
  (table_ok (two_connected [failing_app]) ∧
   _tasks (two_connected [failing_app]) = Some [4%nat] ∧
   open_datapaths (two_connected [failing_app])
   = [(0%nat, mkDatapath (VInt 2) 1 false [9%nat] (Some up_event) []);
      (1%nat, mkDatapath (VInt 3) 2 false [] (Some up_event_2) [])] ∧
   ∃ c', zof_cleanup (two_connected [failing_app])
         = (Raise (UserError "FAIL AGAIN"), c') ∧
         (closed <$> datapaths c' !! 1%nat) = Some false ∧
         trace c'
         = [Cancelled 9%nat;
            Called 0 "on_channel_down"
              (EventArgs (Some 0%nat) [("type", VStr "CHANNEL_DOWN")]);
            Called 0 "on_exception" (ExcArgs (UserError "FAIL"))] ∧
         (zof_cleanup ;;; zof_invoke_lifecycle "STOP")
           (two_connected [failing_app])
         = (Raise (UserError "FAIL AGAIN"), c')) ∧
  (table_ok (two_connected [coroutine_app]) ∧
   _tasks (two_connected [coroutine_app]) = Some [4%nat] ∧
   ∃ c', zof_cleanup (two_connected [coroutine_app])
         = (Raise AssertionError, c') ∧
         (closed <$> datapaths c' !! 1%nat) = Some false ∧
         trace c' = [Cancelled 9%nat] ∧
         (zof_cleanup ;;; zof_invoke_lifecycle "STOP")
           (two_connected [coroutine_app])
         = (Raise AssertionError, c')).
Proof.
  assert (Hok : ∀ apps, table_ok (two_connected apps)).
  { intros apps. split; [|split].
    - apply NoDup_cons. split; [|apply NoDup_singleton].
      intros Hin. apply list_elem_of_singleton in Hin. discriminate.
    - apply NoDup_cons. split; [|apply NoDup_singleton].
      intros Hin. apply list_elem_of_singleton in Hin. discriminate.
    - intros key a Hin.
      change (_connections (two_connected apps))
        with [(KInt 2, 0%nat); (KInt 3, 1%nat)] in Hin.
      apply elem_of_cons in Hin as [[= -> ->] | Hin].
      + eexists. split; [reflexivity | by vm_compute].
      + apply list_elem_of_singleton in Hin as [= -> ->].
        eexists. split; [reflexivity | by vm_compute]. }
  split.
  - split; [apply Hok|]. split; [reflexivity|]. split; [reflexivity|].
    eexists. split; [vm_compute; reflexivity|].
    split; [reflexivity|]. split; [reflexivity|]. vm_compute. reflexivity.
  - split; [apply Hok|]. split; [reflexivity|].
    eexists. split; [vm_compute; reflexivity|].
    split; [reflexivity|]. split; [reflexivity|]. vm_compute. reflexivity.
Qed.

Lemma cleanup_witness :
  open_datapaths connected
  = [(0%nat, mkDatapath (VInt 2) 1 false [9%nat] (Some up_event) [])] ∧
  ∃ c', zof_cleanup connected = (Ok tt, c') ∧
        (closed <$> datapaths c' !! 0%nat) = Some true ∧
        trace c'
        = [Cancelled 9%nat;
           Called 0 "on_channel_down"
             (EventArgs (Some 0%nat) [("type", VStr "CHANNEL_DOWN")]);
           Cancelled 4%nat; WaitCancelled 3.0].
Proof.
  split; [reflexivity|].
  destruct (cleanup_closes_and_notifies_before_stop (H := plain_collaborators)
              connected [4%nat]
              [AppHandler 0 "on_channel_down" (mkMethod false (λ _, None))])
    as (c' & outcome & stop_calls & Hcleanup & _ & Hclosed & Htrace & _).
  - reflexivity.
  - exact connected_table_ok.
  - reflexivity.
  - exact I.
  - exists c'. split; [exact Hcleanup|]. split.
    + rewrite (Hclosed 0%nat
                 (mkDatapath (VInt 2) 1 false [9%nat] (Some up_event) []));
        [reflexivity | apply list_elem_of_here | reflexivity].
    + rewrite Htrace. reflexivity.
Defined.

End ZofFacts.

(** ** More about dictionaries *)

Module PyDictMoreFacts.
Import PyDict.

Section Facts.
Context {K V : Type} `{EqDecision K}.
Implicit Types (d : dict K V) (k : K) (v : V).

Lemma setitem_setitem d k v v' : setitem (setitem d k v) k v' = setitem d k v'.
Proof.
  induction d as [|[k0 v0] d IH]; simpl.
  - by rewrite decide_True.
  - destruct (decide (k0 = k)) as [->|Hne]; simpl.
    + by rewrite decide_True.
    + rewrite decide_False by done. by rewrite IH.
Qed.

Lemma setitem_get_id d k v : get d k = Some v → setitem d k v = d.
Proof.
  induction d as [|[k0 v0] d IH]; simpl; [done|].
  destruct (decide (k0 = k)) as [->|Hne].
  - by intros [= ->].
  - intros Hget. by rewrite IH.
Qed.

Lemma setitem_fresh d k v : get d k = None → setitem d k v = d ++ [(k, v)].
Proof.
  induction d as [|[k0 v0] d IH]; simpl; [done|].
  destruct (decide (k0 = k)); [done|]. intros Hget. by rewrite IH.
Qed.

Lemma delitem_setitem_fresh d k v :
  get d k = None → delitem (setitem d k v) k = d.
Proof.
  induction d as [|[k0 v0] d IH]; simpl.
  - by rewrite decide_True.
  - destruct (decide (k0 = k)); [done|]. intros Hget. simpl.
    rewrite decide_False by done. by rewrite IH.
Qed.

End Facts.
End PyDictMoreFacts.

(** ** [pylibofp]: the RPC client surface, the request table, the tasks *)

Module PylibofpMoreFacts.
Import Py Json Pylibofp PylibofpProps PylibofpTasks PylibofpMoreProps.
Import ListFacts.
Local Open Scope py_scope.

(** *** Xids *)

Lemma xid_after_in_range (x k : Z) : xid_in_range (xid_after x k).
Proof.
  unfold xid_in_range, xid_after, _MIN_XID, _MAX_XID.
  pose proof (Z.mod_pos_bound (x - 8092 + k) (4294967295 - 8092 + 1)).
  lia.
Qed.

Lemma xid_after_0 (x : Z) : xid_in_range x → xid_after x 0 = x.
Proof.
  unfold xid_in_range, xid_after, _MIN_XID, _MAX_XID. intros Hx.
  rewrite Z.add_0_r, Z.mod_small by lia. lia.
Qed.

Lemma xid_after_after (x j k : Z) :
  xid_after (xid_after x j) k = xid_after x (j + k).
Proof.
  unfold xid_after. f_equal.
  replace (_MIN_XID + (x - _MIN_XID + j) mod (_MAX_XID - _MIN_XID + 1)
           - _MIN_XID + k)
    with ((x - _MIN_XID + j) mod (_MAX_XID - _MIN_XID + 1) + k) by lia.
  rewrite Zplus_mod_idemp_l. f_equal. lia.
Qed.

Lemma next_xid_closed_form (c : Controller) :
  xid_in_range (_xid c) →
  _next_xid c = (Ok (xid_after (_xid c) 1), with_xid (xid_after (_xid c) 1) c).
Proof.
  unfold xid_in_range, xid_after, _next_xid, bind, gets, modify.
  unfold _MIN_XID, _MAX_XID. intros Hx. simpl.
  destruct (decide (_xid c = 4294967295)) as [Heq|Hne].
  - rewrite bool_decide_eq_true_2 by done. rewrite Heq. reflexivity.
  - rewrite bool_decide_eq_false_2 by done.
    rewrite Z.mod_small by lia.
    by replace (8092 + (_xid c - 8092 + 1)) with (_xid c + 1) by lia.
Qed.

Lemma with_xid_with_xid (x y : Z) (c : Controller) :
  with_xid y (with_xid x c) = with_xid y c.
Proof. reflexivity. Qed.

Lemma with_xid_id (c : Controller) : with_xid (_xid c) c = c.
Proof. by destruct c. Qed.

Lemma next_xids_closed_form (n : nat) :
  ∀ c : Controller,
  xid_in_range (_xid c) →
  next_xids n c
  = (Ok (xid_after (_xid c) <$> seqZ 1 (Z.of_nat n)),
     with_xid (xid_after (_xid c) (Z.of_nat n)) c).
Proof.
  induction n as [|n IH]; intros c Hx.
  - simpl. rewrite xid_after_0 by done. by rewrite with_xid_id.
  - cbn [next_xids]. unfold bind at 1. rewrite next_xid_closed_form by done.
    unfold bind at 1. rewrite IH by apply xid_after_in_range.
    unfold ret. cbn [_xid with_xid]. rewrite with_xid_with_xid.
    rewrite xid_after_after.
    replace (1 + Z.of_nat n) with (Z.of_nat (S n)) by lia.
    f_equal. f_equal.
    rewrite (seqZ_cons 1 (Z.of_nat (S n))) by lia.
    rewrite fmap_cons. f_equal.
    replace (Z.pred (Z.of_nat (S n))) with (Z.of_nat n) by lia.
    replace (Z.succ 1) with (1 + 1) by lia.
    rewrite <- (fmap_add_seqZ 1 1), <- list_fmap_compose.
    apply list_fmap_ext. intros _ k _. simpl. apply xid_after_after.
Qed.

Lemma xid_after_inj (x j k : Z) :
  0 ≤ j - k < _MAX_XID - _MIN_XID + 1 →
  xid_after x j = xid_after x k → j = k.
Proof.
  unfold xid_after, _MIN_XID, _MAX_XID.
  change (4294967295 - 8092 + 1) with 4294959204. intros Hjk Heq.
  assert (Hmod : (x - 8092 + j) mod 4294959204 = (x - 8092 + k) mod 4294959204)
    by lia.
  pose proof (Z.div_mod (x - 8092 + j) 4294959204 ltac:(lia)) as Hj.
  pose proof (Z.div_mod (x - 8092 + k) 4294959204 ltac:(lia)) as Hk.
  rewrite Hmod in Hj.
  set (qj := (x - 8092 + j) / 4294959204) in *.
  set (qk := (x - 8092 + k) / 4294959204) in *.
  assert (j - k = 4294959204 * (qj - qk)) by lia.
  assert (qj - qk = 0) by nia. lia.
Qed.

(** X1: the xids of successive calls: as long as there are no more calls
    than the range has values (2^32 - 8092), no xid is handed out twice,
    every one of them is in the range of the user xids, and the counter
    stays in that range. *)
Theorem successive_xids_are_distinct (n : nat) (c : Controller) :
  xid_in_range (_xid c) →
  Z.of_nat n ≤ _MAX_XID - _MIN_XID + 1 →
  ∃ xs c', next_xids n c = (Ok xs, c') ∧
    length xs = n ∧ NoDup xs ∧ Forall xid_in_range xs ∧
    xid_in_range (_xid c').
Proof.
  intros Hx Hn. eexists. eexists.
  split; [by apply next_xids_closed_form|].
  split; [by rewrite length_fmap, length_seqZ, Nat2Z.id|].
  split; [|split].
  - apply NoDup_fmap_2_strong; [|apply NoDup_seqZ].
    intros j k Hj Hk Heq.
    apply elem_of_seqZ in Hj, Hk.
    destruct (Z.le_ge_cases k j).
    + apply (xid_after_inj (_xid c)); [lia | done].
    + symmetry. apply (xid_after_inj (_xid c)); [lia | done].
  - apply Forall_fmap, Forall_forall. intros k _. apply xid_after_in_range.
  - simpl. apply xid_after_in_range.
Qed.

Lemma successive_xids_witness :
  let c := with_xid 4294967294 (init 0 []) in
  xid_in_range (_xid c) ∧ Z.of_nat 3 ≤ _MAX_XID - _MIN_XID + 1 ∧
  ∃ xs c', next_xids 3 c = (Ok xs, c') ∧ NoDup xs.
Proof.
  intros c.
  assert (Hx : xid_in_range (_xid c)) by (by vm_compute).
  assert (Hn : Z.of_nat 3 ≤ _MAX_XID - _MIN_XID + 1) by (by vm_compute).
  split; [exact Hx|]. split; [exact Hn|].
  destruct (successive_xids_are_distinct 3 c Hx Hn)
    as (xs & c' & Hrun & _ & Hnd & _).
  by exists xs, c'.
Defined.

(** *** The RPC client surface *)

Lemma next_xid_spec (c : Controller) :
  _next_xid c = (Ok (next_of (_xid c)), with_xid (next_of (_xid c)) c).
Proof.
  unfold _next_xid, next_of, bind, gets, modify. simpl.
  by destruct (bool_decide (_xid c = _MAX_XID)).
Qed.

Lemma next_of_positive (x : Z) : xid_in_range x → next_of x > 0.
Proof.
  unfold next_of, xid_in_range, _MIN_XID, _MAX_XID.
  intros Hx. case_bool_decide; lia.
Qed.

(** X2: [_rpc_call], on a controller that has its connection: the xid is
    the next one of the counter; one frame goes to the connection, with
    that xid as its [id]; a fresh handle, not done and with nothing in
    it, is registered under the xid with the deadline 10 seconds from
    now; and the other requests of the table stay as they are. *)
Theorem rpc_call_registers (c : Controller) (method : string)
    (params : list (string * Value)) (frames : list Value) :
  _conn c = Some frames →
  xid_in_range (_xid c) →
  let xid := next_of (_xid c) in
  let fut := length (handles (heap c)) in
  ∃ c', _rpc_call method params c = (Ok (Some fut), c') ∧
    _xid c' = xid ∧
    _conn c' = Some (frames ++ [rpc_frame xid method params]) ∧
    PyDict.get (_reqs c') xid = Some (fut, (clock c + _XID_TIMEOUT)%Q) ∧
    (∀ k, k ≠ xid → PyDict.get (_reqs c') k = PyDict.get (_reqs c) k) ∧
    handles (heap c')
    = handles (heap c) ++ [ReplyFuture.mk xid [] None false] ∧
    futures (heap c') = futures (heap c).
Proof.
  intros Hconn Hx xid fut.
  pose proof (next_of_positive _ Hx) as Hpos. fold xid in Hpos.
  eexists. split.
  - unfold _rpc_call, bind at 1. rewrite next_xid_spec. fold xid.
    unfold _write, bind, gets, modify, assert, _timestamp. simpl.
    rewrite Hconn. simpl. rewrite bool_decide_eq_true_2 by done.
    reflexivity.
  - simpl. split; [done|]. split; [done|].
    split; [apply PyDictFacts.get_setitem_eq|].
    split; [|done].
    intros k Hne. by apply PyDictFacts.get_setitem_ne.
Qed.

Lemma rpc_call_registers_witness :
  let c := running [] in
  _conn c = Some [] ∧ xid_in_range (_xid c) ∧
  ∃ c', _rpc_call "OFP.DESCRIPTION" [] c = (Ok (Some 0%nat), c') ∧
        _conn c' = Some [rpc_frame 8093 "OFP.DESCRIPTION" []].
Proof.
  intros c.
  assert (Hconn : _conn c = Some []) by reflexivity.
  assert (Hx : xid_in_range (_xid c)) by (by vm_compute).
  split; [exact Hconn|]. split; [exact Hx|].
  destruct (rpc_call_registers c "OFP.DESCRIPTION" [] [] Hconn Hx)
    as (c' & Hrun & _ & Hframes & _).
  exists c'. split; [exact Hrun | exact Hframes].
Defined.

(** X3: [_write] without a connection raises [AttributeError] and
    changes nothing; without an xid it sends the frame and registers
    nothing; and with an xid that is not positive the frame is already
    sent when the assertion fails, and nothing is registered. *)
Theorem write_registers_nothing (c : Controller) (event : Value) :
  (_conn c = None →
   ∀ xid, _write event xid c = (Raise (AttributeError "write"), c)) ∧
  (∀ frames, _conn c = Some frames →
     _write event None c = (Ok None, with_conn (Some (frames ++ [event])) c) ∧
     ∀ xid, xid ≤ 0 →
       _write event (Some xid) c
       = (Raise AssertionError, with_conn (Some (frames ++ [event])) c)).
Proof.
  split.
  - intros Hconn xid. unfold _write, bind, gets. by rewrite Hconn.
  - intros frames Hconn. split.
    + unfold _write, bind, gets, modify. by rewrite Hconn.
    + intros xid Hxid. unfold _write, bind, gets, modify, assert.
      rewrite Hconn. simpl. by rewrite bool_decide_eq_false_2 by lia.
Qed.

Lemma write_registers_nothing_witness :
  _conn (init 0 []) = None ∧
  _write (VObj []) None (init 0 []) = (Raise (AttributeError "write"), init 0 []).
Proof.
  split; [reflexivity|].
  exact (proj1 (write_registers_nothing (init 0 []) (VObj [])) eq_refl None).
Defined.

(** *** The request table *)

(** X4: a reply whose xid is not in the request table (a late reply,
    after the timeout) is not delivered to anybody: [_handle_xid] answers
    [False] and changes nothing, and for an RPC reply the only thing
    [_handle_rpc_reply] does is to log a warning. *)
Theorem reply_for_unknown_xid_is_ignored (c : Controller) (n : Z) :
  PyDict.get (_reqs c) n = None →
  (∀ event except_class,
     _handle_xid event (VInt n) except_class c = (Ok false, c)) ∧
  (∀ reply, getattr reply "id" = Some (VInt n) →
     _handle_rpc_reply reply c
     = (Ok tt,
        with_logged
          (logged c ++ [(WARNING, "Unrecognized id in RPC reply: %s")]) c)).
Proof.
  intros Hget.
  assert (Hxid : ∀ event except_class,
            _handle_xid event (VInt n) except_class c = (Ok false, c)).
  { intros event except_class.
    unfold _handle_xid, bind, xid_key, ret, gets. simpl. by rewrite Hget. }
  split; [exact Hxid|].
  intros reply Hid. unfold _handle_rpc_reply, bind at 1, has_key.
  destruct (getattr reply "result") as [result|]; simpl.
  - unfold bind at 1. rewrite Hid. simpl. unfold bind. by rewrite Hxid.
  - unfold bind at 1. rewrite Hid. simpl. unfold bind. by rewrite Hxid.
Qed.

Lemma reply_for_unknown_xid_witness :
  PyDict.get (_reqs (running [])) 8093 = None ∧
  _handle_xid (VObj []) (VInt 8093) None (running []) = (Ok false, running []).
Proof.
  split; [reflexivity|].
  exact (proj1 (reply_for_unknown_xid_is_ignored (running []) 8093 eq_refl)
           (VObj []) None).
Defined.

(** X5: a terminal delivery by [_handle_xid] that goes through (an
    error of any class, whatever its flags, or a result without MORE)
    takes the request out of the table and marks its handle done. *)
Theorem terminal_delivery_closes_the_request (c c' : Controller)
    (event : Value) (xid : Z) (fut : nat) (expiration : Q)
    (except_class : option ExceptClass) :
  PyDict.wf (_reqs c) →
  PyDict.get (_reqs c) xid = Some (fut, expiration) →
  is_Some except_class ∨ _event_has_more event = Ok false →
  _handle_xid event (VInt xid) except_class c = (Ok true, c') →
  PyDict.get (_reqs c') xid = None ∧
  ∃ o', handles (heap c') !! fut = Some o' ∧ ReplyFuture._done o' = true.
Proof.
  intros Hwf Hget Hterminal Hrun.
  unfold _handle_xid, bind at 1 2, xid_key, ret, gets in Hrun. simpl in Hrun.
  rewrite Hget in Hrun. simpl in Hrun. unfold bind at 1 in Hrun.
  set (delivery := match except_class with
                   | Some cls => on_heap (set_exception fut (instantiate cls event))
                   | None => on_heap (set_result fut event)
                   end) in Hrun.
  assert (Hreqs : _reqs (delivery c).2 = _reqs c)
    by (subst delivery; destruct except_class; apply PylibofpFacts.on_heap_reqs).
  destruct (delivery c) as [[[]|e|f] c1]; simpl in Hreqs; [|done|done].
  unfold bind at 1, lift in Hrun.
  destruct (_event_has_more event) as [more|e|f] eqn:Hmore; [|done|done].
  assert (Hcond : negb more || bool_decide (is_Some except_class) = true).
  { destruct Hterminal as [Hcls | Hlast].
    - rewrite (bool_decide_eq_true_2 _ Hcls). apply orb_true_r.
    - by injection Hlast as ->. }
  rewrite Hcond in Hrun. unfold bind at 1 2, on_heap, zoom in Hrun.
  unfold set_done, bind, load in Hrun.
  destruct (handles (heap c1) !! fut) as [o1|] eqn:Hload; [|done].
  simpl in Hrun. destruct (ReplyFuture._done o1); [done|].
  simpl in Hrun. injection Hrun as <-. simpl. split.
  - rewrite Hreqs. by apply PyDictFacts.get_delitem_eq.
  - exists (ReplyFuture.mk (ReplyFuture._xid o1) (ReplyFuture._results o1)
              (ReplyFuture._future o1) true).
    split; [|reflexivity]. simpl.
    apply list_lookup_insert_eq. by eapply lookup_lt_Some.
Qed.

Lemma terminal_delivery_witness :
  let c := one_request in
  let event := chunk 1 true in
  PyDict.wf (_reqs c) ∧
  PyDict.get (_reqs c) 8093 = Some (0%nat, 10.0%Q) ∧
  (_handle_xid event (VInt 8093) (Some OFError) c).1 = Ok true ∧
  PyDict.get (_reqs (_handle_xid event (VInt 8093) (Some OFError) c).2) 8093
  = None.
Proof.
  intros c event.
  assert (Hwf : PyDict.wf (_reqs c)) by (vm_compute; apply NoDup_singleton).
  assert (Hget : PyDict.get (_reqs c) 8093 = Some (0%nat, 10.0%Q))
    by (vm_compute; reflexivity).
  assert (Hrun : _handle_xid event (VInt 8093) (Some OFError) c
                 = (Ok true, (_handle_xid event (VInt 8093) (Some OFError) c).2))
    by (vm_compute; reflexivity).
  split; [exact Hwf|]. split; [exact Hget|].
  split; [by rewrite Hrun|].
  exact (proj1 (terminal_delivery_closes_the_request c _ event 8093 0%nat
                  10.0%Q (Some OFError) Hwf Hget
                  (or_introl (ex_intro _ OFError eq_refl)) Hrun)).
Defined.

(** X6: a result with MORE in its flags keeps the request open, whether
    a caller is suspended on the handle or not.  With no awaiter
    installed, the value goes to the end of the FIFO of the handle; with
    an awaiter suspended on the asyncio future of the handle, the value
    resolves that future, the handle forgets the future and the FIFO is
    left as it was.  Either way the handle is not marked done, and the
    request table, deadline included, is what it was, so that the chunk
    does not put off the timeout. *)
Theorem more_chunk_keeps_the_request_open (c : Controller) (xid : Z)
    (fut : nat) (expiration : Q) (o : ReplyFuture.t) (v : Value) :
  PyDict.get (_reqs c) xid = Some (fut, expiration) →
  handles (heap c) !! fut = Some o →
  (∀ f, ReplyFuture._future o = Some f →
        futures (heap c) !! f = Some Pending) →
  _event_has_more v = Ok true →
  ∃ c', _handle_xid v (VInt xid) None c = (Ok true, c') ∧
    _reqs c' = _reqs c ∧
    handles (heap c') !! fut
    = Some (ReplyFuture.mk (ReplyFuture._xid o)
              (match ReplyFuture._future o with
               | None => ReplyFuture._results o ++ [Res v]
               | Some _ => ReplyFuture._results o
               end)
              None (ReplyFuture._done o)) ∧
    futures (heap c')
    = match ReplyFuture._future o with
      | None => futures (heap c)
      | Some f => <[f := Finished v]> (futures (heap c))
      end ∧
    timed_out (with_clock expiration c') = timed_out (with_clock expiration c).
Proof.
  intros Hget Hload Hwaits Hmore.
  assert (Hlt : (fut < length (handles (heap c)))%nat)
    by (by eapply lookup_lt_Some).
  unfold _handle_xid, bind, xid_key, ret, gets. simpl. rewrite Hget. simpl.
  unfold on_heap, zoom, set_result, deliver, bind.
  rewrite (PylibofpFacts.load_ok _ _ _ Hload).
  destruct (ReplyFuture._future o) as [f|] eqn:Hfut.
  - unfold aio_resolve. rewrite (Hwaits f eq_refl).
    unfold store, modify, lift. rewrite Hmore. simpl.
    eexists. split; [reflexivity|]. simpl.
    split; [done|]. split; [|done].
    by apply list_lookup_insert_eq.
  - unfold store, modify, lift. rewrite Hmore. simpl.
    eexists. split; [reflexivity|]. simpl.
    split; [done|]. split; [|done].
    by apply list_lookup_insert_eq.
Qed.

Lemma more_chunk_witness :
  let c := (on_heap (__await__ 0%nat) one_request).2 in
  PyDict.get (_reqs c) 8093 = Some (0%nat, 10.0%Q) ∧
  handles (heap c) !! 0%nat = Some (ReplyFuture.mk 8093 [] (Some 0%nat) false) ∧
  futures (heap c) !! 0%nat = Some Pending ∧
  _event_has_more (chunk 1 true) = Ok true ∧
  ∃ c', _handle_xid (chunk 1 true) (VInt 8093) None c = (Ok true, c') ∧
        _reqs c' = _reqs c ∧
        handles (heap c') !! 0%nat = Some (ReplyFuture.mk 8093 [] None false) ∧
        futures (heap c') !! 0%nat = Some (Finished (chunk 1 true)).
Proof.
  intros c.
  assert (Hget : PyDict.get (_reqs c) 8093 = Some (0%nat, 10.0%Q))
    by (vm_compute; reflexivity).
  assert (Hload : handles (heap c) !! 0%nat
                  = Some (ReplyFuture.mk 8093 [] (Some 0%nat) false))
    by (vm_compute; reflexivity).
  assert (Hpending : futures (heap c) !! 0%nat = Some Pending)
    by (vm_compute; reflexivity).
  split; [exact Hget|]. split; [exact Hload|]. split; [exact Hpending|].
  split; [reflexivity|].
  destruct (more_chunk_keeps_the_request_open c 8093 0%nat 10.0%Q
              (ReplyFuture.mk 8093 [] (Some 0%nat) false) (chunk 1 true)
              Hget Hload)
    as (c' & Hrun & Hreqs & Hhandle & Hfutures & _).
  - intros f [= <-]. exact Hpending.
  - reflexivity.
  - exists c'. split; [exact Hrun|]. split; [exact Hreqs|].
    split; [exact Hhandle|]. rewrite Hfutures. reflexivity.
Defined.

(** *** The sweeper *)

Lemma sweep_keeps (l : list (Z * nat)) :
  ∀ (c : Controller) (xid : Z),
  xid ∉ l.*1 →
  PyDict.get
    (_reqs (for_each l (λ '(xid, fut),
              on_heap (set_exception fut (TimeoutException xid)) ;;;
              modify (λ c, with_reqs (PyDict.delitem (_reqs c) xid) c)) c).2)
    xid
  = PyDict.get (_reqs c) xid.
Proof.
  induction l as [|[x f] l IH]; intros c xid Hnotin; [done|].
  rewrite fmap_cons in Hnotin. apply not_elem_of_cons in Hnotin as [Hne Hnotin].
  simpl. unfold bind at 1 2.
  pose proof (PylibofpFacts.on_heap_reqs
                (set_exception f (TimeoutException x)) c) as Hreqs.
  destruct (on_heap (set_exception f (TimeoutException x)) c)
    as [[[]|e|b] c1]; simpl in *; [|by rewrite Hreqs..].
  rewrite IH by done. simpl. rewrite Hreqs.
  by apply PyDictFacts.get_delitem_ne.
Qed.

Lemma unexpired_not_timed_out (c : Controller) (xid : Z) (fut : nat)
    (expiration : Q) :
  PyDict.wf (_reqs c) →
  PyDict.get (_reqs c) xid = Some (fut, expiration) →
  Qle_bool expiration (clock c) = false →
  xid ∉ (timed_out c).*1.
Proof.
  intros Hwf Hget Hexp Hin.
  apply list_elem_of_fmap in Hin as ([x f] & -> & Hin).
  apply list_elem_of_omap in Hin as ([x' [f' e']] & Hin & Hsome).
  simpl in Hsome.
  destruct (Qle_bool e' (clock c)) eqn:He'; [|done].
  injection Hsome as -> ->. simpl in Hget.
  rewrite (PyDictFacts.in_get_Some _ _ _ Hwf Hin) in Hget.
  injection Hget as _ ->. congruence.
Qed.

Lemma idle_unfold (c : Controller) :
  _idle c
  = for_each (timed_out c) (λ '(xid, fut),
      on_heap (set_exception fut (TimeoutException xid)) ;;;
      modify (λ c, with_reqs (PyDict.delitem (_reqs c) xid) c)) c.
Proof. reflexivity. Qed.

(** X7: the sweeper leaves alone what has not expired: however the
    sweep ends, a request whose deadline is after the present time is in
    the table as before, and no handle has its [_done] flag changed; and
    when nothing has expired the sweep changes nothing at all. *)
Theorem idle_spares_unexpired_requests (c : Controller) :
  (∀ (xid : Z) (fut : nat) (expiration : Q),
     PyDict.wf (_reqs c) →
     PyDict.get (_reqs c) xid = Some (fut, expiration) →
     Qle_bool expiration (clock c) = false →
     PyDict.get (_reqs (_idle c).2) xid = Some (fut, expiration)) ∧
  done_flags (heap (_idle c).2) = done_flags (heap c) ∧
  (timed_out c = [] → _idle c = (Ok tt, c)).
Proof.
  split; [|split].
  - intros xid fut expiration Hwf Hget Hexp.
    rewrite idle_unfold, sweep_keeps; [done|].
    by eapply unexpired_not_timed_out.
  - apply PylibofpFacts.idle_done_flags.
  - intros Hnone. by rewrite idle_unfold, Hnone.
Qed.

Lemma idle_spares_witness :
  let c := with_clock 5 one_request in
  PyDict.wf (_reqs c) ∧
  PyDict.get (_reqs c) 8093 = Some (0%nat, 10.0%Q) ∧
  Qle_bool 10.0 (clock c) = false ∧
  PyDict.get (_reqs (_idle c).2) 8093 = Some (0%nat, 10.0%Q).
Proof.
  intros c.
  assert (Hwf : PyDict.wf (_reqs c)) by (vm_compute; apply NoDup_singleton).
  assert (Hget : PyDict.get (_reqs c) 8093 = Some (0%nat, 10.0%Q))
    by (vm_compute; reflexivity).
  assert (Hexp : Qle_bool 10.0 (clock c) = false) by (vm_compute; reflexivity).
  split; [exact Hwf|]. split; [exact Hget|]. split; [exact Hexp|].
  exact (proj1 (idle_spares_unexpired_requests c) 8093 0%nat 10.0%Q
           Hwf Hget Hexp).
Defined.

(** X8: the caller of the one request that has expired gets
    [TimeoutException(xid)]: when it is suspended on the handle, the
    sweep fails its asyncio future with it, so that it is resumed with
    the exception; when nobody awaits the handle, the exception goes to
    the end of the FIFO, and with nothing before it the next [await]
    raises it. *)
Theorem idle_delivers_the_timeout (c : Controller) (xid : Z) (fut : nat)
    (o : ReplyFuture.t) :
  timed_out c = [(xid, fut)] →
  handles (heap c) !! fut = Some o →
  (∀ f, ReplyFuture._future o = Some f →
        futures (heap c) !! f = Some Pending →
        ∃ c', _idle c = (Ok tt, c') ∧
          _reqs c' = PyDict.delitem (_reqs c) xid ∧
          resume f (heap c') = (Raise (TimeoutException xid), heap c') ∧
          handles (heap c') !! fut
          = Some (ReplyFuture.mk (ReplyFuture._xid o) (ReplyFuture._results o)
                    None (ReplyFuture._done o))) ∧
  (ReplyFuture._future o = None →
   ∃ c', _idle c = (Ok tt, c') ∧
     _reqs c' = PyDict.delitem (_reqs c) xid ∧
     handles (heap c') !! fut
     = Some (ReplyFuture.mk (ReplyFuture._xid o)
               (ReplyFuture._results o ++ [Exc (TimeoutException xid)])
               None (ReplyFuture._done o)) ∧
     (ReplyFuture._results o = [] →
      (await fut (heap c')).1 = Raise (TimeoutException xid))).
Proof.
  intros Hexpired Hload.
  assert (Hlt : (fut < length (handles (heap c)))%nat)
    by (by eapply lookup_lt_Some).
  split.
  - intros f Hfut Hpending.
    assert (Hf : (f < length (futures (heap c)))%nat)
      by (by eapply lookup_lt_Some).
    eexists. split.
    + rewrite idle_unfold, Hexpired. simpl.
      unfold bind, on_heap, zoom, set_exception, deliver, bind.
      rewrite (PylibofpFacts.load_ok _ _ _ Hload), Hfut.
      unfold aio_resolve. rewrite Hpending. reflexivity.
    + simpl. split; [done|]. split.
      * unfold resume. simpl. by rewrite list_lookup_insert_eq.
      * by apply list_lookup_insert_eq.
  - intros Hfut. eexists. split.
    + rewrite idle_unfold, Hexpired. simpl.
      unfold bind, on_heap, zoom, set_exception, deliver, bind.
      rewrite (PylibofpFacts.load_ok _ _ _ Hload), Hfut. reflexivity.
    + simpl. split; [done|]. split.
      * by apply list_lookup_insert_eq.
      * intros Hres.
        rewrite (PylibofpFacts.await_next _ fut
                   (ReplyFuture.mk (ReplyFuture._xid o)
                      (ReplyFuture._results o ++ [Exc (TimeoutException xid)])
                      None (ReplyFuture._done o))
                   (Exc (TimeoutException xid)) []);
          [reflexivity | by apply list_lookup_insert_eq
          | simpl; by rewrite Hres | done].
Qed.

Lemma idle_delivers_the_timeout_witness :
  let c := with_clock 10 one_request in
  timed_out c = [(8093, 0%nat)] ∧
  handles (heap c) !! 0%nat = Some (ReplyFuture.mk 8093 [] None false) ∧
  ∃ c', _idle c = (Ok tt, c') ∧
        (await 0 (heap c')).1 = Raise (TimeoutException 8093).
Proof.
  intros c.
  assert (Hexpired : timed_out c = [(8093, 0%nat)]) by (vm_compute; reflexivity).
  assert (Hload : handles (heap c) !! 0%nat
                  = Some (ReplyFuture.mk 8093 [] None false))
    by (vm_compute; reflexivity).
  split; [exact Hexpired|]. split; [exact Hload|].
  destruct (proj2 (idle_delivers_the_timeout c 8093 0%nat _ Hexpired Hload)
              eq_refl) as (c' & Hrun & _ & _ & Hawait).
  exists c'. split; [exact Hrun | exact (Hawait eq_refl)].
Defined.

(** *** The task registry *)

Lemma ensure_future_spec (task : Task) (k : string) (c : Controller) :
  k ≠ "" →
  _ensure_future task (Some k) c
  = (Ok task,
     with_tasks
       (PyDict.setitem (_tasks c) k
          (default [] (PyDict.get (_tasks c) k) ++ [task])) c).
Proof.
  intros Hk. unfold _ensure_future, bind, ret, modify.
  by rewrite bool_decide_eq_false_2.
Qed.

(** X9: a task that [_ensure_future] has put in a scope gets a
    [cancel()] when that scope is cancelled, and when the scope START or
    STOP is cancelled; cancelling any other scope cancels the tasks that
    scope had, in order, and nothing else.  [_cancel_tasks] itself takes
    no task out of the registry. *)
Theorem registered_task_is_cancelled_with_its_scope (c : Controller)
    (task : Task) (k : string) :
  k ≠ "" →
  ∃ c1, _ensure_future task (Some k) c = (Ok task, c1) ∧
    cancel_calls c1 = cancel_calls c ∧
    (∀ scope, scope = k ∨ scope = "START" ∨ scope = "STOP" →
       ∃ c2 new, _cancel_tasks scope c1 = (Ok tt, c2) ∧
         cancel_calls c2 = cancel_calls c1 ++ new ∧ task ∈ new ∧
         _tasks c2 = _tasks c1) ∧
    (∀ scope, scope ≠ k → scope ≠ "START" → scope ≠ "STOP" →
       _cancel_tasks scope c1
       = (Ok tt,
          with_cancel_calls
            (cancel_calls c1 ++ default [] (PyDict.get (_tasks c) scope)) c1)).
Proof.
  intros Hk. eexists. split; [by apply ensure_future_spec|].
  split; [done|].
  set (l := default [] (PyDict.get (_tasks c) k)).
  set (c1 := with_tasks _ c).
  assert (Hget : PyDict.get (_tasks c1) k = Some (l ++ [task]))
    by apply PyDictFacts.get_setitem_eq.
  split.
  - intros scope Hscope. exists (_cancel_tasks scope c1).2, (cancelled_by c1 scope).
    rewrite PylibofpFacts.cancel_tasks_spec. simpl.
    split; [done|]. split; [done|]. split; [|done].
    unfold cancelled_by.
    destruct Hscope as [-> | Hall].
    + rewrite Hget. simpl. apply elem_of_app. right.
      apply elem_of_app. right. apply list_elem_of_here.
    + replace (bool_decide (scope = "START") || bool_decide (scope = "STOP"))
        with true by (destruct Hall as [-> | ->]; reflexivity).
      apply elem_of_app. left. apply elem_of_concat.
      exists (l ++ [task]). split.
      * apply list_elem_of_fmap. exists (k, l ++ [task]). split; [done|].
        by apply PyDictFacts.get_Some_in.
      * apply elem_of_app. right. apply list_elem_of_here.
  - intros scope Hne Hstart Hstop.
    rewrite PylibofpFacts.cancel_tasks_spec. unfold cancelled_by.
    rewrite !bool_decide_eq_false_2 by done. simpl.
    subst c1. simpl. by rewrite PyDictFacts.get_setitem_ne.
Qed.

Lemma registered_task_witness :
  ∃ c1, _ensure_future 5%nat (Some "Datapath 00:01") (running []) = (Ok 5%nat, c1) ∧
        cancel_calls (_cancel_tasks "Datapath 00:01" c1).2 = [5%nat].
Proof.
  destruct (registered_task_is_cancelled_with_its_scope (running []) 5%nat
              "Datapath 00:01" ltac:(done)) as (c1 & Hrun & _).
  exists c1. split; [exact Hrun|].
  vm_compute in Hrun. injection Hrun as <-. reflexivity.
Defined.

Lemma list_remove_fresh (task : Task) (l : list Task) :
  task ∉ l → list_remove task l = None ∧ list_remove task (l ++ [task]) = Some l.
Proof.
  induction l as [|y l IH]; intros Hnotin; simpl.
  - by rewrite decide_True.
  - apply not_elem_of_cons in Hnotin as [Hne Hnotin].
    rewrite !decide_False by congruence.
    destruct (IH Hnotin) as [-> ->]. done.
Qed.

(** X10: the done callback undoes the registration: for a task that was
    not yet in the list of its scope, [_ensure_future] puts it there, so
    that [tasks()] has it, and [_task_callback] with the same scope key
    takes it out again and leaves the list of the scope, and [tasks()],
    as they were before; a second callback for the task raises
    [ValueError]. *)
Theorem task_callback_undoes_ensure_future (c : Controller) (task : Task)
    (k : string) :
  k ≠ "" →
  task ∉ default [] (PyDict.get (_tasks c) k) →
  ∃ c1 c2,
    _ensure_future task (Some k) c = (Ok task, c1) ∧
    (∃ ts, tasks c1 = (Ok ts, c1) ∧ task ∈ ts) ∧
    _task_callback task k c1 = (Ok tt, c2) ∧
    PyDict.get (_tasks c2) k = Some (default [] (PyDict.get (_tasks c) k)) ∧
    (∀ k', k' ≠ k → PyDict.get (_tasks c2) k' = PyDict.get (_tasks c) k') ∧
    (tasks c2).1 = (tasks c).1 ∧
    (_task_callback task k c2).1
    = Raise (ValueError "list.remove(x): x not in list").
Proof.
  intros Hk Hfresh.
  set (l := default [] (PyDict.get (_tasks c) k)) in *.
  destruct (list_remove_fresh task l Hfresh) as [Hnone Hsome].
  exists (with_tasks (PyDict.setitem (_tasks c) k (l ++ [task])) c),
         (with_tasks (PyDict.setitem (_tasks c) k l) c).
  split; [by apply ensure_future_spec|].
  split.
  { eexists. split; [reflexivity|]. simpl. apply elem_of_concat.
    exists (l ++ [task]). split.
    - apply list_elem_of_fmap. exists (k, l ++ [task]). split; [done|].
      apply PyDictFacts.get_Some_in, PyDictFacts.get_setitem_eq.
    - apply elem_of_app. right. apply list_elem_of_here. }
  split.
  { unfold _task_callback, bind, gets, modify. simpl.
    rewrite PyDictFacts.get_setitem_eq. simpl. rewrite Hsome.
    cbn [_tasks with_tasks].
    by rewrite !PyDictMoreFacts.setitem_setitem. }
  split; [apply PyDictFacts.get_setitem_eq|].
  split; [intros k' Hne; by apply PyDictFacts.get_setitem_ne|].
  split.
  { unfold tasks, bind, gets, ret. simpl. f_equal. subst l.
    destruct (PyDict.get (_tasks c) k) as [l|] eqn:Hget; simpl.
    - by rewrite PyDictMoreFacts.setitem_get_id.
    - rewrite PyDictMoreFacts.setitem_fresh by done.
      unfold PyDict.values. rewrite fmap_app, concat_app. simpl.
      by rewrite app_nil_r. }
  unfold _task_callback, bind, gets, modify. simpl.
  rewrite PyDictFacts.get_setitem_eq. simpl. by rewrite Hnone.
Qed.

Lemma task_callback_witness :
  (5%nat ∉ default [] (PyDict.get (_tasks (running [])) "Datapath 00:01")) ∧
  ∃ c1 c2,
    _ensure_future 5%nat (Some "Datapath 00:01") (running []) = (Ok 5%nat, c1) ∧
    _task_callback 5%nat "Datapath 00:01" c1 = (Ok tt, c2) ∧
    (tasks c2).1 = Ok [].
Proof.
  assert (Hfresh : 5%nat ∉ default [] (PyDict.get (_tasks (running []))
                                        "Datapath 00:01"))
    by apply not_elem_of_nil.
  split; [exact Hfresh|].
  destruct (task_callback_undoes_ensure_future (running []) 5%nat
              "Datapath 00:01" ltac:(done) Hfresh)
    as (c1 & c2 & Hreg & _ & Hcb & _ & _ & Htasks & _).
  exists c1, c2. split; [exact Hreg|]. split; [exact Hcb|].
  rewrite Htasks. reflexivity.
Defined.

(** *** A call and its answer *)

Lemma Qle_bool_refl (q : Q) : Qle_bool q q = true.
Proof. apply Qle_bool_iff, Qle_refl. Qed.

Lemma lookup_end {A} (l : list A) (x : A) : (l ++ [x]) !! length l = Some x.
Proof. by apply list_lookup_middle. Qed.

Lemma insert_end {A} (l : list A) (x y : A) :
  <[length l := y]> (l ++ [x]) = l ++ [y].
Proof. rewrite insert_app_r_alt by done. by rewrite Nat.sub_diag. Qed.

Ltac setters :=
  cbv beta iota delta
    [with_xid with_reqs with_event_queue with_ofp_versions with_tls_id
     with_tasks with_phase with_heap with_conn with_cancel_calls
     with_logged with_clock with_backend
     _xid _reqs _event_queue _ofp_versions _tls_id _tasks _phase _conn heap
     cancel_calls logged clock backend handles futures fst snd].

(** X11: a coroutine that makes an RPC call and awaits the handle is
    suspended on a fresh asyncio future; when the backend answers with a
    result (without MORE), the coroutine goes on with that result; when
    it answers with an error, the coroutine gets [RPCException] with the
    reply; when it never answers and no other request is outstanding,
    the sweeper gives it [TimeoutException] with the xid, 10 seconds
    later.  In each case the request is out of the table afterwards; the
    handle is marked done after a result or an error, and not after the
    timeout. *)
Theorem rpc_call_and_answer (c : Controller) (method : string)
    (params : list (string * Value)) (script : list RpcOutcome) :
  is_Some (_conn c) →
  xid_in_range (_xid c) →
  let xid := next_of (_xid c) in
  let frame := rpc_frame xid method params in
  PyDict.get (_reqs c) xid = None →
  (∀ result,
     backend c = Replies result :: script →
     _event_has_more result = Ok false →
     call_and_await method params c
     = (Ok result,
        answered c frame (ReplyFuture.mk xid [] None true) (Finished result)
          script (clock c))) ∧
  (∀ error,
     backend c = Fails error :: script →
     let reply := VObj [("id", VInt xid); ("error", error)] in
     call_and_await method params c
     = (Raise (RPCException reply),
        answered c frame (ReplyFuture.mk xid [] None true)
          (Failed (RPCException reply)) script (clock c))) ∧
  (backend c = Silent :: script →
   _reqs c = [] →
   call_and_await method params c
   = (Raise (TimeoutException xid),
      answered c frame (ReplyFuture.mk xid [] None false)
        (Failed (TimeoutException xid)) script (clock c + _XID_TIMEOUT)%Q)).
Proof.
  intros [frames Hconn] Hx xid frame Hfresh.
  pose proof (next_of_positive _ Hx) as Hpos. fold xid in Hpos.
  destruct c as [x reqs q vers tls tsks phase conn [hs fs] cc lg clk be].
  simpl in Hconn, Hfresh, xid, frame |- *. subst conn.
  split; [|split].
  - intros result -> Hmore.
    unfold call_and_await, _rpc_call, bind at 1 2. rewrite next_xid_spec.
    cbn [_xid]. fold xid.
    unfold _write, bind, gets, modify, assert, _timestamp, ret. cbn.
    rewrite bool_decide_eq_true_2 by done. cbn.
    unfold on_heap, zoom, __await__, bind, load. setters.
    rewrite lookup_end. cbn. rewrite insert_end, lookup_end. cbn.
    unfold in_other_task, backend_answers, bind, gets, modify. setters.
    unfold _handle_rpc_reply, bind, ret. cbn.
    unfold _handle_xid, bind, gets, ret, xid_key. cbn.
    rewrite PyDictFacts.get_setitem_eq. cbn.
    unfold on_heap, zoom, set_result, deliver, bind, load. cbn.
    rewrite lookup_end. cbn. unfold aio_resolve. cbn. rewrite lookup_end.
    cbn. rewrite !insert_end. unfold lift. rewrite Hmore. cbn.
    unfold set_done, bind, load. cbn. rewrite lookup_end. cbn.
    rewrite insert_end. unfold resume. cbn. rewrite lookup_end.
    unfold answered. cbn.
    by rewrite PyDictMoreFacts.delitem_setitem_fresh by done.
  - intros error ->.
    unfold call_and_await, _rpc_call, bind at 1 2. rewrite next_xid_spec.
    cbn [_xid]. fold xid.
    unfold _write, bind, gets, modify, assert, _timestamp, ret. cbn.
    rewrite bool_decide_eq_true_2 by done. cbn.
    unfold on_heap, zoom, __await__, bind, load. setters.
    rewrite lookup_end. cbn. rewrite insert_end, lookup_end. cbn.
    unfold in_other_task, backend_answers, bind, gets, modify. setters.
    unfold _handle_rpc_reply, bind, ret. cbn.
    unfold _handle_xid, bind, gets, ret, xid_key. cbn.
    rewrite PyDictFacts.get_setitem_eq. cbn.
    unfold on_heap, zoom, set_exception, deliver, bind, load. cbn.
    rewrite lookup_end. cbn. unfold aio_resolve. cbn. rewrite lookup_end.
    cbn. rewrite !insert_end.
    unfold set_done, bind, load. cbn. rewrite lookup_end. cbn.
    rewrite insert_end. unfold resume. cbn. rewrite lookup_end.
    unfold answered. cbn.
    by rewrite PyDictMoreFacts.delitem_setitem_fresh by done.
  - intros -> ->.
    unfold call_and_await, _rpc_call, bind at 1 2. rewrite next_xid_spec.
    cbn [_xid]. fold xid.
    unfold _write, bind, gets, modify, assert, _timestamp, ret. cbn.
    rewrite bool_decide_eq_true_2 by done. cbn.
    unfold on_heap, zoom, __await__, bind, load. setters.
    rewrite lookup_end. cbn. rewrite insert_end, lookup_end. cbn.
    unfold in_other_task, backend_answers, bind, gets, modify. setters.
    unfold _idle, bind, _timestamp, gets. cbn.
    rewrite Qle_bool_refl. cbn.
    unfold bind, on_heap, zoom, set_exception, deliver, bind, load. cbn.
    rewrite lookup_end. cbn. unfold aio_resolve. cbn. rewrite lookup_end.
    cbn. rewrite !insert_end. unfold modify. setters.
    rewrite decide_True by done.
    unfold resume. cbn. by rewrite lookup_end.
Qed.

Lemma rpc_call_and_answer_witness :
  let c := running [Replies (description 1)] in
  is_Some (_conn c) ∧ xid_in_range (_xid c) ∧
  PyDict.get (_reqs c) (next_of (_xid c)) = None ∧
  (call_and_await "OFP.DESCRIPTION" [] c).1 = Ok (description 1).
Proof.
  intros c.
  assert (Hconn : is_Some (_conn c)) by (by eexists).
  assert (Hx : xid_in_range (_xid c)) by (by vm_compute).
  assert (Hfresh : PyDict.get (_reqs c) (next_of (_xid c)) = None)
    by reflexivity.
  split; [exact Hconn|]. split; [exact Hx|]. split; [exact Hfresh|].
  by rewrite (proj1 (rpc_call_and_answer c "OFP.DESCRIPTION" [] []
                       Hconn Hx Hfresh) (description 1) eq_refl eq_refl).
Defined.

(** *** The start sequence, for any list of endpoints *)

Lemma call_then {A} (method : string) (params : list (string * Value))
    (k : Value → CM A) (c : Controller) :
  (let! fut := _rpc_call method params in
   let! result := await_reply fut in
   k result) c
  = (let! result := call_and_await method params in k result) c.
Proof.
  unfold call_and_await, bind.
  by destruct (_rpc_call method params c) as [[fut|e|f] c1].
Qed.

Lemma next_of_xid_after (x : Z) : xid_in_range x → next_of x = xid_after x 1.
Proof.
  intros Hx. pose proof (next_xid_closed_form (with_xid x (init 0 [])) Hx) as H1.
  rewrite next_xid_spec in H1. simpl in H1. by injection H1.
Qed.

Lemma listen_loop (versions : Value) (script : list RpcOutcome)
    (endpoints : list Value) :
  ∀ (replies : list Value) (c : Controller) (frames : list Value),
  _conn c = Some frames →
  xid_in_range (_xid c) →
  _reqs c = [] →
  backend c = (Replies <$> replies) ++ script →
  length replies = length endpoints →
  Forall acceptable_listen_reply replies →
  ∃ c',
    for_each endpoints (λ endpt,
      let! tls_id := gets _tls_id in
      let! fut := _rpc_call "OFP.LISTEN"
                    [("endpoint", endpt); ("versions", versions);
                     ("tls_id", tls_id);
                     ("options", VList [VStr "FEATURES_REQ"])] in
      let! result := await_reply fut in
      let! _ := attr result "conn_id" in
      ret tt) c = (Ok tt, c') ∧
    _conn c'
    = Some (frames ++ imap (λ i endpt,
                              listen_frame (xid_after (_xid c) (1 + Z.of_nat i))
                                endpt versions (_tls_id c)) endpoints) ∧
    _reqs c' = [] ∧ backend c' = script ∧
    _xid c' = xid_after (_xid c) (Z.of_nat (length endpoints)) ∧
    _event_queue c' = _event_queue c ∧ _phase c' = _phase c ∧
    _tasks c' = _tasks c ∧ cancel_calls c' = cancel_calls c ∧
    logged c' = logged c ∧ _ofp_versions c' = _ofp_versions c ∧
    _tls_id c' = _tls_id c ∧ clock c' = clock c.
Proof.
  induction endpoints as [|endpt endpoints IH];
    intros replies c frames Hconn Hx Hreqs Hscript Hlen Hok.
  - destruct replies; [|done]. exists c. simpl in *.
    rewrite app_nil_r, xid_after_0 by done. done.
  - destruct replies as [|r replies]; [done|].
    apply Forall_cons in Hok as [[[cid Hcid] Hmore] Hok].
    simpl in Hscript, Hlen. injection Hlen as Hlen.
    cbn [for_each]. unfold bind at 1 2, gets at 1.
    rewrite call_then. unfold bind at 1.
    rewrite (proj1 (rpc_call_and_answer c "OFP.LISTEN" _
                      ((Replies <$> replies) ++ script)
                      ltac:(by eexists) Hx ltac:(by rewrite Hreqs))
               r Hscript Hmore).
    unfold bind at 1, attr. rewrite Hcid. unfold bind at 1, ret.
    set (c1 := answered _ _ _ _ _ _).
    destruct (IH replies c1 (frames ++ [listen_frame (next_of (_xid c)) endpt
                                          versions (_tls_id c)]))
      as (c' & Hrun & Hframes & Hreqs' & Hback & Hxid & Hq & Hphase & Htasks
          & Hcc & Hlog & Hvers & Htls & Hclock);
      [by subst c1; simpl; rewrite Hconn | apply xid_after_in_range || idtac
      | done | done | done | done |].
    { subst c1. simpl. rewrite next_of_xid_after by done.
      apply xid_after_in_range. }
    exists c'. split; [exact Hrun|].
    subst c1. simpl in *.
    rewrite next_of_xid_after in * by done.
    split.
    { rewrite Hframes, <- app_assoc. simpl. do 3 f_equal.
      apply imap_ext. intros i e _. simpl. rewrite xid_after_after.
      do 2 f_equal. lia. }
    split; [done|]. split; [done|].
    split; [rewrite Hxid, xid_after_after; f_equal; lia|].
    done.
Qed.

Lemma get_description_ok (c : Controller) (frames : list Value)
    (desc versions : Value) (script : list RpcOutcome) :
  _conn c = Some frames →
  xid_in_range (_xid c) →
  _reqs c = [] →
  backend c = Replies desc :: script →
  acceptable_description desc versions →
  _get_description c
  = (Ok tt,
     with_ofp_versions versions
       (answered c (rpc_frame (next_of (_xid c)) "OFP.DESCRIPTION" [])
          (ReplyFuture.mk (next_of (_xid c)) [] None true) (Finished desc)
          script (clock c))).
Proof.
  intros Hconn Hx Hreqs Hscript ((major & Hmajor & Hle) & Hvers & [sw Hsw] & Hmore).
  unfold _get_description, try_except. rewrite call_then. unfold bind at 1.
  rewrite (proj1 (rpc_call_and_answer c "OFP.DESCRIPTION" [] script
                    ltac:(by eexists) Hx ltac:(by rewrite Hreqs))
             desc Hscript Hmore).
  unfold bind at 1, attr at 1. rewrite Hmajor. unfold ret at 1.
  unfold bind at 1, py_gt. unfold ret at 1.
  rewrite bool_decide_eq_false_2 by lia.
  unfold bind at 1, ret at 1. unfold bind at 1, attr at 1. rewrite Hvers.
  unfold ret at 1. unfold bind at 1, modify. unfold bind at 1, attr.
  rewrite Hsw. reflexivity.
Qed.

Lemma listen_on_endpoints_ok (endpoints replies : list Value)
    (script : list RpcOutcome) (c : Controller) (frames : list Value) :
  _conn c = Some frames →
  xid_in_range (_xid c) →
  _reqs c = [] →
  backend c = (Replies <$> replies) ++ script →
  length replies = length endpoints →
  Forall acceptable_listen_reply replies →
  ∃ c',
    (match endpoints with
     | [] => ret tt
     | _ => _listen_on_endpoints endpoints
     end) c = (Ok tt, c') ∧
    _conn c'
    = Some (frames ++ imap (λ i endpt,
                              listen_frame (xid_after (_xid c) (1 + Z.of_nat i))
                                endpt (_ofp_versions c) (_tls_id c)) endpoints) ∧
    _reqs c' = [] ∧ backend c' = script ∧
    _event_queue c' = _event_queue c ∧ _phase c' = _phase c ∧
    _tasks c' = _tasks c ∧ cancel_calls c' = cancel_calls c ∧
    logged c' = logged c ∧ _ofp_versions c' = _ofp_versions c ∧
    _tls_id c' = _tls_id c.
Proof.
  intros Hconn Hx Hreqs Hscript Hlen Hok.
  destruct (listen_loop (_ofp_versions c) script endpoints replies c frames)
    as (c' & Hrun & Hframes & Hreqs' & Hback & _ & Hq & Hphase & Htasks
        & Hcc & Hlog & Hvers & Htls & _); try done.
  exists c'. split; [|done].
  destruct endpoints as [|endpt endpoints].
  - simpl in Hrun. by injection Hrun as <-.
  - unfold _listen_on_endpoints, bind at 1, gets at 1, try_except.
    by rewrite Hrun.
Qed.

(** X12: the start sequence without TLS, for any list of endpoints.  When
    the backend answers the DESCRIPTION call with a description of a
    supported API version and every LISTEN call with a result that has a
    [conn_id], [_start] sends the DESCRIPTION frame and then one LISTEN
    frame for each endpoint, in the order of the list, with the
    advertised OpenFlow versions and successive xids; it records the
    versions, sets the phase START and posts the START event; it cancels
    no task, logs no error and leaves no request in the table. *)
Theorem start_listens_on_every_endpoint (c : Controller)
    (frames q : list Value) (desc versions : Value)
    (endpoints replies : list Value) (script : list RpcOutcome) :
  _conn c = Some frames →
  _event_queue c = Some q →
  _phase c = "PRESTART" →
  _reqs c = [] →
  xid_in_range (_xid c) →
  backend c = Replies desc :: (Replies <$> replies) ++ script →
  acceptable_description desc versions →
  length replies = length endpoints →
  Forall acceptable_listen_reply replies →
  ∃ c', _start endpoints [] c = (Ok tt, c') ∧
    _phase c' = "START" ∧
    _event_queue c' = Some (q ++ [make_event "START"]) ∧
    _conn c'
    = Some (frames
            ++ rpc_frame (xid_after (_xid c) 1) "OFP.DESCRIPTION" []
            :: imap (λ i endpt,
                       listen_frame (xid_after (_xid c) (2 + Z.of_nat i))
                         endpt versions (_tls_id c)) endpoints) ∧
    _ofp_versions c' = versions ∧
    _reqs c' = [] ∧ backend c' = script ∧
    cancel_calls c' = cancel_calls c ∧ logged c' = logged c.
Proof.
  intros Hconn Hq Hphase Hreqs Hx Hscript Hdesc Hlen Hok.
  pose proof (get_description_ok c frames desc versions _
                Hconn Hx Hreqs Hscript Hdesc) as Hget.
  set (c1 := with_ofp_versions versions _) in Hget.
  destruct (listen_on_endpoints_ok endpoints replies script c1
              (frames ++ [rpc_frame (next_of (_xid c)) "OFP.DESCRIPTION" []]))
    as (c2 & Hlisten & Hframes & Hreqs2 & Hback & Hq2 & Hphase2 & _
        & Hcc & Hlog & Hvers & _); try done.
  { subst c1. simpl. by rewrite Hconn. }
  { subst c1. simpl. rewrite next_of_xid_after by done.
    apply xid_after_in_range. }
  pose proof (PylibofpFacts.set_phase_spec "START" c2) as Hset.
  rewrite Hphase2 in Hset. subst c1. simpl in *.
  rewrite Hphase in Hset. simpl in Hset.
  eexists. split.
  - unfold _start, try_except, bind at 1. rewrite Hget.
    unfold bind at 1, ret at 1. unfold bind at 1. rewrite Hlisten.
    rewrite Hset. reflexivity.
  - simpl. split; [done|]. rewrite Hq2, Hq. split; [done|].
    split.
    { rewrite Hframes, <- app_assoc. simpl.
      rewrite next_of_xid_after by done. do 3 f_equal.
      apply imap_ext. intros i e _. simpl. rewrite xid_after_after.
      do 2 f_equal. lia. }
    done.
Qed.

Lemma start_listens_witness :
  let c := running [Replies (description 1);
                    Replies (VObj [("conn_id", VInt 1)]);
                    Replies (VObj [("conn_id", VInt 2)])] in
  ∃ c', _start [VInt 6633; VInt 6653] [] c = (Ok tt, c') ∧
        _phase c' = "START" ∧
        _conn c'
        = Some [rpc_frame 8093 "OFP.DESCRIPTION" [];
                listen_frame 8094 (VInt 6633) (VList [VInt 1; VInt 4]) (VInt 0);
                listen_frame 8095 (VInt 6653) (VList [VInt 1; VInt 4]) (VInt 0)].
Proof.
  intros c.
  destruct (start_listens_on_every_endpoint c [] [make_event "PRESTART"]
              (description 1) (VList [VInt 1; VInt 4])
              [VInt 6633; VInt 6653]
              [VObj [("conn_id", VInt 1)]; VObj [("conn_id", VInt 2)]] [])
    as (c' & Hrun & Hphase & _ & Hframes & _).
  - reflexivity.
  - reflexivity.
  - reflexivity.
  - reflexivity.
  - by vm_compute.
  - reflexivity.
  - split; [exists 1; split; [reflexivity | by vm_compute]|].
    split; [reflexivity|]. split; [by eexists | reflexivity].
  - reflexivity.
  - repeat constructor; by eexists.
  - exists c'. split; [exact Hrun|]. split; [exact Hphase|].
    rewrite Hframes. reflexivity.
Defined.

Lemma for_each_app {E S A} (l1 l2 : list A) (body : A → M E S unit) (s : S) :
  for_each (l1 ++ l2) body s
  = (for_each l1 body ;;; for_each l2 body) s.
Proof.
  revert s. induction l1 as [|x l1 IH]; intros s; simpl.
  - reflexivity.
  - unfold bind. destruct (body x s) as [[[]|e|f] s1]; [|done..].
    rewrite IH. reflexivity.
Qed.

Lemma call_fails (c : Controller) (method : string)
    (params : list (string * Value)) (frames : list Value)
    (outcome : RpcOutcome) (script : list RpcOutcome) (exc : Exception) :
  _conn c = Some frames →
  xid_in_range (_xid c) →
  _reqs c = [] →
  backend c = outcome :: script →
  failure_of outcome (next_of (_xid c)) = Some exc →
  ∃ c', call_and_await method params c = (Raise exc, c') ∧
    is_ControllerException exc = true ∧
    _conn c' = Some (frames ++ [rpc_frame (next_of (_xid c)) method params]) ∧
    _reqs c' = [] ∧ backend c' = script ∧
    _event_queue c' = _event_queue c ∧ _phase c' = _phase c ∧
    _tasks c' = _tasks c ∧ cancel_calls c' = cancel_calls c ∧
    logged c' = logged c ∧ _ofp_versions c' = _ofp_versions c.
Proof.
  intros Hconn Hx Hreqs Hscript Hfail.
  destruct (rpc_call_and_answer c method params script
              ltac:(by eexists) Hx ltac:(by rewrite Hreqs))
    as (_ & Herror & Hsilent).
  destruct outcome as [result|error|]; [done| |]; injection Hfail as <-.
  - eexists. split; [by apply Herror|]. simpl. by rewrite Hconn.
  - eexists. split; [by apply Hsilent|]. simpl. by rewrite Hconn.
Qed.

(** X13: when the call for one of the endpoints fails (the backend
    answers with an error, or does not answer before the request times
    out) after the calls before it have succeeded, [_start] logs that it
    is unable to listen, posts STARTFAIL and then EXIT, and leaves the
    phase at PRESTART; the endpoints after the failing one get no LISTEN
    frame, and no task is cancelled. *)
Theorem start_fails_when_a_listen_fails (c : Controller)
    (frames q : list Value) (desc versions : Value)
    (before after replies : list Value) (endpt : Value)
    (outcome : RpcOutcome) (exc : Exception) (script : list RpcOutcome) :
  _conn c = Some frames →
  _event_queue c = Some q →
  _phase c = "PRESTART" →
  _reqs c = [] →
  xid_in_range (_xid c) →
  backend c
  = Replies desc :: (Replies <$> replies) ++ outcome :: script →
  acceptable_description desc versions →
  length replies = length before →
  Forall acceptable_listen_reply replies →
  failure_of outcome (xid_after (_xid c) (2 + Z.of_nat (length before)))
  = Some exc →
  ∃ c', _start (before ++ endpt :: after) [] c = (Ok tt, c') ∧
    _phase c' = "PRESTART" ∧
    _event_queue c'
    = Some (q ++ [make_event "STARTFAIL"; make_event "EXIT"]) ∧
    _conn c'
    = Some (frames
            ++ rpc_frame (xid_after (_xid c) 1) "OFP.DESCRIPTION" []
            :: imap (λ i endpt,
                       listen_frame (xid_after (_xid c) (2 + Z.of_nat i))
                         endpt versions (_tls_id c)) (before ++ [endpt])) ∧
    logged c' = logged c ++ [(ERROR, "Unable to listen on %s: %s")] ∧
    cancel_calls c' = cancel_calls c.
Proof.
  intros Hconn Hq Hphase Hreqs Hx Hscript Hdesc Hlen Hok Hfail.
  pose proof (get_description_ok c frames desc versions _
                Hconn Hx Hreqs Hscript Hdesc) as Hget.
  set (c1 := with_ofp_versions versions _) in Hget.
  assert (Hx1 : xid_in_range (_xid c1)).
  { subst c1. simpl. rewrite next_of_xid_after by done.
    apply xid_after_in_range. }
  destruct (listen_loop versions (outcome :: script) before replies c1
              (frames ++ [rpc_frame (next_of (_xid c)) "OFP.DESCRIPTION" []]))
    as (c2 & Hloop & Hframes & Hreqs2 & Hback & Hxid2 & Hq2 & Hphase2 & Htasks2
        & Hcc2 & Hlog2 & Hvers2 & Htls2 & _); try done.
  { subst c1. simpl. by rewrite Hconn. }
  assert (Hxid2' : _xid c2 = xid_after (_xid c) (1 + Z.of_nat (length before))).
  { rewrite Hxid2. subst c1. simpl. rewrite next_of_xid_after by done.
    apply xid_after_after. }
  assert (Hx2 : xid_in_range (_xid c2))
    by (rewrite Hxid2'; apply xid_after_in_range).
  assert (Hnext : next_of (_xid c2)
                  = xid_after (_xid c) (2 + Z.of_nat (length before))).
  { rewrite next_of_xid_after, Hxid2', xid_after_after by done. f_equal. lia. }
  destruct (call_fails c2 "OFP.LISTEN"
              [("endpoint", endpt); ("versions", versions);
               ("tls_id", _tls_id c2);
               ("options", VList [VStr "FEATURES_REQ"])]
              _ outcome script exc Hframes Hx2 Hreqs2 Hback)
    as (c3 & Hcall & Hce & Hframes3 & Hreqs3 & Hback3 & Hq3 & Hphase3 & _
        & Hcc3 & Hlog3 & _); [by rewrite Hnext|].
  assert (Hq3' : _event_queue c3 = Some q).
  { rewrite Hq3, Hq2. subst c1. simpl. exact Hq. }
  eexists. split.
  - unfold _start, try_except at 1, bind at 1. rewrite Hget.
    unfold bind at 1, ret at 1. unfold bind at 1.
    unfold _listen_on_endpoints.
    destruct (before ++ endpt :: after) as [|e0 rest] eqn:Hlist;
      [by destruct before|]. rewrite <- Hlist. clear Hlist e0 rest.
    unfold bind at 1, gets at 1, try_except at 1.
    fold c1. change (_ofp_versions c1) with versions.
    rewrite for_each_app. unfold bind at 1. rewrite Hloop.
    cbn [for_each]. unfold bind at 1 2, gets at 1.
    rewrite call_then. unfold bind at 1. rewrite Hcall, Hce.
    unfold bind at 1, LOGGER, modify, raise. rewrite Hce.
    unfold bind at 1, _post_event at 1, bind at 1, assert. simpl.
    unfold bind at 1, gets at 1. cbn [_event_queue with_logged].
    rewrite Hq3'. unfold _post_event, bind, assert, modify, gets. simpl.
    reflexivity.
  - simpl. rewrite Hphase3, Hphase2. subst c1. simpl.
    split; [done|]. split; [by rewrite <- app_assoc|].
    split.
    { rewrite Hframes3, <- !app_assoc. simpl.
      rewrite next_of_xid_after by done. do 3 f_equal.
      rewrite imap_app. simpl. f_equal.
      - apply imap_ext. intros i e _. simpl.
        rewrite xid_after_after. do 2 f_equal. lia.
      - rewrite Hnext, Nat.add_0_r, Htls2. reflexivity. }
    split; [by rewrite Hlog3, Hlog2 | by rewrite Hcc3, Hcc2].
Qed.

Lemma start_fails_witness :
  let c := running [Replies (description 1);
                    Replies (VObj [("conn_id", VInt 1)]); Silent] in
  ∃ c', _start ([VInt 6633] ++ VInt 6653 :: [VInt 6654]) [] c = (Ok tt, c') ∧
        _event_queue c'
        = Some [make_event "PRESTART"; make_event "STARTFAIL";
                make_event "EXIT"] ∧
        _conn c'
        = Some [rpc_frame 8093 "OFP.DESCRIPTION" [];
                listen_frame 8094 (VInt 6633) (VList [VInt 1; VInt 4]) (VInt 0);
                listen_frame 8095 (VInt 6653) (VList [VInt 1; VInt 4]) (VInt 0)].
Proof.
  intros c.
  destruct (start_fails_when_a_listen_fails c [] [make_event "PRESTART"]
              (description 1) (VList [VInt 1; VInt 4])
              [VInt 6633] [VInt 6654] [VObj [("conn_id", VInt 1)]]
              (VInt 6653) Silent (TimeoutException 8095) [])
    as (c' & Hrun & _ & Hq & Hframes & _).
  - reflexivity.
  - reflexivity.
  - reflexivity.
  - reflexivity.
  - by vm_compute.
  - reflexivity.
  - split; [exists 1; split; [reflexivity | by vm_compute]|].
    split; [reflexivity|]. split; [by eexists | reflexivity].
  - reflexivity.
  - repeat constructor; by eexists.
  - reflexivity.
  - exists c'. split; [exact Hrun|]. split; [exact Hq|].
    rewrite Hframes. reflexivity.
Defined.




End PylibofpMoreFacts.

(** ** [zof]: the datapath table, handler lookup, start-up *)

Module ZofMoreFacts.
Import Py Json Zof ZofProps ZofAccessors ZofMoreProps ListFacts ZofFacts.
Local Open Scope py_scope.

(** *** Registering and removing a datapath *)

Lemma channel_up_spec (c : Controller) (event : Event) (conn : Value)
    (key : Key) (s : string) (dp_id : Z) :
  assoc event "conn_id" = Some conn →
  hashable conn = Some key →
  assoc event "datapath_id" = Some (VStr s) →
  int16 (remove_colons s) = Some dp_id →
  PyDict.get (_connections c) key = None →
  _dpids c !! dp_id = None →
  zof_channel_up event c
  = (Ok (length (datapaths c)),
     with_dpids (<[dp_id := length (datapaths c)]> (_dpids c))
       (with_connections
          (PyDict.setitem (_connections c) key (length (datapaths c)))
          (with_datapaths
             (datapaths c ++ [mkDatapath conn dp_id false [] (Some event) []])
             c))).
Proof.
  intros Hconn Hkey Hdpid Hparse Hfresh Hnew.
  unfold zof_channel_up, bind, item, key_of, gets.
  rewrite Hconn. simpl. rewrite Hdpid. simpl. rewrite Hparse. simpl.
  rewrite Hkey. simpl. unfold PyDict.contains. rewrite Hfresh. simpl.
  rewrite bool_decide_eq_true_2 by done. simpl.
  unfold zof_from_channel_up, bind, load, store, modify. simpl.
  rewrite lookup_app_r by done. rewrite Nat.sub_diag. simpl.
  rewrite insert_app_r_alt by done. rewrite Nat.sub_diag. reflexivity.
Qed.

(** X15: a CHANNEL_UP for a connection id and a datapath id that are
    both new makes a datapath object that is not closed, has no task and
    keeps the event, and puts it in both indexes: [find_datapath] finds
    it under the datapath id parsed from the colon-hex string,
    [get_datapaths] has it after the datapaths that were connected
    before, and the other entries of the two indexes are unchanged. *)
Theorem channel_up_registers_the_datapath (c : Controller) (event : Event)
    (conn : Value) (key : Key) (s : string) (dp_id : Z) :
  assoc event "conn_id" = Some conn →
  hashable conn = Some key →
  assoc event "datapath_id" = Some (VStr s) →
  int16 (remove_colons s) = Some dp_id →
  PyDict.get (_connections c) key = None →
  _dpids c !! dp_id = None →
  let dp := length (datapaths c) in
  ∃ c', zof_channel_up event c = (Ok dp, c') ∧
    find_datapath dp_id c' = (Ok (Some dp), c') ∧
    get_datapaths c' = (Ok (PyDict.values (_connections c) ++ [dp]), c') ∧
    datapaths c' !! dp = Some (mkDatapath conn dp_id false [] (Some event) []) ∧
    (∀ a o, datapaths c !! a = Some o → datapaths c' !! a = Some o) ∧
    (∀ other, other ≠ dp_id →
       find_datapath other c' = (Ok (_dpids c !! other), c')) ∧
    trace c' = trace c.
Proof.
  intros Hconn Hkey Hdpid Hparse Hfresh Hnew dp.
  eexists. split; [by eapply channel_up_spec|].
  unfold find_datapath, get_datapaths, bind, gets, ret. simpl.
  split; [by rewrite lookup_insert_eq|].
  split; [by rewrite PyDictFacts.values_setitem_fresh|].
  split; [by apply list_lookup_middle|].
  split; [intros a o Hload; by apply lookup_app_l_Some|].
  split; [|done].
  intros other Hne. by rewrite lookup_insert_ne.
Qed.

Lemma channel_up_witness :
  let c := with_tasks (Some []) (init [down_app] no_config) in
  ∃ c', zof_channel_up up_event c = (Ok 0%nat, c') ∧
        find_datapath 1 c' = (Ok (Some 0%nat), c').
Proof.
  intros c.
  destruct (channel_up_registers_the_datapath c up_event (VInt 2) (KInt 2)
              "00:00:00:00:00:00:00:01" 1
              eq_refl eq_refl eq_refl eq_refl eq_refl eq_refl)
    as (c' & Hrun & Hfind & _).
  by exists c'.
Defined.

(** X16: a CHANNEL_UP followed by the CHANNEL_DOWN of the same
    connection gives both indexes back as they were: the datapath is no
    longer found under its id, and the object, now closed, is what the
    channel-down handlers are given. *)
Theorem channel_up_then_down_restores_the_indexes (c : Controller)
    (up down : Event) (conn : Value) (key : Key) (s : string) (dp_id : Z) :
  assoc up "conn_id" = Some conn →
  assoc down "conn_id" = Some conn →
  hashable conn = Some key →
  assoc up "datapath_id" = Some (VStr s) →
  int16 (remove_colons s) = Some dp_id →
  PyDict.get (_connections c) key = None →
  _dpids c !! dp_id = None →
  let dp := length (datapaths c) in
  ∃ c', (let! _ := zof_channel_up up in zof_channel_down down) c
        = (Ok (Some dp), c') ∧
    _connections c' = _connections c ∧
    _dpids c' = _dpids c ∧
    datapaths c' !! dp = Some (mkDatapath conn dp_id true [] (Some up) []) ∧
    find_datapath dp_id c' = (Ok None, c') ∧
    get_datapaths c' = (Ok (PyDict.values (_connections c)), c') ∧
    trace c' = trace c.
Proof.
  intros Hup Hdown Hkey Hdpid Hparse Hfresh Hnew dp.
  unfold bind at 1. rewrite (channel_up_spec c up conn key s dp_id) by done.
  fold dp.
  unfold zof_channel_down, bind, item, key_of, gets, PyDict.pop.
  rewrite Hdown. simpl. rewrite Hkey. simpl.
  rewrite PyDictFacts.get_setitem_eq. simpl.
  unfold load. simpl. unfold dp at 1. rewrite list_lookup_middle by done. simpl.
  rewrite lookup_insert_eq. simpl.
  unfold zof_cancel_tasks, set_closed, bind, load, store, modify. simpl.
  unfold dp at 1. rewrite list_lookup_middle by done. simpl.
  unfold ret. unfold dp at 1. rewrite list_lookup_middle by done. simpl.
  eexists. split; [reflexivity|]. simpl.
  rewrite PyDictMoreFacts.delitem_setitem_fresh by done.
  rewrite delete_insert_id by done.
  split; [done|]. split; [done|].
  split.
  { unfold dp. rewrite insert_app_r_alt by done. rewrite Nat.sub_diag.
    by apply list_lookup_middle. }
  split.
  { unfold find_datapath, bind, gets, ret. simpl. by rewrite Hnew. }
  done.
Qed.

Lemma channel_up_then_down_witness :
  let c := with_tasks (Some []) (init [down_app] no_config) in
  ∃ c', (let! _ := zof_channel_up up_event in zof_channel_down down_event) c
        = (Ok (Some 0%nat), c') ∧
        _connections c' = [] ∧ _dpids c' = ∅.
Proof.
  intros c.
  destruct (channel_up_then_down_restores_the_indexes c up_event down_event
              (VInt 2) (KInt 2) "00:00:00:00:00:00:00:01" 1
              eq_refl eq_refl eq_refl eq_refl eq_refl eq_refl eq_refl)
    as (c' & Hrun & Hconns & Hdpids & _).
  by exists c'.
Defined.

(** *** The turns of the event loop *)

Lemma channel_up_raise_unchanged (event : Event) (c c' : Controller)
    (e : Exception) :
  zof_channel_up event c = (Raise e, c') → c' = c.
Proof.
  unfold zof_channel_up, bind, item, key_of, gets.
  destruct (assoc event "conn_id") as [conn|]; [|by intros [= _ <-]]. simpl.
  destruct (assoc event "datapath_id") as [dpid_str|]; [|by intros [= _ <-]].
  simpl.
  destruct dpid_str as [| | |s| |]; try (by intros [= _ <-]).
  destruct (int16 (remove_colons s)) as [n|]; [|by intros [= _ <-]]. simpl.
  destruct (hashable conn) as [key|]; [|by intros [= _ <-]]. simpl.
  destruct (PyDict.contains (_connections c) key); [by intros [= _ <-]|]. simpl.
  destruct (bool_decide (_dpids c !! n = None)); [|by intros [= _ <-]]. simpl.
  unfold zof_from_channel_up, bind, load, store, modify. simpl.
  rewrite lookup_app_r by done. rewrite Nat.sub_diag. simpl. discriminate.
Qed.

Section Turns.
Context `{Collaborators}.

Lemma turn_raise (event : Event) (rest : list Event) (c c' : Controller)
    (e : Exception) :
  zof_event_loop_turn event c = (Raise e, c') →
  zof_event_loop (event :: rest) c
  = zof_event_loop rest
      (add_trace [Logged CRITICAL "Exception in zof_event_loop: %r" (Some e)] c').
Proof.
  intros Hturn. simpl. unfold bind at 1, try_except. rewrite Hturn.
  reflexivity.
Qed.

Lemma turn_ok (event : Event) (rest : list Event) (c c' : Controller) :
  zof_event_loop_turn event c = (Ok tt, c') →
  zof_event_loop (event :: rest) c = zof_event_loop rest c'.
Proof.
  intros Hturn. simpl. unfold bind at 1, try_except. by rewrite Hturn.
Qed.

Lemma turn_channel_up_raise (event : Event) (c : Controller) (e : Exception) :
  assoc event "type" = Some (VStr "CHANNEL_UP") →
  zof_channel_up event c = (Raise e, c) →
  zof_event_loop_turn event c = (Raise e, c).
Proof.
  intros Htype Hup. unfold zof_event_loop_turn, bind at 1, item.
  rewrite Htype. simpl. unfold bind at 1 2. by rewrite Hup.
Qed.

(** X17: a CHANNEL_UP that cannot be registered registers nothing.
    Whatever [zof_channel_up] raises, it raises before it has changed the
    controller; the event loop logs the exception, calls no handler and
    goes on with the next event.  A CHANNEL_UP whose connection id or
    whose datapath id is already in its index is such an event: the
    assertion fails. *)
Theorem rejected_channel_up_registers_nothing (c : Controller)
    (event : Event) (rest : list Event) :
  assoc event "type" = Some (VStr "CHANNEL_UP") →
  (∀ e c', zof_channel_up event c = (Raise e, c') →
     c' = c ∧
     zof_event_loop (event :: rest) c
     = zof_event_loop rest
         (add_trace [Logged CRITICAL "Exception in zof_event_loop: %r" (Some e)]
            c)) ∧
  (∀ conn key s dp_id,
     assoc event "conn_id" = Some conn →
     hashable conn = Some key →
     assoc event "datapath_id" = Some (VStr s) →
     int16 (remove_colons s) = Some dp_id →
     is_Some (PyDict.get (_connections c) key) ∨ is_Some (_dpids c !! dp_id) →
     zof_channel_up event c = (Raise AssertionError, c)).
Proof.
  intros Htype. split.
  - intros e c' Hup. pose proof (channel_up_raise_unchanged _ _ _ _ Hup) as ->.
    split; [done|]. apply turn_raise. by apply turn_channel_up_raise.
  - intros conn key s dp_id Hconn Hkey Hdpid Hparse Hdup.
    unfold zof_channel_up, bind, item, key_of, gets.
    rewrite Hconn. simpl. rewrite Hdpid. simpl. rewrite Hparse. simpl.
    rewrite Hkey. simpl. unfold PyDict.contains.
    destruct (PyDict.get (_connections c) key) as [a|] eqn:Hget; [done|].
    simpl. destruct Hdup as [[a Ha] | [a Ha]]; [done|].
    rewrite bool_decide_eq_false_2; [done|]. by rewrite Ha.
Qed.

(** X18: an event that is not a channel notification and comes from a
    connection the table does not know is not dropped: a warning is
    logged and the handlers are called with no datapath ([dp] is
    [None]); a PACKET_IN goes through the packet hook first.  The
    handlers of the event are found (none of them is a coroutine
    function) and the exception handler in charge, if there is one, is a
    plain function that returns. *)
Theorem event_of_unknown_connection_is_dispatched_without_datapath
    (c : Controller) (event event' : Event) (t : string) (conn : Value)
    (key : Key) (hs : list Handler) :
  assoc event "type" = Some (VStr t) →
  plain_type t →
  assoc event "conn_id" = Some conn →
  conn ≠ VNone →
  hashable conn = Some key →
  PyDict.get (_connections c) key = None →
  (if String.eqb t "PACKET_IN" then Packet_zof_from_packet_in event
   else inr event) = inr event' →
  found_handlers c ("on_" +:+ lower t) = Some hs →
  quiet_on_exception (apps c) →
  ∃ c', zof_event_loop_turn event c = (Ok tt, c') ∧
    trace c'
    = trace c ++ [Logged WARNING "Unknown conn_id %r" None]
      ++ dispatch_effects (apps c) None event' hs ++ [Yielded] ∧
    _connections c' = _connections c ∧
    _dpids c' = _dpids c ∧
    datapaths c' = datapaths c.
Proof.
  intros Htype [Hup Hdown] Hconn Hnone Hkey Hget Hhook Hfound Hquiet.
  unfold zof_event_loop_turn, bind at 1, item. rewrite Htype. simpl.
  rewrite (proj2 (String.eqb_neq _ _) Hup), (proj2 (String.eqb_neq _ _) Hdown).
  assert (Hfind : zof_find_dp event c
                  = (Ok None, add_trace [Logged WARNING "Unknown conn_id %r" None] c)).
  { unfold zof_find_dp. rewrite Hconn.
    destruct conn; try done; unfold bind, key_of, gets; rewrite Hkey; simpl;
      by rewrite Hget. }
  unfold bind at 1 2. rewrite Hfind. unfold bind at 1, ret at 1.
  set (c1 := add_trace [Logged WARNING "Unknown conn_id %r" None] c).
  assert (Hdispatch : zof_dispatch_event (VStr t) None event' c1
    = (Ok tt,
       add_trace (dispatch_effects (apps c) None event' hs)
         (with_handler_cache (<["on_" +:+ lower t := hs]> (_handler_cache c1))
            c1))) by exact (dispatch_spec t None event' c1 hs Hfound Hquiet).
  destruct (String.eqb t "PACKET_IN").
  - rewrite Hhook. unfold of_sum, bind, ret. rewrite Hdispatch.
    eexists. split; [reflexivity|]. simpl. by rewrite <- !app_assoc.
  - injection Hhook as <-. unfold bind, ret. rewrite Hdispatch.
    eexists. split; [reflexivity|]. simpl. by rewrite <- !app_assoc.
Qed.

(** X19: once a datapath is closed, an event of its connection that is
    not a channel notification is dropped: the turn ends with the
    controller as it was.  No handler is called, the packet hook and the
    port-status hook are not run, and the loop does not yield. *)
Theorem event_of_closed_datapath_is_dropped (c : Controller) (event : Event)
    (rest : list Event) (t : string) (conn : Value) (key : Key) (dp : nat)
    (o : Datapath) :
  assoc event "type" = Some (VStr t) →
  plain_type t →
  assoc event "conn_id" = Some conn →
  conn ≠ VNone →
  hashable conn = Some key →
  PyDict.get (_connections c) key = Some dp →
  datapaths c !! dp = Some o →
  closed o = true →
  zof_event_loop_turn event c = (Ok tt, c) ∧
  zof_event_loop (event :: rest) c = zof_event_loop rest c.
Proof.
  intros Htype [Hup Hdown] Hconn Hnone Hkey Hget Hload Hclosed.
  assert (Hturn : zof_event_loop_turn event c = (Ok tt, c)).
  { unfold zof_event_loop_turn, bind at 1, item. rewrite Htype. simpl.
    rewrite (proj2 (String.eqb_neq _ _) Hup), (proj2 (String.eqb_neq _ _) Hdown).
    assert (Hfind : zof_find_dp event c = (Ok (Some dp), c)).
    { unfold zof_find_dp. rewrite Hconn.
      destruct conn; try done; unfold bind, key_of, gets; rewrite Hkey; simpl;
        by rewrite Hget. }
    unfold bind at 1 2. rewrite Hfind. unfold bind at 1 2, load.
    rewrite Hload. unfold ret at 1. rewrite Hclosed. reflexivity. }
  split; [exact Hturn|]. by apply turn_ok.
Qed.


End Turns.

Lemma rejected_channel_up_witness :
  let c := connected in
  ∃ c', zof_event_loop (H := plain_collaborators) [up_event] c = (Ok tt, c') ∧
        _connections c' = _connections c ∧
        trace c'
        = trace c
          ++ [Logged CRITICAL "Exception in zof_event_loop: %r"
                (Some AssertionError);
              Logged DEBUG "Event loop cancelled" None].
Proof.
  intros c.
  destruct (rejected_channel_up_registers_nothing (H := plain_collaborators)
              c up_event [] eq_refl) as [Hany Hdup].
  pose proof (Hdup (VInt 2) (KInt 2) "00:00:00:00:00:00:00:01" 1
                eq_refl eq_refl eq_refl eq_refl
                (or_introl (ex_intro _ 0%nat eq_refl))) as Hup.
  destruct (Hany _ _ Hup) as [_ Hloop].
  eexists. split; [exact Hloop|]. split; reflexivity.
Defined.

Lemma unknown_connection_witness :
  let event := [("type", VStr "PORT_STATUS"); ("conn_id", VInt 7)] in
  let c := init [down_app] no_config in
  ∃ c', zof_event_loop_turn (H := plain_collaborators) event c = (Ok tt, c') ∧
        trace c' = [Logged WARNING "Unknown conn_id %r" None; Yielded].
Proof.
  intros event c.
  assert (Hfound : found_handlers c ("on_" +:+ lower "PORT_STATUS") = Some [])
    by (vm_compute; reflexivity).
  assert (Hplain : plain_type "PORT_STATUS") by (split; discriminate).
  assert (Hconn : VInt 7 ≠ VNone) by discriminate.
  destruct (event_of_unknown_connection_is_dispatched_without_datapath
              (H := plain_collaborators) c event event "PORT_STATUS"
              (VInt 7) (KInt 7) [] eq_refl Hplain eq_refl Hconn eq_refl
              eq_refl eq_refl Hfound I)
    as (c' & Hturn & Htrace & _).
  exists c'. split; [exact Hturn|]. rewrite Htrace. vm_compute. reflexivity.
Defined.

Lemma closed_datapath_witness :
  let event := [("type", VStr "PACKET_IN"); ("conn_id", VInt 2)] in
  zof_event_loop_turn (H := plain_collaborators) event force_closed
  = (Ok tt, force_closed).
Proof.
  intros event.
  assert (Hplain : plain_type "PACKET_IN") by (split; discriminate).
  assert (Hconn : VInt 2 ≠ VNone) by discriminate.
  exact (proj1 (event_of_closed_datapath_is_dropped (H := plain_collaborators)
                  force_closed event [] "PACKET_IN" (VInt 2) (KInt 2) 0
                  (mkDatapath (VInt 2) 1 true [9%nat] (Some up_event) [])
                  eq_refl Hplain eq_refl Hconn eq_refl eq_refl eq_refl eq_refl)).
Defined.


(** *** Handler lookup *)

Lemma handlers_of_coroutine (name : string) (apps : list App) :
  ∀ (i k : nat) (app : App) (m : Method),
  apps !! k = Some app →
  getattr app name = Some m →
  is_coroutine m = true →
  handlers_of i apps name = None.
Proof.
  induction apps as [|app0 apps IH]; intros i k app m Hlook Hattr Hco;
    [done|].
  simpl. destruct k as [|k]; simpl in Hlook.
  - injection Hlook as ->. by rewrite Hattr, Hco.
  - rewrite (IH (S i) k app m) by done.
    destruct (getattr app0 name) as [m0|]; [|done].
    by destruct (is_coroutine m0).
Qed.

Lemma handlers_of_plain (name : string) (apps : list App) :
  ∀ (i : nat),
  (∀ app m, app ∈ apps → getattr app name = Some m → is_coroutine m = false) →
  is_Some (handlers_of i apps name).
Proof.
  induction apps as [|app0 apps IH]; intros i Hplain; simpl; [done|].
  destruct (IH (S i)) as [hs Hhs].
  { intros app m Hin. apply Hplain. by apply elem_of_cons; right. }
  rewrite Hhs. destruct (getattr app0 name) as [m0|] eqn:Hattr; [|done].
  rewrite (Hplain app0 m0) by (done || apply list_elem_of_here). done.
Qed.

Lemma handlers_of_none (name : string) (apps : list App) :
  ∀ (i : nat),
  (∀ app, app ∈ apps → getattr app name = None) →
  handlers_of i apps name = Some [].
Proof.
  induction apps as [|app0 apps IH]; intros i Hnone; simpl; [done|].
  rewrite (Hnone app0) by apply list_elem_of_here.
  apply IH. intros app Hin. apply Hnone. by apply elem_of_cons; right.
Qed.

Lemma routed_is_no_event_call (apps : list App) (exc : Exception) :
  is_event_call (routed apps exc) = false.
Proof.
  unfold routed. by destruct (first_defining 0 apps "on_exception") as [[i h]|].
Qed.

Lemma event_calls_of_handlers (routing : list App) (dp : option nat)
    (event : Event) (name : string) (apps : list App) :
  ∀ (i : nat) (hs : list Handler),
  handlers_of i apps name = Some hs →
  List.filter is_event_call (dispatch_effects routing dp event hs)
  = (λ j, Called j name (EventArgs dp event)) <$> defining i apps name.
Proof.
  induction apps as [|app0 apps IH]; intros i hs; simpl.
  - by intros [= <-].
  - destruct (getattr app0 name) as [m0|]; [|apply IH].
    destruct (is_coroutine m0); [done|].
    destruct (handlers_of (S i) apps name) as [hs'|] eqn:Hhs'; [|done].
    intros [= <-].
    change (dispatch_effects routing dp event (AppHandler i name m0 :: hs'))
      with (handler_effects routing dp event (AppHandler i name m0)
            ++ dispatch_effects routing dp event hs').
    rewrite List.filter_app, (IH (S i) hs') by done.
    unfold handler_effects.
    destruct (behaviour m0 (EventArgs dp event)) as [exc|]; simpl; [|done].
    by rewrite routed_is_no_event_call.
Qed.

Lemma defining_nil_handlers (name : string) (apps : list App) :
  ∀ (i : nat), handlers_of i apps name = Some [] → defining i apps name = [].
Proof.
  induction apps as [|app0 apps IH]; intros i; simpl; [done|].
  destruct (getattr app0 name) as [m0|]; [|apply IH].
  destruct (is_coroutine m0); [done|].
  by destruct (handlers_of (S i) apps name).
Qed.

Lemma alert_name (s : string) :
  String.eqb ("on_" +:+ s) "on_channel_alert" = String.eqb s "channel_alert".
Proof. reflexivity. Qed.

(** X21: the answer of [zof_find_handlers] for an event type is kept:
    in every later state that has the cache entry, the lookup for that
    type, in whatever case its letters are, gives the same handlers and
    changes nothing.  The first lookup changes the cache only. *)
Theorem handler_lookup_is_cached (c c' : Controller) (t : string)
    (hs : list Handler) :
  zof_find_handlers (VStr t) c = (Ok hs, c') →
  c' = with_handler_cache (<["on_" +:+ lower t := hs]> (_handler_cache c)) c ∧
  zof_find_handlers (VStr t) c' = (Ok hs, c') ∧
  ∀ t' c2, lower t' = lower t →
    _handler_cache c2 !! ("on_" +:+ lower t) = Some hs →
    zof_find_handlers (VStr t') c2 = (Ok hs, c2).
Proof.
  intros Hfind. rewrite find_handlers_spec in Hfind.
  destruct (found_handlers c ("on_" +:+ lower t)) as [hs'|]; [|done].
  injection Hfind as -> <-.
  assert (Hlater : ∀ t' c2, lower t' = lower t →
            _handler_cache c2 !! ("on_" +:+ lower t) = Some hs →
            zof_find_handlers (VStr t') c2 = (Ok hs, c2)).
  { intros t' c2 Hcase Hcached. rewrite find_handlers_spec, Hcase.
    unfold found_handlers. rewrite Hcached.
    rewrite insert_id by done. by rewrite with_handler_cache_id. }
  split; [done|]. split; [|exact Hlater].
  apply Hlater; [done|]. simpl. apply lookup_insert_eq.
Qed.

Lemma handler_lookup_witness :
  let c := init [down_app] no_config in
  let hs := [AppHandler 0 "on_channel_down" (mkMethod false (λ _, None))] in
  ∃ c', zof_find_handlers (VStr "CHANNEL_DOWN") c = (Ok hs, c') ∧
        zof_find_handlers (VStr "Channel_Down") c' = (Ok hs, c').
Proof.
  intros c hs.
  assert (Hfind : zof_find_handlers (VStr "CHANNEL_DOWN") c
                  = (Ok hs,
                     with_handler_cache (<["on_channel_down" := hs]> ∅) c))
    by (vm_compute; reflexivity).
  destruct (handler_lookup_is_cached _ _ _ _ Hfind) as (_ & _ & Hlater).
  eexists. split; [exact Hfind|].
  apply Hlater; [reflexivity | vm_compute; reflexivity].
Defined.

(** X22: a coroutine function among the handlers of an event type makes
    the lookup fail with [AssertionError] when the type is looked up for
    the first time.  Nothing is cached, and the dispatch calls no
    handler at all, not even those of the apps that come before the
    offending one. *)
Theorem coroutine_handler_is_refused (c : Controller) (t : string)
    (dp : option nat) (event : Event) (i : nat) (app : App) (m : Method) :
  _handler_cache c !! ("on_" +:+ lower t) = None →
  apps c !! i = Some app →
  getattr app ("on_" +:+ lower t) = Some m →
  is_coroutine m = true →
  zof_find_handlers (VStr t) c = (Raise AssertionError, c) ∧
  zof_dispatch_event (VStr t) dp event c = (Raise AssertionError, c).
Proof.
  intros Hcache Hlook Hattr Hco.
  assert (Hfind : zof_find_handlers (VStr t) c = (Raise AssertionError, c)).
  { rewrite find_handlers_spec. unfold found_handlers. rewrite Hcache.
    by rewrite (handlers_of_coroutine _ _ 0 i app m). }
  split; [exact Hfind|].
  unfold zof_dispatch_event, bind. by rewrite Hfind.
Qed.

Lemma coroutine_handler_witness :
  let plain := mkMethod false (λ _, None) in
  let coro := mkMethod true (λ _, None) in
  let c := init [[("on_packet_in", plain)]; [("on_packet_in", coro)]] no_config in
  zof_dispatch_event (VStr "PACKET_IN") None [] c = (Raise AssertionError, c).
Proof.
  intros plain coro c.
  exact (proj2 (coroutine_handler_is_refused c "PACKET_IN" None [] 1
                  [("on_packet_in", coro)] coro eq_refl eq_refl eq_refl eq_refl)).
Defined.

(** X23: an event of a type that no app handles is dropped without a
    trace, except a CHANNEL_ALERT: for that type the controller's own
    handler stands in and logs a warning. *)
Theorem unhandled_event_is_dropped_or_logged (c : Controller) (t : string)
    (dp : option nat) (event : Event) :
  _handler_cache c !! ("on_" +:+ lower t) = None →
  (∀ app, app ∈ apps c → getattr app ("on_" +:+ lower t) = None) →
  ∃ c', zof_dispatch_event (VStr t) dp event c = (Ok tt, c') ∧
    trace c'
    = trace c ++ (if String.eqb (lower t) "channel_alert"
                  then [Logged WARNING "CHANNEL_ALERT %r %r" None] else []).
Proof.
  intros Hcache Hnone. unfold zof_dispatch_event, bind.
  rewrite find_handlers_spec. unfold found_handlers. rewrite Hcache.
  rewrite handlers_of_none by done. cbn [fmap option_fmap option_map].
  rewrite alert_name.
  destruct (String.eqb (lower t) "channel_alert").
  - eexists. split; [reflexivity|]. reflexivity.
  - eexists. split; [reflexivity|]. simpl. by rewrite app_nil_r.
Qed.

Lemma unhandled_event_witness :
  let c := init [down_app] no_config in
  (∃ c', zof_dispatch_event (VStr "CHANNEL_ALERT") None [] c = (Ok tt, c') ∧
         trace c' = [Logged WARNING "CHANNEL_ALERT %r %r" None]) ∧
  (∃ c', zof_dispatch_event (VStr "FLOW_REMOVED") None [] c = (Ok tt, c') ∧
         trace c' = []).
Proof.
  intros c.
  assert (Halert : ∀ app, app ∈ apps c →
            getattr app ("on_" +:+ lower "CHANNEL_ALERT") = None).
  { intros app Hin. by apply list_elem_of_singleton in Hin as ->. }
  assert (Hflow : ∀ app, app ∈ apps c →
            getattr app ("on_" +:+ lower "FLOW_REMOVED") = None).
  { intros app Hin. by apply list_elem_of_singleton in Hin as ->. }
  split.
  - destruct (unhandled_event_is_dropped_or_logged c "CHANNEL_ALERT" None []
                eq_refl Halert) as (c' & Hrun & Htrace).
    by exists c'.
  - destruct (unhandled_event_is_dropped_or_logged c "FLOW_REMOVED" None []
                eq_refl Hflow) as (c' & Hrun & Htrace).
    by exists c'.
Defined.

(** X24: when an event type is dispatched for the first time and none
    of the apps' handlers for it is a coroutine function, every app
    that has a handler gets the event exactly once, in the order of the
    apps; a handler that raises does not keep the later ones from being
    called. *)
Theorem handlers_are_called_once_in_app_order (c : Controller) (t : string)
    (dp : option nat) (event : Event) :
  _handler_cache c !! ("on_" +:+ lower t) = None →
  (∀ app m, app ∈ apps c → getattr app ("on_" +:+ lower t) = Some m →
     is_coroutine m = false) →
  quiet_on_exception (apps c) →
  ∃ c', zof_dispatch_event (VStr t) dp event c = (Ok tt, c') ∧
    List.filter is_event_call (trace c')
    = List.filter is_event_call (trace c)
      ++ ((λ j, Called j ("on_" +:+ lower t) (EventArgs dp event))
            <$> defining 0 (apps c) ("on_" +:+ lower t)).
Proof.
  intros Hcache Hplain Hquiet.
  destruct (handlers_of_plain ("on_" +:+ lower t) (apps c) 0 Hplain)
    as [found Hfound].
  set (hs := if String.eqb ("on_" +:+ lower t) "on_channel_alert"
                && match found with [] => true | _ => false end
             then found ++ [default_on_channel_alert] else found).
  assert (Hhs : found_handlers c ("on_" +:+ lower t) = Some hs).
  { unfold found_handlers. rewrite Hcache, Hfound. reflexivity. }
  eexists. split; [by apply dispatch_spec|].
  simpl. rewrite List.filter_app. f_equal.
  rewrite <- (event_calls_of_handlers (apps c) dp event _ _ 0 found Hfound).
  subst hs.
  destruct (String.eqb ("on_" +:+ lower t) "on_channel_alert"); [|done].
  destruct found; done.
Qed.

Lemma handlers_in_app_order_witness :
  let failing := mkMethod false (λ _, Some (UserError "FAIL")) in
  let plain := mkMethod false (λ _, None) in
  let c := init [[("on_packet_in", failing)]; [("on_start", plain)];
                 [("on_packet_in", plain)]] no_config in
  ∃ c', zof_dispatch_event (VStr "PACKET_IN") None [] c = (Ok tt, c') ∧
        List.filter is_event_call (trace c')
        = [Called 0 "on_packet_in" (EventArgs None []);
           Called 2 "on_packet_in" (EventArgs None [])].
Proof.
  intros failing plain c.
  destruct (handlers_are_called_once_in_app_order c "PACKET_IN" None [])
    as (c' & Hrun & Hcalls).
  - reflexivity.
  - intros app m Hin Hattr. simpl in Hin.
    repeat (apply elem_of_cons in Hin as [-> | Hin];
            [simpl in Hattr; by (discriminate || injection Hattr as <-)|]).
    by apply elem_of_nil in Hin.
  - exact I.
  - exists c'. split; [exact Hrun|]. rewrite Hcalls. reflexivity.
Defined.

(** *** The lifecycle notifications *)

Lemma lifecycle_returns (name : string) (apps : list App) :
  ∀ (k : nat) (c : Controller),
  (∀ a m, a ∈ apps → getattr a name = Some m → behaviour m NoArgs = None) →
  for_each (imap (λ i app, ((k + i)%nat, app)) apps) (λ '(i, app),
    match getattr app name with
    | Some handler => call i name handler NoArgs
    | None => ret tt
    end) c
  = (Ok tt, add_trace ((λ j, Called j name NoArgs) <$> defining k apps name) c).
Proof.
  induction apps as [|app apps IH]; intros k c Hret.
  - simpl. by rewrite add_trace_nil.
  - rewrite imap_cons. cbn [for_each]. unfold bind at 1.
    rewrite Nat.add_0_r.
    rewrite (imap_ext _ (λ i app, ((S k + i)%nat, app)))
      by (intros i x _; simpl; f_equal; lia).
    assert (Hrest : ∀ a m, a ∈ apps → getattr a name = Some m →
              behaviour m NoArgs = None).
    { intros a m Hin. apply Hret. by apply elem_of_cons; right. }
    simpl defining.
    destruct (getattr app name) as [m|] eqn:Hattr.
    + rewrite call_spec, (Hret app m) by (done || apply list_elem_of_here).
      rewrite IH by done. by rewrite add_trace_add_trace.
    + unfold ret at 1. by rewrite IH.
Qed.

Lemma lifecycle_raises (name : string) (before after : list App) (app : App)
    (m : Method) (e : Exception) :
  ∀ (k : nat) (c : Controller),
  (∀ a h, a ∈ before → getattr a name = Some h → behaviour h NoArgs = None) →
  getattr app name = Some m →
  behaviour m NoArgs = Some e →
  for_each (imap (λ i app, ((k + i)%nat, app)) (before ++ app :: after))
    (λ '(i, app),
       match getattr app name with
       | Some handler => call i name handler NoArgs
       | None => ret tt
       end) c
  = (Raise e,
     add_trace (((λ j, Called j name NoArgs) <$> defining k before name)
                ++ [Called (k + length before)%nat name NoArgs]) c).
Proof.
  induction before as [|app0 before IH]; intros k c Hret Hattr Hraises.
  - simpl. unfold bind at 1. rewrite Hattr, call_spec, Hraises.
    by rewrite Nat.add_0_r.
  - change ((app0 :: before) ++ app :: after)
      with (app0 :: (before ++ app :: after)).
    rewrite imap_cons. cbn [for_each]. unfold bind at 1.
    rewrite Nat.add_0_r.
    rewrite (imap_ext _ (λ i app, ((S k + i)%nat, app)))
      by (intros i x _; simpl; f_equal; lia).
    assert (Hrest : ∀ a h, a ∈ before → getattr a name = Some h →
              behaviour h NoArgs = None).
    { intros a h Hin. apply Hret. by apply elem_of_cons; right. }
    simpl defining. cbn [length].
    replace (k + S (length before))%nat with (S k + length before)%nat by lia.
    destruct (getattr app0 name) as [m0|] eqn:Hattr0.
    + rewrite call_spec, (Hret app0 m0) by (done || apply list_elem_of_here).
      rewrite IH by done. by rewrite add_trace_add_trace.
    + unfold ret at 1. by rewrite IH.
Qed.

(** *** [run] *)

Lemma filter_is_call_calls (name : string) (args : Args) (js : list nat) :
  List.filter is_call ((λ j, Called j name args) <$> js)
  = (λ j, Called j name args) <$> js.
Proof.
  induction js as [|j js IH]; [done|].
  rewrite fmap_cons. cbn [List.filter is_call]. by rewrite IH.
Qed.


























Section RunReturns.
Context `{Collaborators}.






(** What [run] makes of the outcome of its [try] block. *)
Lemma run_entered (queue : list Event) (c : Controller) :
  Driver_aenter = None →
  run queue c
  = run_ends ((zof_invoke_lifecycle "START" ;;; zof_listen ;;;
               zof_event_loop queue ;;; zof_cleanup ;;;
               zof_invoke_lifecycle "STOP") (with_tasks (Some []) c)).
Proof.
  intros Henter.
  unfold run, run_ends, run_leaves, raised, try_except, bind, modify, emit,
    ret, raise.
  rewrite Henter.
  destruct (zof_invoke_lifecycle "START" (with_tasks (Some []) c))
    as [[[]|e|f] c1]; [|by destruct Driver_aexit|reflexivity].
  destruct (zof_listen c1) as [[[]|e|f] c2];
    [|by destruct Driver_aexit|reflexivity].
  destruct (zof_event_loop queue c2) as [[[]|e|f] c3];
    [|by destruct Driver_aexit|reflexivity].
  destruct (zof_cleanup c3) as [[[]|e|f] c4];
    [|by destruct Driver_aexit|reflexivity].
  destruct (zof_invoke_lifecycle "STOP" c4) as [[[]|e|f] c5];
    [by destruct Driver_aexit..|reflexivity].
Qed.


(** X26: the start notification goes to the apps in their order, and
    the first [on_start] that raises ends the [try] block of [run]: the
    apps after it are not started, no event is dispatched (the loop never
    yields and the indexes stay as they were), and the apps that were
    started get no stop notification; the exception is logged.  Then the
    driver's context is left: if that raises, [run] raises the exception
    with the task list still set; if not, [run] drops the task list and
    returns the exit status 10. *)
Theorem failing_on_start_aborts_run (queue : list Event) (c : Controller)
    (before after : list App) (app : App) (m : Method) (e : Exception) :
  Driver_aenter = None →
  apps c = before ++ app :: after →
  (∀ a h, a ∈ before → getattr a "on_start" = Some h →
     behaviour h NoArgs = None) →
  getattr app "on_start" = Some m →
  behaviour m NoArgs = Some e →
  ∃ c1,
    match Driver_aexit with
    | Some e' => run queue c = (Raise e', c1)
    | None => run queue c = (Ok EXIT_STATUS_ERROR, with_tasks None c1)
    end ∧
    List.filter is_call (trace c1)
    = List.filter is_call (trace c)
      ++ ((λ j, Called j "on_start" NoArgs) <$> defining 0 before "on_start")
      ++ [Called (length before) "on_start" NoArgs] ∧
    Logged CRITICAL "Exception in run: %r" (Some e) ∈ trace c1 ∧
    (Yielded ∉ drop (length (trace c)) (trace c1)) ∧
    _tasks c1 = Some [] ∧
    _connections c1 = _connections c ∧
    _dpids c1 = _dpids c.
Proof.
  intros Henter Happs Hret Hattr Hraises.
  assert (Hstart : zof_invoke_lifecycle "START" (with_tasks (Some []) c)
    = (Raise e,
       add_trace (((λ j, Called j "on_start" NoArgs)
                     <$> defining 0 before "on_start")
                  ++ [Called (length before) "on_start" NoArgs])
         (with_tasks (Some []) c))).
  { unfold zof_invoke_lifecycle, bind, gets. cbn [apps with_tasks].
    rewrite Happs.
    exact (lifecycle_raises "on_start" before after app m e 0 _
             Hret Hattr Hraises). }
  set (c1 := add_trace [Logged CRITICAL "Exception in run: %r" (Some e)]
               (add_trace (((λ j, Called j "on_start" NoArgs)
                              <$> defining 0 before "on_start")
                           ++ [Called (length before) "on_start" NoArgs])
                  (with_tasks (Some []) c))).
  assert (Hrun : run queue c = run_leaves EXIT_STATUS_ERROR c1).
  { rewrite (run_entered queue c Henter). unfold bind at 1.
    by rewrite Hstart. }
  exists c1. rewrite Hrun. unfold run_leaves.
  split; [by destruct Driver_aexit|]. subst c1. simpl.
  set (starts := (λ j, Called j "on_start" NoArgs)
                   <$> defining 0 before "on_start").
  assert (Hstarts : List.filter is_call starts = starts)
    by apply filter_is_call_calls.
  split.
  { rewrite !List.filter_app, Hstarts. simpl. by rewrite app_nil_r, app_assoc. }
  split.
  { apply elem_of_app. right. apply list_elem_of_here. }
  split; [|done].
  rewrite <- !app_assoc, drop_app_length.
  intros Hin. apply elem_of_app in Hin as [Hin | Hin].
  - subst starts. apply list_elem_of_fmap in Hin as (j & Hj & _). done.
  - apply elem_of_cons in Hin as [Hin | Hin]; [done|].
    apply list_elem_of_singleton in Hin. done.
Qed.

End RunReturns.

Lemma failing_on_start_witness :
  let plain := mkMethod false (λ _, None) in
  let failing := mkMethod false (λ _, Some (UserError "FAIL")) in
  let c := init [[("on_start", plain); ("on_stop", plain)];
                 [("on_start", failing)];
                 [("on_start", plain)]] no_config in
  ∃ c1, run (H := plain_collaborators) [up_event] c
        = (Ok EXIT_STATUS_ERROR, with_tasks None c1) ∧
        List.filter is_call (trace c1)
        = [Called 0 "on_start" NoArgs; Called 1 "on_start" NoArgs] ∧
        _tasks c1 = Some [].
Proof.
  intros plain failing c.
  destruct (failing_on_start_aborts_run (H := plain_collaborators) [up_event] c
              [[("on_start", plain); ("on_stop", plain)]]
              [[("on_start", plain)]] [("on_start", failing)] failing
              (UserError "FAIL") eq_refl eq_refl)
    as (c1 & Hrun & Htrace & _ & _ & Htasks & _).
  - intros a h Hin Hattr. apply list_elem_of_singleton in Hin as ->.
    by injection Hattr as <-.
  - reflexivity.
  - reflexivity.
  - exists c1. split; [exact Hrun|]. split; [|exact Htasks].
    rewrite Htrace. reflexivity.
Defined.

(** *** The two indexes hold the same datapaths *)

Lemma in_delitem_ne {K V} `{EqDecision K} (d : PyDict.dict K V) (k k' : K)
    (v : V) :
  (k', v) ∈ d → k' ≠ k → (k', v) ∈ PyDict.delitem d k.
Proof.
  intros Hin Hne. induction d as [|[k0 v0] d IH]; simpl; [done|].
  apply elem_of_cons in Hin as [[= <- <-] | Hin].
  - rewrite decide_False by done. apply list_elem_of_here.
  - destruct (decide (k0 = k)); [done|].
    apply elem_of_cons. right. by apply IH.
Qed.

Lemma same_tables_dpids_connected (c c' : Controller) :
  same_tables c c' → dpids_connected c → dpids_connected c'.
Proof.
  intros (Hconns & Hdpids & Hids) Hdc dp_id a Hlook. rewrite Hdpids in Hlook.
  destruct (Hdc dp_id a Hlook) as (key & o & Hin & Hload & Hid).
  destruct (Hids a o Hload) as (o' & Hload' & Hid').
  exists key, o'. rewrite Hconns. split; [done|]. split; [done | congruence].
Qed.

Lemma framed_keeps_agree {A} (m : CM A) : framed m → keeps indexes_agree m.
Proof.
  intros Hm c [Hok Hdc]. split; [by apply framed_keeps|].
  by eapply same_tables_dpids_connected.
Qed.

Lemma channel_up_outcome (event : Event) (c : Controller) :
  (∃ e, zof_channel_up event c = (Raise e, c)) ∨
  (∃ conn key s dp_id,
     assoc event "conn_id" = Some conn ∧
     hashable conn = Some key ∧
     assoc event "datapath_id" = Some (VStr s) ∧
     int16 (remove_colons s) = Some dp_id ∧
     PyDict.get (_connections c) key = None ∧
     _dpids c !! dp_id = None).
Proof.
  unfold zof_channel_up, bind, item, key_of, gets, PyDict.contains.
  destruct (assoc event "conn_id") as [conn|]; [|left; by eexists]. simpl.
  destruct (assoc event "datapath_id") as [dpid_str|]; [|left; by eexists].
  simpl.
  destruct dpid_str as [| | |s| |]; try (left; by eexists).
  destruct (int16 (remove_colons s)) as [n|] eqn:Hparse;
    [|left; by eexists].
  simpl.
  destruct (hashable conn) as [key|] eqn:Hkey; [|left; by eexists]. simpl.
  destruct (PyDict.get (_connections c) key) eqn:Hget; [left; by eexists|].
  simpl.
  destruct (_dpids c !! n) eqn:Hdpid.
  { left. rewrite bool_decide_eq_false_2 by done. by eexists. }
  right. by exists conn, key, s, n.
Qed.

Lemma channel_up_keeps_agree (event : Event) :
  keeps indexes_agree (zof_channel_up event).
Proof.
  intros c [Hok Hdc]. split; [by apply channel_up_keeps_table_ok|].
  destruct (channel_up_outcome event c)
    as [[e Hraise] | (conn & key & s & dp_id & Hconn & Hkey & Hdpid & Hparse
                      & Hfresh & Hnew)].
  { by rewrite Hraise. }
  rewrite (channel_up_spec c event conn key s dp_id) by done. simpl.
  intros d a Hlook. simpl in *.
  rewrite PyDictMoreFacts.setitem_fresh by done.
  destruct (decide (d = dp_id)) as [->|Hne].
  - rewrite lookup_insert_eq in Hlook. injection Hlook as <-.
    exists key, (mkDatapath conn dp_id false [] (Some event) []).
    split; [apply elem_of_app; right; apply list_elem_of_here|].
    split; [by apply list_lookup_middle | done].
  - rewrite lookup_insert_ne in Hlook by done.
    destruct (Hdc d a Hlook) as (k & o & Hin & Hload & Hid).
    exists k, o. split; [apply elem_of_app; by left|].
    split; [by apply lookup_app_l_Some | done].
Qed.

Lemma channel_down_keeps_agree (event : Event) :
  keeps indexes_agree (zof_channel_down event).
Proof.
  intros c [Hok Hdc]. split; [by apply channel_down_keeps_table_ok|].
  pose proof Hok as (Hwf & Hnd & Hagree).
  unfold zof_channel_down, bind, item, key_of, gets, PyDict.pop.
  destruct (assoc event "conn_id") as [conn|]; [|exact Hdc]. simpl.
  destruct (hashable conn) as [key|]; [|exact Hdc]. simpl.
  destruct (PyDict.get (_connections c) key) as [dp|] eqn:Hget; [|exact Hdc].
  simpl.
  destruct (Hagree key dp (PyDictFacts.get_Some_in _ _ _ Hget))
    as (o & Hload & Hdpid).
  unfold load. simpl. rewrite Hload. simpl. rewrite Hdpid.
  set (c2 := with_dpids (delete (id o) (_dpids c))
               (with_connections (PyDict.delitem (_connections c) key) c)).
  assert (Hdc2 : dpids_connected c2).
  { intros d a Hlook. simpl in Hlook.
    apply lookup_delete_Some in Hlook as [Hne Hlook].
    destruct (Hdc d a Hlook) as (k & o' & Hin & Hload' & Hid).
    exists k, o'. split; [|done]. simpl. apply in_delitem_ne; [done|].
    intros ->. apply (PyDictFacts.in_get_Some _ _ _ Hwf) in Hin.
    rewrite Hget in Hin. injection Hin as <-.
    rewrite Hload in Hload'. injection Hload' as <-. done. }
  assert (Hrest : framed
    (bind (zof_cancel_tasks dp) (λ _,
       if closed o then ret None
       else bind (set_closed dp) (λ _, ret (Some dp))))).
  { apply framed_bind; [apply framed_zof_cancel_tasks|]. intros _.
    destruct (closed o); [apply framed_ret|].
    apply framed_bind; [apply framed_set_closed | intros _; apply framed_ret]. }
  exact (same_tables_dpids_connected _ _ (Hrest c2) Hdc2).
Qed.

Lemma agree_size (c : Controller) :
  indexes_agree c → size (_dpids c) = length (_connections c).
Proof.
  intros [(Hwf & Hnd & Hagree) Hdc].
  rewrite <- length_map_to_list.
  rewrite <- (length_fmap snd (map_to_list (_dpids c))).
  rewrite <- (length_fmap snd (_connections c)).
  apply Permutation_length, NoDup_Permutation.
  - apply NoDup_fmap_2_strong; [|apply NoDup_map_to_list].
    intros [d1 a1] [d2 a2] Hin1 Hin2 Heq. simpl in Heq. subst a2.
    apply elem_of_map_to_list in Hin1, Hin2.
    destruct (Hdc d1 a1 Hin1) as (k1 & o1 & _ & Hload1 & Hid1).
    destruct (Hdc d2 a1 Hin2) as (k2 & o2 & _ & Hload2 & Hid2).
    f_equal. congruence.
  - exact Hnd.
  - intros a. split.
    + intros Hin. apply list_elem_of_fmap in Hin as ([d a'] & -> & Hin).
      apply elem_of_map_to_list in Hin.
      destruct (Hdc d a' Hin) as (k & o & Hin' & _).
      apply list_elem_of_fmap. by exists (k, a').
    + intros Hin. apply list_elem_of_fmap in Hin as ([k a'] & -> & Hin).
      destruct (Hagree k a' Hin) as (o & Hload & Hdpid).
      apply list_elem_of_fmap. exists (id o, a'). split; [done|].
      by apply elem_of_map_to_list.
Qed.

Section LoopKeepsIndexes.
Context `{Collaborators}.

Lemma turn_keeps_agree (event : Event) :
  keeps indexes_agree (zof_event_loop_turn event).
Proof.
  intros c Hok. unfold zof_event_loop_turn, bind at 1, item.
  destruct (assoc event "type") as [event_type|]; [|exact Hok]. simpl.
  assert (Hdispatch : ∀ (next : option (option nat * Event)),
    framed (match next with
            | None => ret tt
            | Some (dp, event) =>
                bind (zof_dispatch_event event_type dp event)
                  (λ _, emit Yielded)
            end)).
  { intros [[dp event']|]; [|apply framed_ret].
    apply framed_bind; [apply framed_zof_dispatch_event|].
    intros _. apply framed_emit. }
  unfold bind at 1.
  destruct (is_str event_type "CHANNEL_UP").
  { unfold bind at 1. pose proof (channel_up_keeps_agree event c Hok) as Hup.
    destruct (zof_channel_up event c) as [[dp|e|f] c1]; simpl in *; try done.
    exact (framed_keeps_agree _ (Hdispatch (Some (Some dp, event))) c1 Hup). }
  destruct (is_str event_type "CHANNEL_DOWN").
  { unfold bind at 1.
    pose proof (channel_down_keeps_agree event c Hok) as Hdown.
    destruct (zof_channel_down event c) as [[[dp|]|e|f] c1]; simpl in *;
      try done.
    exact (framed_keeps_agree _ (Hdispatch (Some (Some dp, event))) c1 Hdown). }
  assert (Hother : framed
    (bind (bind (zof_find_dp event) (λ dp,
       bind (match dp with
             | Some a => bind (load a) (λ o, ret (closed o))
             | None => ret false
             end)
         (λ is_closed : bool,
            if is_closed then ret None
            else if is_str event_type "PACKET_IN" then
              bind (of_sum (Packet_zof_from_packet_in event))
                (λ event', ret (Some (dp, event')))
            else
              match dp with
              | Some a =>
                  bind (if is_str event_type "PORT_STATUS"
                        then zof_from_port_status a event else ret tt)
                    (λ _, ret (Some (dp, event)))
              | None => ret (Some (dp, event))
              end)))
       (λ next,
          match next with
          | None => ret tt
          | Some (dp, event) =>
              bind (zof_dispatch_event event_type dp event) (λ _, emit Yielded)
          end))).
  { apply framed_bind; [|exact Hdispatch].
    apply framed_bind; [apply framed_zof_find_dp|]. intros dp.
    apply framed_bind.
    { destruct dp as [a|]; [|apply framed_ret].
      apply framed_bind; [apply framed_load | intros o; apply framed_ret]. }
    intros [|]; [apply framed_ret|].
    destruct (is_str event_type "PACKET_IN").
    { apply framed_bind; [apply framed_of_sum | intros ?; apply framed_ret]. }
    destruct dp as [a|]; [|apply framed_ret].
    apply framed_bind; [|intros _; apply framed_ret].
    destruct (is_str event_type "PORT_STATUS");
      [apply framed_zof_from_port_status | apply framed_ret]. }
  exact (framed_keeps_agree _ Hother c Hok).
Qed.

Lemma event_loop_keeps_agree (queue : list Event) :
  keeps indexes_agree (zof_event_loop queue).
Proof.
  induction queue as [|event queue IH]; intros c Hok; simpl.
  - exact (framed_keeps_agree _ (framed_emit _) c Hok).
  - unfold bind, try_except.
    pose proof (turn_keeps_agree event c Hok) as Hturn.
    destruct (zof_event_loop_turn event c) as [[[]|e|f] c1]; simpl in *.
    + by apply IH.
    + apply IH. exact (framed_keeps_agree _ (framed_emit _) c1 Hturn).
    + exact Hturn.
Qed.

(** X27: in every state that [run] reaches with the event loop, for
    whatever apps, configuration and events, the two indexes hold the
    same datapaths: [get_datapaths] lists each connected datapath once,
    [find_datapath] finds each of them under its own id and finds
    nothing else, and the indexes have the same size. *)
Theorem indexes_hold_the_same_datapaths (apps : list App)
    (config : Configuration) (queue : list Event) :
  let c := ((zof_invoke_lifecycle "START" ;;; zof_listen ;;;
             zof_event_loop queue)%py
              (with_tasks (Some []) (init apps config))).2 in
  ∃ connected,
    get_datapaths c = (Ok connected, c) ∧
    NoDup connected ∧
    length connected = size (_dpids c) ∧
    (∀ a, a ∈ connected →
       ∃ o, datapaths c !! a = Some o ∧
            find_datapath (id o) c = (Ok (Some a), c)) ∧
    (∀ dp_id a, find_datapath dp_id c = (Ok (Some a), c) →
       a ∈ connected ∧
       ∃ o, datapaths c !! a = Some o ∧ id o = dp_id).
Proof.
  intros c.
  assert (Hagree : indexes_agree c).
  { subst c.
    assert (Hstart : indexes_agree (with_tasks (Some []) (init apps config))).
    { split.
      - eapply same_tables_table_ok; [|apply init_table_ok].
        same_tables_by_computation.
      - intros dp_id a Hlook. simpl in Hlook.
        by apply lookup_empty_Some in Hlook. }
    revert Hstart. generalize (with_tasks (Some []) (init apps config)).
    apply keeps_bind; [apply framed_keeps_agree, framed_zof_invoke_lifecycle|].
    intros _. apply keeps_bind; [apply framed_keeps_agree, framed_zof_listen|].
    intros _. apply event_loop_keeps_agree. }
  pose proof (agree_size c Hagree) as Hsize.
  destruct Hagree as [(Hwf & Hnd & Hboth) Hdc].
  exists (PyDict.values (_connections c)).
  split; [reflexivity|]. split; [exact Hnd|].
  split; [unfold PyDict.values; by rewrite length_fmap|].
  split.
  - intros a Hin. apply list_elem_of_fmap in Hin as ([k a'] & -> & Hin).
    destruct (Hboth k a' Hin) as (o & Hload & Hdpid).
    exists o. split; [exact Hload|].
    unfold find_datapath, bind, gets, ret. by rewrite Hdpid.
  - intros dp_id a Hfind. unfold find_datapath, bind, gets, ret in Hfind.
    injection Hfind as Hlook.
    destruct (Hdc dp_id a Hlook) as (k & o & Hin & Hload & Hid).
    split; [|by exists o]. apply list_elem_of_fmap. by exists (k, a).
Qed.

End LoopKeepsIndexes.

End ZofMoreFacts.

(** ** The dispatcher of [pylibofp] *)

Module PylibofpDispatchFacts.
Import Py Json Pylibofp PylibofpProps PylibofpTasks PylibofpDispatch
  PylibofpDispatchProps.
Local Open Scope py_scope.

Lemma assoc_setitem_ne (fields : list (string * Value)) (k k' : string)
    (v : Value) :
  k ≠ k' → assoc (PyDict.setitem fields k v) k' = assoc fields k'.
Proof.
  intros Hne. induction fields as [|[k0 v0] fields IH]; simpl.
  - by rewrite (proj2 (String.eqb_neq _ _) Hne).
  - destruct (decide (k0 = k)) as [->|Hne0]; simpl.
    + by rewrite (proj2 (String.eqb_neq _ _) Hne).
    + by rewrite IH.
Qed.

Lemma message_loop (params : Value) (c : Controller) (l0 : list App)
    (l : list App) :
  ∀ (k : nat) (done : list Call),
  (∀ app, app ∈ l → on_message app params = None) →
  for_each (imap (λ i app, ((k + i)%nat, app)) l)
    (λ '(i, app), call_app (MessageCall i params) (on_message app params))
    (mkDispatcher c l0 done)
  = (Ok tt,
     mkDispatcher c l0
       (done ++ imap (λ i _, MessageCall (k + i)%nat params) l)).
Proof.
  induction l as [|app l IH]; intros k done Hret.
  - simpl. by rewrite app_nil_r.
  - rewrite !imap_cons. cbn [for_each]. unfold bind at 1, call_app.
    unfold bind at 1, modify. simpl.
    rewrite (Hret app) by apply list_elem_of_here. unfold ret at 1.
    rewrite Nat.add_0_r.
    rewrite (imap_ext _ (λ i app, ((S k + i)%nat, app)))
      by (intros i x _; simpl; f_equal; lia).
    rewrite IH by (intros a Hin; apply Hret; by apply elem_of_cons; right).
    rewrite <- app_assoc. simpl. do 4 f_equal.
    apply imap_ext. intros i x _. simpl. f_equal. lia.
Qed.

Lemma apps_message_returns (params : Value) (s : Dispatcher) :
  (∀ app, app ∈ apps s → on_message app params = None) →
  apps_message params s
  = (Ok tt,
     mkDispatcher (controller s) (apps s)
       (calls s ++ message_calls (apps s) params)).
Proof.
  intros Hret. destruct s as [c l done].
  exact (message_loop params c l l 0 done Hret).
Qed.

Lemma on_controller_attr (obj : Value) (k : string) (v : Value)
    (s : Dispatcher) :
  getattr obj k = Some v → on_controller (attr obj k) s = (Ok v, s).
Proof.
  intros Hattr. destruct s as [c l done]. unfold on_controller, attr. simpl.
  by rewrite Hattr.
Qed.

Lemma handle_xid_unknown (event : Value) (xid : Z)
    (except_class : option ExceptClass) (c : Controller) :
  PyDict.get (_reqs c) xid = None →
  _handle_xid event (VInt xid) except_class c = (Ok false, c).
Proof.
  intros Hget. unfold _handle_xid, xid_key, bind, gets, ret. simpl.
  by rewrite Hget.
Qed.

Lemma handle_xid_known (event : Value) (xid : Z)
    (except_class : option ExceptClass) (c : Controller) :
  is_Some (PyDict.get (_reqs c) xid) →
  (_handle_xid event (VInt xid) except_class c).1 ≠ Ok false.
Proof.
  intros [[fut expiration] Hget].
  unfold _handle_xid, xid_key, bind at 1 2, gets, ret. simpl.
  rewrite Hget. simpl. unfold bind at 1.
  destruct (match except_class with
            | Some cls => on_heap (set_exception fut (instantiate cls event))
            | None => on_heap (set_result fut event)
            end c) as [[[]|e|f] c1]; [|done..].
  unfold bind at 1.
  destruct (lift (_event_has_more event) c1) as [[more|e|f] c2]; [|done..].
  unfold bind at 1.
  match goal with
  | |- context [let (r, s') := ?m c2 in _] =>
      destruct (m c2) as [[[]|e|f] c3]; done
  end.
Qed.



Section Dispatch.
Context `{Library}.

(** The way of a notification through [_dispatch_event], up to the
    handler for its type. *)
Lemma dispatch_notification (s : Dispatcher) (event : Value)
    (fields : list (string * Value)) (time time' : Value) (t : string) :
  has_key event "event" = false →
  has_key event "id" = false →
  getattr event "method" = Some (VStr "OFP.MESSAGE") →
  getattr event "params" = Some (VObj fields) →
  assoc fields "time" = Some time →
  fromtimestamp time = inr time' →
  assoc fields "type" = Some (VStr t) →
  _dispatch_event event s
  = try_except
      (let params := VObj (PyDict.setitem fields "time" time') in
       if negb (String.prefix "CHANNEL_" t) then _handle_message params
       else if String.eqb t "CHANNEL_ALERT" then _handle_alert params
       else _handle_channel params)
      (λ e, match e with BreakException => true | _ => false end)
      (λ _, ret tt) s.
Proof.
  intros Hevent Hid Hmethod Hparams Htime Hconv Htype.
  unfold _dispatch_event. rewrite Hevent, Hid. unfold try_except.
  unfold bind at 1. rewrite (on_controller_attr _ _ _ _ Hmethod).
  cbn [is_str String.eqb Ascii.eqb Bool.eqb andb].
  unfold bind at 1. rewrite (on_controller_attr _ _ _ _ Hparams).
  unfold bind at 1.
  rewrite (on_controller_attr (VObj fields) "time" time) by exact Htime.
  unfold bind at 1. rewrite Hconv. unfold of_library, ret at 1.
  unfold bind at 1. rewrite (on_controller_attr _ _ _ _ Hparams).
  cbn [set_time].
  assert (Htype' : getattr (VObj (PyDict.setitem fields "time" time')) "type"
                   = Some (VStr t)).
  { simpl. by rewrite assoc_setitem_ne. }
  unfold bind at 1. rewrite (on_controller_attr _ _ _ _ Htype').
  unfold bind at 1, startswith, on_controller at 1, ret at 1.
  destruct s as [c l done]. reflexivity.
Qed.

(** X28: an OpenFlow message that is not a channel notification and
    carries the xid of an outstanding request goes to the reply handle of
    that request (as an [ErrorException] if its type is ERROR) and to no
    app; with an xid that no request has, it goes to every app, in the
    order of the apps, and an ERROR is logged as well.  The apps get the
    message with its time converted. *)
Theorem message_goes_to_the_request_or_to_the_apps (s : Dispatcher)
    (event : Value) (fields : list (string * Value)) (time time' : Value)
    (t : string) (xid : Z) :
  has_key event "event" = false →
  has_key event "id" = false →
  getattr event "method" = Some (VStr "OFP.MESSAGE") →
  getattr event "params" = Some (VObj fields) →
  assoc fields "time" = Some time →
  fromtimestamp time = inr time' →
  assoc fields "type" = Some (VStr t) →
  String.prefix "CHANNEL_" t = false →
  assoc fields "xid" = Some (VInt xid) →
  let params := VObj (PyDict.setitem fields "time" time') in
  let except_class := if String.eqb t "ERROR" then Some OFError else None in
  (is_Some (PyDict.get (_reqs (controller s)) xid) →
   let delivery := _handle_xid params (VInt xid) except_class (controller s) in
   _dispatch_event event s
   = (passed_on delivery.1, mkDispatcher delivery.2 (apps s) (calls s))) ∧
  (PyDict.get (_reqs (controller s)) xid = None →
   (∀ app, app ∈ apps s → on_message app params = None) →
   _dispatch_event event s
   = (Ok tt,
      mkDispatcher
        (if String.eqb t "ERROR"
         then with_logged (logged (controller s) ++ [(ERROR, "ERROR: %s")])
                (controller s)
         else controller s)
        (apps s) (calls s ++ message_calls (apps s) params))).
Proof.
  intros Hevent Hid Hmethod Hparams Htime Hconv Htype Hplain Hxid params
    except_class.
  assert (Htype' : getattr params "type" = Some (VStr t)).
  { subst params. simpl. by rewrite assoc_setitem_ne. }
  assert (Hxid' : getattr params "xid" = Some (VInt xid)).
  { subst params. simpl. by rewrite assoc_setitem_ne. }
  assert (Hstart : ∀ s0,
    _handle_message params s0
    = bind (on_controller (_handle_xid params (VInt xid) except_class))
        (λ found : bool,
           if found then ret tt
           else
             bind (apps_message params) (λ _,
               bind (on_controller (attr params "type")) (λ type_,
                 if is_str type_ "ERROR"
                 then on_controller (LOGGER ERROR "ERROR: %s")
                 else ret tt))) s0).
  { intros s0. unfold _handle_message.
    unfold bind at 1. rewrite (on_controller_attr _ _ _ _ Htype').
    unfold bind at 1. rewrite (on_controller_attr _ _ _ _ Hxid').
    reflexivity. }
  rewrite (dispatch_notification s event fields time time' t) by done.
  rewrite Hplain. cbn [negb]. fold params. unfold try_except.
  rewrite Hstart. split.
  - intros Hknown.
    pose proof (handle_xid_known params xid except_class (controller s) Hknown)
      as Hfound.
    unfold bind, on_controller at 1.
    destruct (_handle_xid params (VInt xid) except_class (controller s))
      as [[[|]|e|f] c1]; simpl in *; done.
  - intros Hunknown Hret.
    unfold bind at 1, on_controller at 1.
    rewrite (handle_xid_unknown _ _ _ _ Hunknown).
    destruct s as [c l done]. cbn [controller apps calls] in *.
    unfold bind at 1.
    rewrite (apps_message_returns params (mkDispatcher c l done)) by done.
    cbn [controller apps calls].
    unfold bind at 1. rewrite (on_controller_attr _ _ _ _ Htype').
    cbn [is_str]. destruct (String.eqb t "ERROR"); reflexivity.
Qed.



End Dispatch.

Lemma message_witness :
  let event := notification [("type", VStr "PACKET_IN"); ("time", VInt 5);
                             ("xid", VInt 0)] in
  let s := mkDispatcher (running []) [quiet_app; quiet_app] [] in
  _dispatch_event (H := plain_library) event s
  = (Ok tt,
     mkDispatcher (running []) [quiet_app; quiet_app]
       [MessageCall 0 (VObj [("type", VStr "PACKET_IN"); ("time", VInt 5);
                             ("xid", VInt 0)]);
        MessageCall 1 (VObj [("type", VStr "PACKET_IN"); ("time", VInt 5);
                             ("xid", VInt 0)])]).
Proof.
  intros event s.
  destruct (message_goes_to_the_request_or_to_the_apps (H := plain_library)
              s event
              [("type", VStr "PACKET_IN"); ("time", VInt 5); ("xid", VInt 0)]
              (VInt 5) (VInt 5) "PACKET_IN" 0
              eq_refl eq_refl eq_refl eq_refl eq_refl eq_refl eq_refl eq_refl
              eq_refl) as [_ Hunknown].
  apply Hunknown; [reflexivity|].
  intros app Hin. simpl in Hin.
  repeat (apply elem_of_cons in Hin as [-> | Hin]; [reflexivity|]).
  by apply elem_of_nil in Hin.
Defined.


End PylibofpDispatchFacts.

(** ** The driver of [zof] *)

Module ZofDriverFacts.
Import Py Json Zof ZofDriver ZofDriverProps.
Local Open Scope py_scope.

Lemma assoc_setitem_eq (event : Event) (k : string) (v : Value) :
  assoc (PyDict.setitem event k v) k = Some v.
Proof.
  induction event as [|[k0 v0] event IH]; simpl.
  - by rewrite String.eqb_refl.
  - destruct (decide (k0 = k)) as [->|Hne]; simpl.
    + by rewrite String.eqb_refl.
    + by rewrite (proj2 (String.eqb_neq _ _) Hne).
Qed.

Lemma assoc_setitem_other (event : Event) (k k' : string) (v : Value) :
  k ≠ k' → assoc (PyDict.setitem event k v) k' = assoc event k'.
Proof.
  intros Hne. induction event as [|[k0 v0] event IH]; simpl.
  - by rewrite (proj2 (String.eqb_neq _ _) Hne).
  - destruct (decide (k0 = k)) as [->|Hne0]; simpl.
    + by rewrite (proj2 (String.eqb_neq _ _) Hne).
    + by rewrite IH.
Qed.

Section Numbers.
Context `{Backend}.

Lemma subscript_returns_or_raises (reply : Value) (k : string) (d : Driver) :
  ∃ r, subscript reply k d = (r, d) ∧ ∀ f, r ≠ Blocked f.
Proof.
  unfold subscript. destruct reply as [| | | | |fields];
    try (eexists; split; [reflexivity | done]).
  destruct (assoc fields k); eexists; (split; [reflexivity | done]).
Qed.

Lemma request_rpc (event : Event) (q : option (list Event)) (pi : option Z)
    (dbg : bool) (p : Protocol) (lx : Z) :
  has event "method" = true →
  ∃ r, request event (mkDriver q pi dbg (Some p) lx)
       = (r, mkDriver q pi dbg
               (Some (mkProtocol (written p ++ [VObj event]))) lx) ∧
       ∀ f, r ≠ Blocked f.
Proof.
  intros Hmethod. unfold request, OftrProtocol_request, bind, gets, assert,
    OftrProtocol_send, modify. simpl.
  rewrite Hmethod. simpl. unfold given.
  destruct (reply_to (VObj event)) as [e|reply];
    eexists; (split; [reflexivity | done]).
Qed.

Lemma attempt_ok (m : DM unit) (d d' : Driver) (r : Result Exception unit) :
  m d = (r, d') → (∀ f, r ≠ Blocked f) →
  try_except m (λ _, true) (λ _, ret tt) d = (Ok tt, d').
Proof.
  intros Hrun Hnb. unfold try_except. rewrite Hrun.
  destruct r as [[]|e|f]; [done | done | by specialize (Hnb f)].
Qed.

Lemma rpc_then_subscript (request_ : DM Event) (frame : Event) (k : string)
    (q : option (list Event)) (pi : option Z) (dbg : bool) (p : Protocol)
    (lx : Z) :
  request_ (mkDriver q pi dbg (Some p) lx)
  = (Ok frame, mkDriver q pi dbg (Some p) (lx + 1)) →
  has frame "method" = true →
  ∃ r, (let! _ := (let! request_ := request_ in
                   let! reply := request request_ in
                   subscript reply k) in ret tt)
         (mkDriver q pi dbg (Some p) lx)
       = (r, mkDriver q pi dbg
               (Some (mkProtocol (written p ++ [VObj frame]))) (lx + 1)) ∧
       ∀ f, r ≠ Blocked f.
Proof.
  intros Hframe Hmethod. unfold bind at 1 2. rewrite Hframe.
  destruct (request_rpc frame q pi dbg p (lx + 1) Hmethod)
    as (r & Hrequest & Hnb).
  unfold bind at 1. rewrite Hrequest.
  destruct r as [reply|e|f]; [|eexists; split; [reflexivity | done]|].
  - destruct (subscript_returns_or_raises reply k
                (mkDriver q pi dbg
                   (Some (mkProtocol (written p ++ [VObj frame]))) (lx + 1)))
      as (r & -> & Hnb').
    destruct r as [v|e|f]; [| |by specialize (Hnb' f)];
      eexists; (split; [reflexivity | done]).
  - by specialize (Hnb f).
Qed.

Lemma attempt_numbered (op : Op) (q : option (list Event)) (pi : option Z)
    (dbg : bool) (p : Protocol) (lx : Z) :
  numbered_by_driver op →
  ∃ frame,
    try_except (perform op) (λ _, true) (λ _, ret tt)
      (mkDriver q pi dbg (Some p) lx)
    = (Ok tt,
       mkDriver q pi dbg (Some (mkProtocol (written p ++ [frame]))) (lx + 1)) ∧
    frame_number frame = Some (VInt (lx + 1)).
Proof.
  intros Hop.
  destruct op as [event|event|endpoint options versions|endpoint|conn_id];
    simpl in Hop.
  - destruct Hop as (Htype & Hmethod & Hxid).
    eexists. split.
    + eapply attempt_ok; [|by instantiate (1 := Ok tt)].
      unfold perform, send, bind, gets, assert.
      simpl. rewrite Hmethod. simpl. unfold _ofp_send, bind.
      rewrite Htype, Hxid. simpl. reflexivity.
    + simpl. apply assoc_setitem_eq.
  - destruct Hop as (Htype & Hmethod & Hxid).
    eexists. split.
    + unfold perform, request, OftrProtocol_request, bind, gets, assert.
      simpl.
      rewrite Hmethod. simpl. unfold _ofp_send, bind.
      rewrite Htype, Hxid. simpl. unfold try_except, given.
      rewrite bool_decide_eq_true_2 by done. simpl.
      match goal with
      | |- context [reply_to ?v] =>
          destruct (reply_to v) as [e|reply]; reflexivity
      end.
    + simpl. apply assoc_setitem_eq.
  - destruct (rpc_then_subscript (_ofp_listen endpoint options versions) _
                "conn_id" q pi dbg p lx eq_refl eq_refl) as (r & Hrun & Hnb).
    eexists. split; [exact (attempt_ok _ _ _ _ Hrun Hnb) | reflexivity].
  - destruct (rpc_then_subscript (_ofp_connect endpoint) _
                "conn_id" q pi dbg p lx eq_refl eq_refl) as (r & Hrun & Hnb).
    eexists. split; [exact (attempt_ok _ _ _ _ Hrun Hnb) | reflexivity].
  - destruct (rpc_then_subscript (_ofp_close conn_id) _
                "count" q pi dbg p lx eq_refl eq_refl) as (r & Hrun & Hnb).
    eexists. split; [exact (attempt_ok _ _ _ _ Hrun Hnb) | reflexivity].
Qed.

Lemma attempt_all_numbered (q : option (list Event)) (pi : option Z)
    (dbg : bool) (ops : list Op) :
  Forall numbered_by_driver ops →
  ∀ (p : Protocol) (lx : Z),
  ∃ p', attempt_all ops (mkDriver q pi dbg (Some p) lx)
        = (Ok tt,
           mkDriver q pi dbg (Some p') (lx + Z.of_nat (length ops))) ∧
    frame_number <$> written p'
    = (frame_number <$> written p)
      ++ ((λ n, Some (VInt n)) <$> seqZ (lx + 1) (Z.of_nat (length ops))).
Proof.
  induction 1 as [|op ops Hop Hops IH]; intros p lx.
  - exists p. split; [|by rewrite app_nil_r].
    simpl. unfold ret. by rewrite Z.add_0_r.
  - destruct (attempt_numbered op q pi dbg p lx Hop)
      as (frame & Hrun & Hnumber).
    destruct (IH (mkProtocol (written p ++ [frame])) (lx + 1))
      as (p' & Hrest & Hnumbers).
    exists p'. split.
    + unfold attempt_all in *. cbn [for_each]. unfold bind at 1.
      rewrite Hrun, Hrest. do 2 f_equal. cbn [length]. lia.
    + rewrite Hnumbers. cbn [written length].
      rewrite fmap_app, <- app_assoc. f_equal.
      rewrite (seqZ_cons (lx + 1) (Z.of_nat (S (length ops)))) by lia.
      rewrite fmap_cons. cbn [fmap list_fmap app]. rewrite Hnumber.
      do 3 f_equal; lia.
Qed.

(** X30: the driver never gives two frames the same number.  For any
    sequence of calls that leave the numbering to the driver (messages
    sent or requested without an xid; listen, connect and close),
    whatever the backend replies and whether or not a call raises, each
    call writes one frame, and the frames carry the numbers that follow
    the last one used, in the order of the calls.  A message that comes
    with an xid of its own keeps it and uses up no number. *)
Theorem driver_numbers_its_frames_in_sequence (ops : list Op) (d : Driver)
    (p : Protocol) :
  _protocol d = Some p →
  Forall numbered_by_driver ops →
  (∃ p', attempt_all ops d
         = (Ok tt,
            with_protocol (Some p')
              (with_last_xid (_last_xid d + Z.of_nat (length ops)) d)) ∧
     frame_number <$> written p'
     = (frame_number <$> written p)
       ++ ((λ n, Some (VInt n))
             <$> seqZ (_last_xid d + 1) (Z.of_nat (length ops)))) ∧
  (∀ event, has event "type" = true → has event "method" = false →
     has event "xid" = true →
     send event d
     = (Ok tt,
        with_protocol
          (Some (mkProtocol
                   (written p ++ [VObj [("method", VStr "OFP.SEND");
                                        ("params", VObj event)]])))
          d)).
Proof.
  intros Hopen Hops. destruct d as [q pi dbg pr lx]. simpl in Hopen.
  subst pr. split.
  - exact (attempt_all_numbered q pi dbg ops Hops p lx).
  - intros event Htype Hmethod Hxid.
    unfold send, bind, gets, assert. simpl. rewrite Hmethod. simpl.
    unfold _ofp_send, bind. rewrite Htype, Hxid. reflexivity.
Qed.

End Numbers.

Lemma driver_numbers_witness :
  let d := mkDriver (Some []) (Some 1) false (Some (mkProtocol [])) 0 in
  let ops := [Listen (VInt 6653) (VList []) (VList [VInt 4]);
              Send [("type", VStr "BARRIER_REQUEST")];
              Close (VInt 1)] in
  ∃ p', attempt_all (H := mute_backend) ops d
        = (Ok tt, with_protocol (Some p') (with_last_xid 3 d)) ∧
        frame_number <$> written p'
        = [Some (VInt 1); Some (VInt 2); Some (VInt 3)].
Proof.
  intros d ops.
  assert (Hops : Forall numbered_by_driver ops).
  { repeat (apply Forall_cons; split; [by simpl|]). apply Forall_nil_2. }
  destruct (driver_numbers_its_frames_in_sequence (H := mute_backend) ops d
              (mkProtocol []) eq_refl Hops) as [(p' & Hrun & Hnumbers) _].
  exists p'. split; [exact Hrun | exact Hnumbers].
Defined.

End ZofDriverFacts.
